(** * Live chat analyser: collectors, statistics and insight generator

    A shallow embedding of [src/app.py] (class [YouTubeChatAnalyzer]) and
    the properties of its chat collectors, its statistics aggregator and
    its insight generator.

    Conventions of the embedding.
    - A Python [str] is the list of its code points ([Py.str]).
    - A message dictionary is the record [message_data]; its keys are the
      record's fields.
    - The network, the wall clock, the random generator, the string
      hash and the sort that pandas runs inside [value_counts] are the
      environment: they are Section variables, and every statement
      holds for all of them unless it names a concrete one or assumes
      something of them in a hypothesis.
    - A [while] loop that the source does not bound runs on fuel. *)

From Stdlib Require Import List ZArith NArith Lia Bool String Ascii.
From Stdlib Require Import DecimalString Sorting.Sorted Sorting.Permutation QArith.
Import ListNotations.

Local Open Scope Z_scope.

(** ** Python strings *)

Module Py.

Definition char := N.
Definition str := list char.

(** A literal of the source, read as code points. *)
Definition lit (s : string) : str := map N_of_ascii (list_ascii_of_string s).

Definition str_eq_dec : forall a b : str, {a = b} + {a <> b} :=
  list_eq_dec N.eq_dec.

Definition str_eqb (a b : str) : bool := if str_eq_dec a b then true else false.

(** [bool(s)]: a string is true when it is not empty. *)
Definition truthy (s : str) : bool :=
  match s with [] => false | _ :: _ => true end.

(** [c.isspace()], the characters [str.strip()] removes:
    U+0009..U+000D, U+001C..U+0020, U+0085, U+00A0, U+1680,
    U+2000..U+200A, U+2028, U+2029, U+202F, U+205F, U+3000. *)
Definition isspace (c : char) : bool :=
  ((9 <=? c) && (c <=? 13) || (28 <=? c) && (c <=? 32)
   || (c =? 133) || (c =? 160) || (c =? 5760)
   || (8192 <=? c) && (c <=? 8202)
   || (c =? 8232) || (c =? 8233) || (c =? 8239) || (c =? 8287)
   || (c =? 12288))%N.

Fixpoint lstrip (s : str) : str :=
  match s with
  | [] => []
  | c :: s' => if isspace c then lstrip s' else s
  end.

Definition rstrip (s : str) : str := rev (lstrip (rev s)).

(** [s.strip()] *)
Definition strip (s : str) : str := rstrip (lstrip s).

(** [sep in s] for a one-character [sep] *)
Definition contains (sep : char) (s : str) : bool := existsb (N.eqb sep) s.

(** [s.split(sep)] for a one-character [sep]: never the empty list. *)
Fixpoint split (sep : char) (s : str) : list str :=
  match s with
  | [] => [[]]
  | c :: s' =>
      if (c =? sep)%N then [] :: split sep s'
      else match split sep s' with
           | [] => [[c]]
           | h :: t => (c :: h) :: t
           end
  end.

(** [s.split(sep, 1)] for a one-character [sep]: the text before the
    first [sep] and, when there is one, the text after it. *)
Fixpoint split1 (sep : char) (s : str) : str * option str :=
  match s with
  | [] => ([], None)
  | c :: s' =>
      if (c =? sep)%N then ([], Some s')
      else let (h, t) := split1 sep s' in (c :: h, t)
  end.

(** [str(n)] for a non-negative integer *)
Definition str_of_nat (n : nat) : str := lit (NilZero.string_of_uint (Nat.to_uint n)).

(** [sep.join(parts)] *)
Fixpoint join (sep : str) (parts : list str) : str :=
  match parts with
  | [] => []
  | [p] => p
  | p :: rest => p ++ sep ++ join sep rest
  end.

Definition colon : char := 58%N.
Definition newline : char := 10%N.

(** An [Exception] caught by [except Exception as e], by its [str(e)]. *)
Record exn : Type := mk_exn { exn_str : str }.

(** [KeyError(key)] for a key that is a literal of the source. *)
Definition KeyError (key : string) : exn :=
  mk_exn (lit "'" ++ lit key ++ lit "'").

(** What a call that may raise gives: its value, or the exception. *)
Inductive response (A : Type) : Type :=
  | Ok (data : A)
  | Raises (e : exn).
Arguments Ok {A} data.
Arguments Raises {A} e.

End Py.

Import Py.

(** ** Message records *)

(** The value under ['timestamp']: the API passes the server's
    [publishedAt] text through; the other two collectors store
    [datetime.isoformat()], kept here as the instant it prints, in
    microseconds. *)
Inductive timestamp_value : Type :=
  | TsInstant (micros : Z)
  | TsText (s : str).

Record message_data : Type := mk_message_data {
  author : str;
  message : str;
  timestamp : timestamp_value;
  author_channel_id : str;
  is_moderator : bool;
  is_owner : bool;
  is_verified : bool;
  message_type : str
}.

(** [pd.Timedelta(minutes=k)] in microseconds *)
Definition Timedelta_minutes (k : Z) : Z := k * 60000000.

(** ** Source C: manual text input *)

Module Manual.
Section Manual.

(** [now i]: what [datetime.now()] returns while line [i] is processed. *)
Variable now : nat -> Z.
(** Python's [hash] on strings (salted per process). *)
Variable hash : str -> Z.

(** The stamp of line [i] among [n_lines] lines:
    [datetime.now() - pd.Timedelta(minutes=len(lines)-i)]. *)
Definition stamp (n_lines i : nat) : Z :=
  now i - Timedelta_minutes (Z.of_nat n_lines - Z.of_nat i).

(** The body of the [for i, line in enumerate(lines)] loop: the record
    appended for line [i], if any. *)
Definition process_line (n_lines i : nat) (line : str) : option message_data :=
  let '(author, message) :=
    if contains colon line then
      (* [parts = line.split(':', 1)]: two parts, as the line has a colon *)
      match split1 colon line with
      | (p0, Some p1) => (strip p0, strip p1)
      | (p0, None) => (strip p0, [])
      end
    else (lit "User" ++ str_of_nat (i + 1), strip line) in
  if truthy message then
    Some {| author := author;
            message := message;
            timestamp := TsInstant (stamp n_lines i);
            author_channel_id :=
              lit "UC" ++ str_of_nat (Z.to_nat (hash author mod 1000000));
            is_moderator := false;
            is_owner := false;
            is_verified := false;
            message_type := lit "textMessageEvent" |}
  else None.

Fixpoint process_lines (n_lines i : nat) (lines : list str) : list message_data :=
  match lines with
  | [] => []
  | line :: rest =>
      match process_line n_lines i line with
      | Some m => m :: process_lines n_lines (S i) rest
      | None => process_lines n_lines (S i) rest
      end
  end.

(** [collect_chat_manual_input], given what the form returned. *)
Definition collect_chat_manual_input (submitted : bool) (chat_input : str)
  : list message_data :=
  if submitted && truthy chat_input then
    let lines := split newline (strip chat_input) in
    process_lines (List.length lines) 0 lines
  else [].

End Manual.
End Manual.

(** ** Source B: simulated chat *)

Module Simulated.

Definition sample_users : list str := map lit
  [ "StreamFan123"; "ChatMaster"; "LiveViewer"; "YouTubeUser"; "VideoLover";
    "ChatBot2024"; "StreamWatcher"; "CommentKing"; "ViewerPro"; "ChatExpert" ]%string.

Definition sample_messages : list str := map lit
  [ "Great stream!"; "Love this content!"; "When will the next stream be?";
    "Amazing work!"; "Can you explain that again?"; "First time watching!";
    "This is so helpful"; "What software do you use?";
    "How long have you been streaming?";
    "Can you show that part again?"; "Love the energy!"; "New subscriber here!";
    "What's your favorite tool?"; "This is exactly what I needed";
    "When did you start?"; "Do you have a tutorial for this?";
    "Can you go slower?"; "This is confusing"; "Great explanation!";
    "What's next?"; "How do I get started?"; "Thanks for sharing!";
    "This is incredible"; "Mind blown!"; "So cool!"; "Awesome content";
    "Keep it up!"; "You're the best!"; "Learning so much"; "Great teacher" ]%string.

Section Simulated.

(** The raw draws of the [random] module, in the order they are taken. *)
Variable stream : nat -> N.
(** [datetime.now()] read once before the loop. *)
Variable base_time : Z.

(** A computation that consumes draws: from the index of the next draw
    to a value and the index after it. *)
Definition rng (A : Type) : Type := nat -> A * nat.

Definition ret {A} (a : A) : rng A := fun k => (a, k).
Definition bind {A B} (c : rng A) (f : A -> rng B) : rng B :=
  fun k => let (a, k') := c k in f a k'.

Notation "x <- c ;; f" := (bind c (fun x => f))
  (at level 61, c at next level, right associativity).

(** [random.choice(xs)] on a non-empty list ([d] is never returned then) *)
Definition choice {A} (d : A) (xs : list A) : rng A :=
  fun k => (nth (N.to_nat (stream k) mod List.length xs) xs d, S k).

(** [random.randint(a, b)], both ends included *)
Definition randint (a b : Z) : rng Z :=
  fun k => (a + Z.of_N (stream k) mod (b - a + 1), S k).

(** [random.random()]: the float [n / 2^53], given by [n] *)
Definition random : rng N :=
  fun k => ((stream k) mod (2 ^ 53), S k)%N.

(** [x < 0.1] and [x < 0.05] for [x = n / 2^53]: the doubles 0.1 and
    0.05 are 3602879701896397 / 2^55 and 3602879701896397 / 2^56. *)
Definition lt_0_1 (n : N) : bool := (4 * n <? 3602879701896397)%N.
Definition lt_0_05 (n : N) : bool := (8 * n <? 3602879701896397)%N.

(** One turn of the loop: the dictionary literal, keys in order. *)
Definition simulate_one : rng message_data :=
  a <- choice [] sample_users ;;
  m <- choice [] sample_messages ;;
  minutes <- randint 1 30 ;;
  cid <- randint 100000 999999 ;;
  r1 <- random ;;
  moderator <- (if lt_0_1 r1 then choice false [true; false] else ret false) ;;
  r2 <- random ;;
  verified <- (if lt_0_05 r2 then choice false [true; false] else ret false) ;;
  ret {| author := a;
         message := m;
         timestamp := TsInstant (base_time - Timedelta_minutes minutes);
         author_channel_id := lit "UC" ++ str_of_nat (Z.to_nat cid);
         is_moderator := moderator;
         is_owner := false;
         is_verified := verified;
         message_type := lit "textMessageEvent" |}.

(** [for i in range(n)] *)
Fixpoint simulate_loop (n : nat) : rng (list message_data) :=
  match n with
  | O => ret []
  | S n' => m <- simulate_one ;; ms <- simulate_loop n' ;; ret (m :: ms)
  end.

(** [range] of a negative number is empty, as [Z.to_nat] is zero. *)
Definition simulate_chat_data (num_messages : Z) : list message_data :=
  fst (simulate_loop (Z.to_nat num_messages) 0%nat).

End Simulated.
End Simulated.

(** ** Source A: the YouTube Data API *)

Module Api.

(** The JSON of the two endpoints; a key that may be missing is an
    [option]. *)
Record snippet : Type := mk_snippet {
  displayMessage : option str;
  publishedAt : option str;
  type_ : option str
}.

Record authorDetails : Type := mk_authorDetails {
  displayName : option str;
  channelId : option str;
  isChatModerator : option bool;
  isChatOwner : option bool;
  isVerified : option bool
}.

Record item : Type := mk_item {
  item_snippet : option snippet;
  item_authorDetails : option authorDetails
}.

Record page : Type := mk_page {
  items : option (list item);
  nextPageToken : option str
}.

Record live_details : Type := mk_live_details {
  activeLiveChatId : option str
}.

Record video : Type := mk_video {
  liveStreamingDetails : option live_details
}.

Record videos : Type := mk_videos {
  video_items : option (list video)
}.

Record videos_params : Type := mk_videos_params {
  v_part : str;
  v_id : str;
  v_key : str
}.

Record page_params : Type := mk_page_params {
  liveChatId : str;
  part : str;
  key : str;
  maxResults : Z;
  pageToken : option str
}.

(** What the collector does to the outside, in order. *)
Inductive event : Type :=
  | GetVideos (p : videos_params)
  | GetMessages (p : page_params)
  | Sleep (seconds : Z)
  | StError (text : str).

(** [d.get(k, default)] *)
Definition get {A} (field : option A) (default : A) : A :=
  match field with Some a => a | None => default end.

(** [bool(token)] for a token that may be [None] *)
Definition truthy_opt (t : option str) : bool :=
  match t with Some s => truthy s | None => false end.

Section Collector.

(** The remote service: any state machine answering the two requests. *)
Variable server : Type.
Variable videos_list : server -> videos_params -> response videos * server.
Variable messages_list : server -> page_params -> response page * server.

(** [self.youtube_api_key], from the environment. *)
Variable youtube_api_key : option str.

Record world : Type := mk_world {
  remote : server;
  trace : list event
}.

Definition emit (e : event) (w : world) : world :=
  {| remote := remote w; trace := trace w ++ [e] |}.

(** A call that ran on fuel: it returned, or the loop was still
    turning when the fuel ran out (what it held then is kept). *)
Inductive run (A : Type) : Type :=
  | Returned (a : A) (w : world)
  | Running (a : A) (w : world).
Arguments Returned {A} a w.
Arguments Running {A} a w.

Definition value {A} (r : run A) : A :=
  match r with Returned a _ | Running a _ => a end.

Definition final {A} (r : run A) : world :=
  match r with Returned _ w | Running _ w => w end.

Definition returned {A} (r : run A) : bool :=
  match r with Returned _ _ => true | Running _ _ => false end.

(** [get_live_chat_id] *)
Definition get_live_chat_id (w : world) (video_id : str) : option str * world :=
  match youtube_api_key with
  | None => (None, w)
  | Some api_key =>
      if truthy api_key then
        let params := {| v_part := lit "liveStreamingDetails";
                         v_id := video_id;
                         v_key := api_key |} in
        let (resp, srv) := videos_list (remote w) params in
        let w1 := emit (GetVideos params) {| remote := srv; trace := trace w |} in
        match resp with
        | Raises e =>
            (None, emit (StError (lit "Error getting live chat ID: " ++ exn_str e)) w1)
        | Ok data =>
            match video_items data with
            | Some (v :: _) =>
                (activeLiveChatId (get (liveStreamingDetails v) (mk_live_details None)), w1)
            | _ => (None, w1)
            end
        end
      else (None, w)
  end.

(** The dictionary built from one item; [item['snippet']] and
    [item['authorDetails']] raise [KeyError] on a missing key. *)
Definition message_of_item (it : item) : response message_data :=
  match item_snippet it with
  | None => Raises (KeyError "snippet")
  | Some snippet =>
      match item_authorDetails it with
      | None => Raises (KeyError "authorDetails")
      | Some details =>
          Ok {| author := get (displayName details) (lit "Unknown");
                message := get (displayMessage snippet) [];
                timestamp := TsText (get (publishedAt snippet) []);
                author_channel_id := get (channelId details) [];
                is_moderator := get (isChatModerator details) false;
                is_owner := get (isChatOwner details) false;
                is_verified := get (isVerified details) false;
                message_type := get (type_ snippet) (lit "textMessageEvent") |}
      end
  end.

(** [for item in data['items']: ... messages.append(message_data)]:
    the list after the loop and the exception that cut it short. *)
Fixpoint append_items (its : list item) (messages : list message_data)
  : list message_data * option exn :=
  match its with
  | [] => (messages, None)
  | it :: rest =>
      match message_of_item it with
      | Raises e => (messages, Some e)
      | Ok message_data => append_items rest (messages ++ [message_data])
      end
  end.

(** How the [while] loop inside the [try] ends. *)
Inductive loop_end : Type :=
  | Left_loop
  | Raised (e : exn)
  | Out_of_fuel.

Section Loop.

Variable api_key : str.
Variable chat_id : str.
Variable max_messages : Z.

(** [while len(messages) < max_messages:] *)
Fixpoint page_loop (fuel : nat) (w : world) (messages : list message_data)
    (next_page_token : option str) : loop_end * list message_data * world :=
  if Z.of_nat (List.length messages) <? max_messages then
    match fuel with
    | O => (Out_of_fuel, messages, w)
    | S fuel' =>
        let params :=
          {| liveChatId := chat_id;
             part := lit "snippet,authorDetails";
             key := api_key;
             maxResults := Z.min 200 (max_messages - Z.of_nat (List.length messages));
             pageToken := if truthy_opt next_page_token
                          then next_page_token else None |} in
        let (resp, srv) := messages_list (remote w) params in
        let w1 := emit (GetMessages params) {| remote := srv; trace := trace w |} in
        match resp with
        | Raises e => (Raised e, messages, w1)
        | Ok data =>
            match items data with
            | None => (Left_loop, messages, w1)
            | Some its =>
                match append_items its messages with
                | (messages', Some e) => (Raised e, messages', w1)
                | (messages', None) =>
                    if truthy_opt (nextPageToken data)
                    then page_loop fuel' (emit (Sleep 1) w1) messages'
                                   (nextPageToken data)
                    else (Left_loop, messages', w1)
                end
            end
        end
    end
  else (Left_loop, messages, w).

End Loop.

(** [collect_chat_with_api] *)
Definition collect_chat_with_api (fuel : nat) (w : world) (video_id : str)
    (max_messages : Z) : run (list message_data) :=
  match youtube_api_key with
  | None =>
      Returned [] (emit (StError (lit "YouTube API key required for this method. Please add YOUTUBE_API_KEY to your .env file")) w)
  | Some api_key =>
      if truthy api_key then
        let (chat, w1) := get_live_chat_id w video_id in
        if truthy_opt chat then
          match page_loop api_key (get chat []) max_messages fuel w1 [] None with
          | (Left_loop, messages, w2) => Returned messages w2
          | (Raised e, messages, w2) =>
              Returned messages
                (emit (StError (lit "Error collecting chat: " ++ exn_str e)) w2)
          | (Out_of_fuel, messages, w2) => Running messages w2
          end
        else
          Returned [] (emit (StError (lit "Could not get live chat ID. Stream may not be live or chat may be disabled.")) w1)
      else
        Returned [] (emit (StError (lit "YouTube API key required for this method. Please add YOUTUBE_API_KEY to your .env file")) w)
  end.

(** The page requests of a trace, in order. *)
Definition page_requests (w : world) : list page_params :=
  flat_map (fun e => match e with GetMessages p => [p] | _ => [] end) (trace w).

Definition st_errors (w : world) : list str :=
  flat_map (fun e => match e with StError t => [t] | _ => [] end) (trace w).

(** What the statements read off a call: whether it returned, how many
    records, the [maxResults] of its page requests and the errors it
    showed. *)
Definition summary (r : run (list message_data)) : bool * nat * list Z * list str :=
  (returned r, List.length (value r), map maxResults (page_requests (final r)),
   st_errors (final r)).

End Collector.

Arguments summary {server} r.
Arguments Returned {server A} a w.
Arguments Running {server A} a w.
Arguments value {server A} r.
Arguments final {server A} r.
Arguments returned {server A} r.
Arguments mk_world {server} remote trace.
Arguments remote {server} w.
Arguments trace {server} w.
Arguments page_requests {server} w.
Arguments st_errors {server} w.

End Api.

(** ** Statistics aggregator *)

Module Stats.

(** The values of the statistics dictionary. *)
Inductive value : Type :=
  | VInt (n : Z)
  | VFloat (q : Q)
  | VCounts (d : list (str * nat)).

(** A Python [dict] with literal keys, in insertion order. *)
Definition dict : Type := list (string * value).

(** [d.get(k)] *)
Fixpoint lookup (k : string) (d : dict) : option value :=
  match d with
  | [] => None
  | (k', v) :: d' => if String.eqb k k' then Some v else lookup k d'
  end.

(** *** The pandas operations used, on a column of strings *)

(** The distinct values of a column, in order of first appearance. *)
Fixpoint unique (col : list str) : list str :=
  match col with
  | [] => []
  | a :: rest => a :: filter (fun b => negb (str_eqb a b)) (unique rest)
  end.

(** [col.nunique()] *)
Definition nunique (col : list str) : nat := List.length (unique col).

(** The tally of a column: each distinct value with the number of its
    occurrences, in the order of first appearance in which pandas' hash
    table hands them to the sort. Only the statements that assume
    [keeps_ties] of the sort depend on this order. *)
Definition tally (col : list str) : list (str * nat) :=
  map (fun a => (a, count_occ str_eq_dec col a)) (unique col).

(** [s.head(n)] *)
Definition head {A} (n : nat) (l : list A) : list A := firstn n l.

(** [col.sum()] on a column of booleans *)
Definition sum_bool (col : list bool) : Z :=
  Z.of_nat (List.length (filter (fun b => b) col)).

(** [col.str.len().mean()] on a non-empty column; rounding to a double
    is left out. *)
Definition str_len_mean (col : list str) : Q :=
  Qmake (Z.of_nat (list_sum (map (@List.length char) col)))
        (Pos.of_nat (List.length col)).

Section Pandas.

(** The sort inside [value_counts]: [sort_values(ascending=False)] with
    the default sorting method of pandas. pandas documents that the
    result is in descending order of the counts; its default method is
    not a stable one, so nothing in the source fixes the order among
    equal counts. The sort is therefore a parameter of the aggregator,
    and what a statement assumes of it ([descending_sort], [keeps_ties])
    is a hypothesis of that statement. *)
Variable sort_values : list (str * nat) -> list (str * nat).

(** [col.value_counts()]: the tally, most frequent first. *)
Definition value_counts (col : list str) : list (str * nat) :=
  sort_values (tally col).

(** [df['author'].value_counts().head(10).to_dict()] *)
Definition top_chatters (messages : list message_data) : list (str * nat) :=
  head 10 (value_counts (map author messages)).

(** [generate_chat_statistics] *)
Definition generate_chat_statistics (messages : list message_data) : dict :=
  match messages with
  | [] => []
  | _ :: _ =>
      let n := List.length messages in
      let users := nunique (map author messages) in
      [ ("total_messages", VInt (Z.of_nat n));
        ("unique_users", VInt (Z.of_nat users));
        ("messages_per_user",
           if (0 <? users)%nat
           then VFloat (Qmake (Z.of_nat n) (Pos.of_nat users))
           else VInt 0);
        ("moderator_messages", VInt (sum_bool (map is_moderator messages)));
        ("owner_messages", VInt (sum_bool (map is_owner messages)));
        ("verified_messages", VInt (sum_bool (map is_verified messages)));
        ("top_chatters", VCounts (top_chatters messages));
        ("message_length_avg",
           if (0 <? n)%nat
           then VFloat (str_len_mean (map message messages))
           else VInt 0) ]%string
  end.

End Pandas.

(** What pandas documents of the sort: the same entries, the most
    frequent first. *)
Definition descending (p q : str * nat) : Prop := (snd q <= snd p)%nat.

Definition descending_sort (sort : list (str * nat) -> list (str * nat)) : Prop :=
  forall l, Permutation (sort l) l /\ StronglySorted descending (sort l).

(** *** What the specification asks for, in its own words *)

(** The identity of a record's author: its [authorId], or its display
    name when the [authorId] is absent. *)
Definition spec_author_key (m : message_data) : str :=
  if truthy (author_channel_id m) then author_channel_id m else author m.

(** [uniqueAuthors] as specified: the number of distinct identities. *)
Definition spec_uniqueAuthors (messages : list message_data) : Z :=
  Z.of_nat (List.length (unique (map spec_author_key messages))).

(** The summary the specification gives for the empty sequence, under
    the keys of the source. *)
Definition spec_empty_summary (d : dict) : Prop :=
  lookup "total_messages" d = Some (VInt 0) /\
  lookup "unique_users" d = Some (VInt 0) /\
  lookup "messages_per_user" d = Some (VInt 0) /\
  lookup "message_length_avg" d = Some (VInt 0) /\
  lookup "top_chatters" d = Some (VCounts []).

(** The position of the first occurrence of [a] in [col]. *)
Fixpoint first_index (a : str) (col : list str) : nat :=
  match col with
  | [] => O
  | b :: rest => if str_eqb a b then O else S (first_index a rest)
  end.

(** [p] stands above [q]: a higher count, or the same count and [p]
    before [q]. *)
Definition above (before : str * nat -> str * nat -> Prop) (p q : str * nat) : Prop :=
  (snd q < snd p)%nat \/ (snd p = snd q /\ before p q).

(** [p] ranks above [q]: a higher count, or the same count and an
    earlier first appearance in [col]. *)
Definition ranks_above (col : list str) : str * nat -> str * nat -> Prop :=
  above (fun p q => (first_index (fst p) col < first_index (fst q) col)%nat).

(** A sort that leaves equal counts in the order they had: whatever
    order [before] the entries come in, the result is by descending
    count and, among equal counts, by [before]. *)
Definition keeps_ties (sort : list (str * nat) -> list (str * nat)) : Prop :=
  forall (before : str * nat -> str * nat -> Prop) (l : list (str * nat)),
    StronglySorted before l -> StronglySorted (above before) (sort l).

End Stats.

(** ** Insight generator *)

Module Insight.

(** The arguments of [claude_client.messages.create]. *)
Record create_params : Type := mk_create_params {
  model : str;
  max_tokens : Z;
  temperature : Q;
  system : str;
  user_content : str
}.

(** A block of [response.content]: a text block has [.text]; on any
    other block the attribute access raises. *)
Inductive content_block : Type :=
  | TextBlock (text : str)
  | OtherBlock (attribute_error : exn).

Record completion : Type := mk_completion {
  content : list content_block
}.

Definition IndexError : exn := mk_exn (lit "list index out of range").

(** [messages[-n:]] *)
Definition last_n {A} (n : nat) (l : list A) : list A :=
  skipn (List.length l - n) l.

(** The transcript put in the prompt. *)
Definition chat_text (messages : list message_data) : str :=
  join [newline]
    (map (fun msg => author msg ++ lit ": " ++ message msg) (last_n 300 messages)).

(** The [prompts] dictionary, keys in order. *)
Definition prompts (chat_text : str) : list (str * str) :=
  [ (lit "comprehensive",
     lit "
            Please analyze this YouTube live chat data and provide comprehensive insights:

            **Analysis Required:**
            1. **Key Themes & Topics**: What are the main subjects being discussed?
            2. **Most Frequent Questions**: What questions do viewers ask most often?
            3. **Sentiment & Mood**: What's the overall emotional tone and audience engagement level?
            4. **Notable Moments**: Any significant reactions, trending topics, or viral moments?
            5. **Community Engagement**: How is the audience interacting? Are there power users, moderators active?
            6. **Content Feedback**: What do viewers think about the content being streamed?

            **Chat Messages:**
            " ++ chat_text ++ lit "

            Please provide detailed insights with specific examples from the chat where relevant.
            ");
    (lit "questions",
     lit "
            Please extract and analyze all the questions asked by viewers in this YouTube live chat.

            **Tasks:**
            1. **Identify Questions**: Find all direct and indirect questions
            2. **Categorize by Topic**: Group similar questions together
            3. **Frequency Analysis**: Which questions or question types appear most often?
            4. **Answer Status**: Which questions seem answered vs unanswered?
            5. **Question Quality**: Are questions technical, casual, or seeking clarification?

            **Chat Messages:**
            " ++ chat_text ++ lit "

            Format your response with clear categories and specific examples.
            ");
    (lit "sentiment",
     lit "
            Please analyze the emotional tone and sentiment of this YouTube live chat.

            **Analysis Focus:**
            1. **Overall Sentiment**: Positive, negative, or neutral tone?
            2. **Emotional Patterns**: Excitement, frustration, confusion, appreciation?
            3. **Engagement Level**: How actively engaged is the audience?
            4. **Community Vibe**: Supportive, critical, or mixed?
            5. **Mood Changes**: Any shifts in sentiment during the chat?
            6. **Standout Reactions**: Notable emotional responses or reactions?

            **Chat Messages:**
            " ++ chat_text ++ lit "

            Provide specific examples and explain the reasoning behind your sentiment analysis.
            ");
    (lit "themes",
     lit "
            Please identify and analyze the main themes and topics discussed in this YouTube live chat.

            **Analysis Goals:**
            1. **Primary Themes**: What are the 3-5 most discussed topics?
            2. **Trending Topics**: What subjects gained momentum during the chat?
            3. **Recurring Discussions**: What topics keep coming up repeatedly?
            4. **Topic Evolution**: How do conversations shift and develop?
            5. **Audience Interests**: What does the chat reveal about viewer preferences?
            6. **Content Alignment**: How well do chat topics align with the stream content?

            **Chat Messages:**
            " ++ chat_text ++ lit "

            Organize your response by theme and provide supporting evidence from the chat.
            ") ].

(** The keyword arguments of the one [create] call of the source. *)
Definition request (prompt : str) : create_params :=
  {| model := lit "claude-sonnet-4-20250514";
     max_tokens := 1024;
     temperature := Qmake 3 10;
     system := lit "You are an expert social media analyst specializing in live chat analysis. You provide detailed, insightful, and actionable analysis of online community interactions. Your analysis is always backed by specific examples and evidence from the data.";
     user_content := prompt |}.

(** The four tags of the mode selector. *)
Definition analysis_types : list str :=
  map lit ["comprehensive"; "questions"; "sentiment"; "themes"]%string.

Section Insight.

(** The completion service: any state machine answering [create]. *)
Variable client : Type.
Variable create : client -> create_params -> response completion * client.
(** Python's [repr] on strings, which [str(KeyError(k))] prints. *)
Variable repr : str -> str.

(** The service and the requests sent to it so far, in order. *)
Record world : Type := mk_world {
  remote : client;
  sent : list create_params
}.

(** Code that reads and changes the world and may raise. *)
Definition M (A : Type) : Type := world -> response A * world.

Definition ret {A} (a : A) : M A := fun w => (Ok a, w).
Definition raise {A} (e : exn) : M A := fun w => (Raises e, w).
Definition bind {A B} (c : M A) (f : A -> M B) : M B :=
  fun w => match c w with
           | (Ok a, w') => f a w'
           | (Raises e, w') => (Raises e, w')
           end.
(** [try: body  except Exception as e: handler(e)] *)
Definition try_except {A} (body : M A) (handler : exn -> M A) : M A :=
  fun w => match body w with
           | (Ok a, w') => (Ok a, w')
           | (Raises e, w') => handler e w'
           end.

Notation "x <- c ;; f" := (bind c (fun x => f))
  (at level 61, c at next level, right associativity).

(** [d[k]]: [KeyError] on a missing key. *)
Fixpoint subscript (d : list (str * str)) (k : str) : M str :=
  match d with
  | [] => raise (mk_exn (repr k))
  | (k', v) :: d' => if str_eqb k k' then ret v else subscript d' k
  end.

(** [claude_client.messages.create(...)] *)
Definition messages_create (p : create_params) : M completion :=
  fun w => let (r, c) := create (remote w) p in
           (r, {| remote := c; sent := sent w ++ [p] |}).

(** [response.content[0].text] *)
Definition first_text (r : completion) : M str :=
  match content r with
  | [] => raise IndexError
  | TextBlock text :: _ => ret text
  | OtherBlock e :: _ => raise e
  end.

(** [analyze_with_claude] *)
Definition analyze_with_claude (messages : list message_data) (analysis_type : str)
  : M str :=
  match messages with
  | [] => ret (lit "No messages to analyze")
  | _ :: _ =>
      let prompts := prompts (chat_text messages) in
      try_except
        (prompt <- subscript prompts analysis_type ;;
         response <- messages_create (request prompt) ;;
         first_text response)
        (fun e => ret (lit "Error analyzing chat with Claude: " ++ exn_str e))
  end.

End Insight.

Arguments mk_world {client} remote sent.
Arguments remote {client} w.
Arguments sent {client} w.

End Insight.

(** ** Timestamps as the specification words them *)

(** The instants of a sequence of records, in order. *)
Definition instants (ms : list message_data) : list Z :=
  flat_map (fun m => match timestamp m with TsInstant t => [t] | TsText _ => [] end) ms.

(** Each element is [d] after the one before it. *)
Fixpoint spaced_by (d : Z) (ts : list Z) : Prop :=
  match ts with
  | a :: (b :: _) as rest => b = a + d /\ spaced_by d rest
  | _ => True
  end.

(** Manual timestamps as specified: one minute apart and ending at
    [t_now]. *)
Definition spec_manual_timestamps (t_now : Z) (ms : list message_data) : Prop :=
  spaced_by (Timedelta_minutes 1) (instants ms) /\
  last (instants ms) t_now = t_now.

(** The pairs (author, text) of a sequence of records. *)
Definition author_and_text (ms : list message_data) : list (str * str) :=
  map (fun m => (author m, message m)) ms.

(** ** Trimming as the specification words it *)

(** A text of white space only (the empty text is one). *)
Definition blank (s : str) : Prop := Forall (fun c => isspace c = true) s.

(** A text whose first and last characters, if any, are not white
    space. *)
Definition no_space_at_ends (t : str) : Prop :=
  (forall c rest, t = c :: rest -> isspace c = false) /\
  (forall front c, t = front ++ [c] -> isspace c = false).

(** [t] is [s] trimmed: [s] without the white space at its two ends. *)
Definition trim_of (s t : str) : Prop :=
  exists front back,
    s = front ++ t ++ back /\ blank front /\ blank back /\ no_space_at_ends t.

(** The indices of the lines that give a record. *)
Definition kept_lines (now : nat -> Z) (hash : str -> Z) (lines : list str) : list nat :=
  filter (fun i => match Manual.process_line now hash (List.length lines) i (nth i lines []) with
                   | Some _ => true
                   | None => false
                   end)
         (seq 0 (List.length lines)).

(** ** Servers used in the statements *)

Module Mock.
Import Api.

(** A server that never sends more items than [maxResults] asks for. *)
Definition honours_maxResults {server : Type}
    (messages_list : server -> page_params -> response page * server) : Prop :=
  forall s p data s' its,
    0 < maxResults p ->
    messages_list s p = (Ok data, s') ->
    items data = Some its ->
    Z.of_nat (List.length its) <= maxResults p.

(** A page that announces a next page is not empty. *)
Definition makes_progress {server : Type}
    (messages_list : server -> page_params -> response page * server) : Prop :=
  forall s p data s' its,
    0 < maxResults p ->
    messages_list s p = (Ok data, s') ->
    items data = Some its ->
    truthy_opt (nextPageToken data) = true ->
    its <> [].

(** The [n]-th chat message of the mocked stream. *)
Definition mock_item (n : nat) : item :=
  {| item_snippet :=
       Some {| displayMessage := Some (lit "message " ++ str_of_nat n);
               publishedAt := Some (lit "2024-01-01T00:00:00Z");
               type_ := Some (lit "textMessageEvent") |};
     item_authorDetails :=
       Some {| displayName := Some (lit "viewer" ++ str_of_nat (n mod 7));
               channelId := Some (lit "UC" ++ str_of_nat (n mod 7));
               isChatModerator := Some false;
               isChatOwner := Some false;
               isVerified := Some false |} |}.

(** The video lookup of the mocks: the stream is live. The state of a
    mock is the number of pages it has served. *)
Definition live_video (served : nat) (_ : videos_params) : response videos * nat :=
  (Ok {| video_items :=
           Some [ {| liveStreamingDetails :=
                       Some {| activeLiveChatId := Some (lit "chat") |} |} ] |},
   served).

(** [pages] pages of 200 items each, whatever is asked; all but the
    last carry a continuation token. *)
Definition full_pages (pages : nat) (served : nat) (_ : page_params)
  : response page * nat :=
  (Ok {| items := Some (map mock_item (seq (served * 200) 200));
         nextPageToken := if (S served <? pages)%nat
                          then Some (lit "next") else None |},
   S served).

(** The same stream served by a source that never sends more than
    [maxResults] items. *)
Definition capped_pages (pages : nat) (served : nat) (p : page_params)
  : response page * nat :=
  (Ok {| items := Some (map mock_item
                          (seq (served * 200) (Z.to_nat (Z.min 200 (maxResults p)))));
         nextPageToken := if (S served <? pages)%nat
                          then Some (lit "next") else None |},
   S served).

(** An event without text: one item whose snippet has no
    [displayMessage], and no further page. *)
Definition gift_event : item :=
  {| item_snippet :=
       Some {| displayMessage := None;
               publishedAt := Some (lit "2024-01-01T00:00:00Z");
               type_ := Some (lit "newSponsorEvent") |};
     item_authorDetails :=
       Some {| displayName := Some (lit "viewer");
               channelId := Some (lit "UC1");
               isChatModerator := None;
               isChatOwner := None;
               isVerified := None |} |}.

Definition one_gift (served : nat) (_ : page_params) : response page * nat :=
  (Ok {| items := Some [gift_event]; nextPageToken := None |}, S served).

Definition api_key : option str := Some (lit "key").
Definition start : world nat := mk_world 0%nat [].

(** A clock that stands still and a hash, for the concrete runs. *)
Definition still (_ : nat) : Z := 1700000000000000.
Definition hash0 (_ : str) : Z := 424242.

(** A clock that is set back by an hour after its first reading, as a
    wall clock is at the end of summer time. *)
Definition set_back (i : nat) : Z :=
  match i with
  | O => 1700000000000000
  | S _ => 1700000000000000 - 3600000000
  end.

(** The inputs of the manual form used in the statements. *)
Definition tab : char := 9%N.

(** White space around the parts, an empty line, a line with a blank
    text, a line without a colon and a line with two colons. *)
Definition untidy_lines : str :=
  lit "  Alice :  hello " ++ [tab; newline] ++ [newline]
  ++ lit "Bob:   " ++ [newline] ++ lit " plain  " ++ [newline]
  ++ lit "Carol: re: hi" ++ [newline].

Definition three_lines : str :=
  lit "Alice: hello" ++ [newline] ++ lit "Bob: hi there" ++ [newline]
  ++ lit "noColonLine".

Definition two_lines : str := lit "first" ++ [newline] ++ lit "second".

Definition blank_between : str :=
  lit "first" ++ [newline] ++ [newline] ++ lit "third".

(** The chat of three authors with 5, 5 and 3 messages, [first]
    writing before [second]. *)
Definition five_five_three (first second third : string) : list string :=
  [first; second; third; first; second; third; first; second; third;
   first; second; first; second].

(** Two sorts that do what pandas documents of the sort inside
    [value_counts] (see [Stats.descending_sort]), for the concrete
    runs. The first leaves equal counts in the order they had: an entry
    is put before the first one whose count is not higher. *)
Fixpoint insert_desc (x : str * nat) (l : list (str * nat)) : list (str * nat) :=
  match l with
  | [] => [x]
  | y :: l' => if (snd x <? snd y)%nat then y :: insert_desc x l' else x :: l
  end.

Definition stable_desc (l : list (str * nat)) : list (str * nat) :=
  fold_right insert_desc [] l.

(** The second turns the order of equal counts around: an entry is put
    before the first one whose count is lower. *)
Fixpoint insert_behind (x : str * nat) (l : list (str * nat)) : list (str * nat) :=
  match l with
  | [] => [x]
  | y :: l' => if (snd x <=? snd y)%nat then y :: insert_behind x l' else x :: l
  end.

Definition reversing_desc (l : list (str * nat)) : list (str * nat) :=
  fold_right insert_behind [] l.

(** A completion service that is down, and a [repr] for plain text. *)
Definition service_down (c : unit) (_ : Insight.create_params)
  : response Insight.completion * unit :=
  (Raises (mk_exn (lit "Connection error.")), c).

Definition quoted (s : str) : str := lit "'" ++ s ++ lit "'".

(** A record of the given author and channel. *)
Definition record (name id : string) : message_data :=
  {| author := lit name; message := lit "hi";
     timestamp := TsText (lit "2024-01-01T00:00:00Z");
     author_channel_id := lit id;
     is_moderator := false; is_owner := false; is_verified := false;
     message_type := lit "textMessageEvent" |}.

Definition chat_of (authors : list string) : list message_data :=
  map (fun a => record a "UC1") authors.

End Mock.

(** ** Video id extraction *)

Module Url.

(** The characters the group [[^&\n?#]] leaves out. *)
Definition ampersand : char := 38%N.
Definition question : char := 63%N.
Definition hash_sign : char := 35%N.

Definition terminator (c : char) : bool :=
  ((c =? ampersand) || (c =? newline) || (c =? question) || (c =? hash_sign))%N.

(** [s] without the literal [p] in front of it, when it starts with it. *)
Fixpoint after_prefix (p s : str) : option str :=
  match p with
  | [] => Some s
  | a :: p' =>
      match s with
      | [] => None
      | c :: s' => if (a =? c)%N then after_prefix p' s' else None
      end
  end.

(** The greedy group [([^&\n?#]+)], which nothing follows: the longest
    run of allowed characters at the front of [s]. *)
Fixpoint id_run (s : str) : str :=
  match s with
  | [] => []
  | c :: s' => if terminator c then [] else c :: id_run s'
  end.

(** A match of [(?:a1|a2|...)([^&\n?#]+)] that starts at the front of
    [s]: the alternatives are tried in order, and one whose group would
    be empty fails. The value is group 1. *)
Fixpoint match_here (alternatives : list str) (s : str) : option str :=
  match alternatives with
  | [] => None
  | a :: rest =>
      match after_prefix a s with
      | Some t =>
          match id_run t with
          | [] => match_here rest s
          | c :: run => Some (c :: run)
          end
      | None => match_here rest s
      end
  end.

(** [re.search]: the match at the leftmost position that has one. *)
Fixpoint re_search (alternatives : list str) (s : str) : option str :=
  match match_here alternatives s with
  | Some id => Some id
  | None =>
      match s with
      | [] => None
      | _ :: s' => re_search alternatives s'
      end
  end.

(** The literal parts of the two patterns. *)
Definition watch_markers : list str :=
  [lit "youtube.com/watch?v="; lit "youtu.be/"; lit "youtube.com/embed/"].

Definition live_markers : list str := [lit "youtube.com/live/"].

Definition patterns : list (list str) := [watch_markers; live_markers].

(** [for pattern in patterns: ... return match.group(1)], then [None]. *)
Fixpoint first_match (patterns : list (list str)) (url : str) : option str :=
  match patterns with
  | [] => None
  | pattern :: rest =>
      match re_search pattern url with
      | Some id => Some id
      | None => first_match rest url
      end
  end.

(** [extract_video_id] *)
Definition extract_video_id (url : str) : option str := first_match patterns url.

(** The letter every marker starts with. *)
Definition letter_y : char := 121%N.

(** Two literals that differ at a place both have. *)
Fixpoint diverge (a m : str) : bool :=
  match a, m with
  | x :: a', y :: m' => if (x =? y)%N then diverge a' m' else true
  | _, _ => false
  end.

(** A text the group can capture whole. *)
Definition allowed (id : str) : Prop :=
  id <> [] /\ Forall (fun c => terminator c = false) id.

(** A text at which the group stops: the end, or a character it leaves
    out. *)
Definition ends_run (post : str) : Prop :=
  match post with
  | [] => True
  | c :: _ => terminator c = true
  end.

End Url.

(** ** What the API collector leaves in its trace *)

Module Trace.
Import Api.

(** The page requests among some events, in order. *)
Definition requests_in (events : list event) : list page_params :=
  flat_map (fun e => match e with GetMessages p => [p] | _ => [] end) events.

(** The events of the page loop: page requests and pauses. *)
Definition of_loop (e : event) : bool :=
  match e with
  | GetMessages _ | Sleep _ => true
  | GetVideos _ | StError _ => false
  end.

(** Page requests and pauses of one second in turn, a request first. *)
Fixpoint paced (events : list event) : Prop :=
  match events with
  | [] => True
  | GetMessages _ :: rest =>
      match rest with
      | [] => True
      | Sleep seconds :: rest' => seconds = 1 /\ paced rest'
      | _ :: _ => False
      end
  | _ :: _ => False
  end.

(** A page request as the collector builds it for the chat [chat_id]. *)
Definition well_formed (api_key chat_id : str) (p : page_params) : Prop :=
  1 <= maxResults p <= 200 /\
  liveChatId p = chat_id /\
  part p = lit "snippet,authorDetails" /\
  key p = api_key.

(** The first request carries no page token, the later ones carry one
    that is not empty. *)
Definition tokens_chained (requests : list page_params) : Prop :=
  match requests with
  | [] => True
  | p :: rest =>
      pageToken p = None /\
      Forall (fun q => truthy_opt (pageToken q) = true) rest
  end.

(** A server with chat to spare: every page asked for (of 1 to 200
    results) comes full, converts, and announces a next page. *)
Definition always_full {server : Type}
    (messages_list : server -> page_params -> response page * server) : Prop :=
  forall s p,
    0 < maxResults p <= 200 ->
    exists data s' its records,
      messages_list s p = (Ok data, s') /\
      items data = Some its /\
      Forall2 (fun it m => message_of_item it = Ok m) its records /\
      Z.of_nat (List.length its) = maxResults p /\
      truthy_opt (nextPageToken data) = true.

End Trace.

(** ** Records as the two local sources build them *)

(** A record as [simulate_chat_data] builds it around [base_time]. *)
Definition simulated_record (base_time : Z) (m : message_data) : Prop :=
  In (author m) Simulated.sample_users /\
  In (message m) Simulated.sample_messages /\
  (exists minutes, 1 <= minutes <= 30 /\
                   timestamp m = TsInstant (base_time - Timedelta_minutes minutes)) /\
  (exists n, 100000 <= n <= 999999 /\
             author_channel_id m = lit "UC" ++ str_of_nat (Z.to_nat n)) /\
  is_owner m = false /\
  message_type m = lit "textMessageEvent".

(** A record as [collect_chat_manual_input] builds it with [hash]. *)
Definition manual_record (hash : str -> Z) (m : message_data) : Prop :=
  author_channel_id m = lit "UC" ++ str_of_nat (Z.to_nat (hash (author m) mod 1000000)) /\
  0 <= hash (author m) mod 1000000 < 1000000 /\
  is_moderator m = false /\
  is_owner m = false /\
  is_verified m = false /\
  message_type m = lit "textMessageEvent".

(** A text with no white space at either end. *)
Definition trimmed (s : str) : Prop := lstrip s = s /\ lstrip (rev s) = rev s.

(** A record that the transcript line ["<author>: <text>"] gives back:
    one line, the author without a colon, both parts trimmed, the text
    not empty. *)
Definition printable (m : message_data) : Prop :=
  ~ In colon (author m) /\
  ~ In newline (author m) /\
  ~ In newline (message m) /\
  strip (author m) = author m /\
  strip (message m) = message m /\
  message m <> [].

(** ** The results page *)

Module App.
Import Insight.

(** What [analyze_messages] puts on the page, in order. *)
Inductive shown : Type :=
  | Metric (label : str) (v : Stats.value)
  | BarChart (rows : list (str * nat))
  | Markdown (text : str).

Section App.

Variable client : Type.
Variable create : client -> create_params -> response completion * client.
Variable repr : str -> str.
(** The sort inside [value_counts] (see [Stats.value_counts]). *)
Variable sort_values : list (str * nat) -> list (str * nat).

Notation "x <- c ;; f" := (bind client c (fun x => f))
  (at level 61, c at next level, right associativity).

(** [stats[k]] for a literal key: [KeyError] when the key is missing. *)
Definition stats_item (stats : Stats.dict) (k : string) : M client Stats.value :=
  match Stats.lookup k stats with
  | Some v => ret client v
  | None => raise client (KeyError k)
  end.

(** [analyze_messages] from its first line to the display of the
    analysis (the statistics, the chart of the top chatters and the
    call of [analyze_with_claude]). The timeline, the download button
    and the sample table that follow are not part of this embedding,
    nor is the formatting of the numbers. *)
Definition analyze_messages (messages : list message_data) (analysis_type : str)
  : M client (list shown) :=
  let stats := Stats.generate_chat_statistics sort_values messages in
  total <- stats_item stats "total_messages" ;;
  users <- stats_item stats "unique_users" ;;
  per_user <- stats_item stats "messages_per_user" ;;
  length_avg <- stats_item stats "message_length_avg" ;;
  top <- stats_item stats "top_chatters" ;;
  let chart := match top with
               | Stats.VCounts (row :: rows) => [BarChart (row :: rows)]
               | _ => []
               end in
  analysis <- analyze_with_claude client create repr messages analysis_type ;;
  ret client ([ Metric (lit "Total Messages") total;
                Metric (lit "Unique Users") users;
                Metric (lit "Avg Messages/User") per_user;
                Metric (lit "Avg Message Length") length_avg ]
              ++ chart ++ [Markdown analysis]).

End App.
End App.

(** ** Further servers and inputs used in the statements *)

Module Samples.
Import Api Mock.

(** An item without the key ['snippet']. *)
Definition broken_item : item :=
  {| item_snippet := None;
     item_authorDetails :=
       Some {| displayName := Some (lit "viewer");
               channelId := Some (lit "UC1");
               isChatModerator := None;
               isChatOwner := None;
               isVerified := None |} |}.

(** One page: two good items, a broken one, one more good item. *)
Definition broken_page (served : nat) (_ : page_params) : response page * nat :=
  (Ok {| items := Some [mock_item 0; mock_item 1; broken_item; mock_item 3];
         nextPageToken := Some (lit "next") |},
   S served).

(** A chat that never runs dry: pages as large as asked for (up to
    200), each with a continuation token. *)
Definition endless (served : nat) (p : page_params) : response page * nat :=
  (Ok {| items := Some (map mock_item
                          (seq (served * 200) (Z.to_nat (Z.min 200 (maxResults p)))));
         nextPageToken := Some (lit "next") |},
   S served).

(** A video lookup that fails in the transport. *)
Definition lookup_down (served : nat) (_ : videos_params) : response videos * nat :=
  (Raises (mk_exn (lit "Connection refused")), served).

(** A completion service that answers every request with one text. *)
Definition service_up (c : unit) (_ : Insight.create_params)
  : response Insight.completion * unit :=
  (Ok {| Insight.content := [Insight.TextBlock (lit "The chat is friendly.")] |}, c).

End Samples.

(** * Properties *)

Import Mock.

(** ** Strings *)

Module PyFacts.

Example strip_example : strip (lit "  hi there	 ") = lit "hi there".
Proof. reflexivity. Qed.

Example split_example :
  split newline (lit "a" ++ [newline] ++ [newline] ++ lit "b") = [lit "a"; []; lit "b"].
Proof. reflexivity. Qed.

Example split1_example :
  split1 colon (lit "Bob: see 10:30") = (lit "Bob", Some (lit " see 10:30")).
Proof. reflexivity. Qed.

Example str_of_nat_example : str_of_nat 120 = lit "120".
Proof. reflexivity. Qed.

Lemma truthy_true (s : str) : truthy s = true <-> s <> [].
Proof. destruct s; simpl; split; intros H; congruence. Qed.

Lemma truthy_false (s : str) : truthy s = false <-> s = [].
Proof. destruct s; simpl; split; intros H; congruence. Qed.

Lemma contains_In (c : char) (s : str) : contains c s = true <-> In c s.
Proof.
  unfold contains. rewrite existsb_exists. split.
  - intros (x & Hx & E). apply N.eqb_eq in E. now subst.
  - intros H. exists c. split; [assumption | apply N.eqb_refl].
Qed.

Lemma contains_not_In (c : char) (s : str) : ~ In c s -> contains c s = false.
Proof.
  intros H. destruct (contains c s) eqn:E; [| reflexivity].
  apply contains_In in E. contradiction.
Qed.

(** Splitting once cuts at the first separator. *)
Lemma split1_first (sep : char) (pre post : str) :
  ~ In sep pre -> split1 sep (pre ++ sep :: post) = (pre, Some post).
Proof.
  induction pre as [| c pre IH]; intros H; simpl.
  - now rewrite N.eqb_refl.
  - destruct (N.eqb_spec c sep) as [-> | Hne].
    + exfalso. apply H. now left.
    + rewrite IH; [reflexivity |]. intros Hin. apply H. now right.
Qed.

(** A split has one more part than the text has separators. *)
Lemma split_length (sep : char) (s : str) :
  List.length (split sep s) = S (count_occ N.eq_dec s sep).
Proof.
  induction s as [| c s IH]; simpl; [reflexivity |].
  destruct (N.eqb_spec c sep) as [-> | Hne].
  - simpl. rewrite IH. destruct (N.eq_dec sep sep); congruence.
  - destruct (N.eq_dec c sep); [congruence |].
    destruct (split sep s); simpl in *; congruence.
Qed.

Lemma count_occ_lstrip (c : char) (s : str) :
  (count_occ N.eq_dec (lstrip s) c <= count_occ N.eq_dec s c)%nat.
Proof.
  induction s as [| x s IH]; simpl; [lia |].
  destruct (isspace x).
  - destruct (N.eq_dec x c); lia.
  - reflexivity.
Qed.

Lemma count_occ_strip (c : char) (s : str) :
  (count_occ N.eq_dec (strip s) c <= count_occ N.eq_dec s c)%nat.
Proof.
  unfold strip, rstrip. rewrite count_occ_rev.
  etransitivity; [apply count_occ_lstrip |].
  rewrite count_occ_rev. apply count_occ_lstrip.
Qed.

(** Stripping a text never adds a line. *)
Lemma split_strip_length (sep : char) (s : str) :
  (List.length (split sep (strip s)) <= List.length (split sep s))%nat.
Proof.
  rewrite !split_length. pose proof (count_occ_strip sep s). lia.
Qed.

End PyFacts.

(** ** Trimming, splitting and joining *)

Module TextFacts.

Lemma lstrip_decompose (s : str) :
  exists spaces, s = spaces ++ lstrip s /\ Forall (fun c => isspace c = true) spaces.
Proof.
  induction s as [| c s (spaces & E & H)]; cbn [lstrip].
  - exists []. split; [reflexivity | constructor].
  - destruct (isspace c) eqn:Hc.
    + exists (c :: spaces). split; [cbn [app]; congruence | now constructor].
    + exists []. split; [reflexivity | constructor].
Qed.

Lemma lstrip_head (s : str) (c : char) (t : str) :
  lstrip s = c :: t -> isspace c = false.
Proof.
  induction s as [| x s IH]; cbn [lstrip]; [discriminate |].
  destruct (isspace x) eqn:Hx; [exact IH |]. now intros [= <- _].
Qed.

Lemma lstrip_fixed (s : str) :
  (forall c t, s = c :: t -> isspace c = false) -> lstrip s = s.
Proof.
  destruct s as [| c t]; [reflexivity |]. intros H. cbn [lstrip].
  now rewrite (H c t eq_refl).
Qed.

Lemma lstrip_idempotent (s : str) : lstrip (lstrip s) = lstrip s.
Proof.
  apply lstrip_fixed. intros c t H. now apply lstrip_head in H.
Qed.

Lemma strip_of_trimmed (s : str) : trimmed s -> strip s = s.
Proof.
  intros [H1 H2]. unfold strip, rstrip. now rewrite H1, H2, rev_involutive.
Qed.

Lemma strip_trimmed (s : str) : trimmed (strip s).
Proof.
  unfold strip, rstrip. set (u := lstrip s). set (v := lstrip (rev u)). split.
  - apply lstrip_fixed. intros c t E.
    destruct (lstrip_decompose (rev u)) as (spaces & Eu & _). fold v in Eu.
    apply (f_equal (@rev char)) in Eu. rewrite rev_involutive, rev_app_distr, E in Eu.
    now apply (lstrip_head s c (t ++ rev spaces)).
  - rewrite rev_involutive. apply lstrip_idempotent.
Qed.

Lemma strip_idempotent (s : str) : strip (strip s) = strip s.
Proof. apply strip_of_trimmed, strip_trimmed. Qed.

Lemma trimmed_of_strip (s : str) : strip s = s -> trimmed s.
Proof. intros <-. apply strip_trimmed. Qed.

(** A trimmed text is empty or starts, and ends, with a character that
    is not white space. *)
Lemma trimmed_head (s : str) (c : char) (t : str) :
  trimmed s -> s = c :: t -> isspace c = false.
Proof. intros [H _] ->. now apply (lstrip_head _ _ _ H). Qed.

Lemma trimmed_last (s : str) :
  trimmed s -> s <> [] -> exists t c, s = t ++ [c] /\ isspace c = false.
Proof.
  intros [_ H] Hne. destruct (rev s) as [| c r] eqn:E.
  - apply (f_equal (@rev char)) in E. rewrite rev_involutive in E. contradiction.
  - exists (rev r), c. split; [| now apply (lstrip_head _ _ _ H)].
    apply (f_equal (@rev char)) in E. now rewrite rev_involutive in E.
Qed.

Lemma trimmed_edges (s : str) (c1 c2 : char) (middle : str) :
  isspace c1 = false -> isspace c2 = false -> trimmed (c1 :: middle ++ [c2]).
Proof.
  intros H1 H2. split.
  - cbn [lstrip]. now rewrite H1.
  - change (c1 :: middle ++ [c2]) with ((c1 :: middle) ++ [c2]).
    rewrite rev_app_distr. cbn [rev app lstrip]. now rewrite H2.
Qed.

(** A space in front does not change what [strip] gives. *)
Lemma strip_space (s : str) : strip (32%N :: s) = strip s.
Proof. reflexivity. Qed.

(** The decimal digits are not white space. *)
Lemma digits_not_space (d : Decimal.uint) :
  Forall (fun c => isspace c = false) (lit (NilEmpty.string_of_uint d)).
Proof. induction d; cbn; constructor; (reflexivity || assumption). Qed.

Lemma str_of_nat_not_space (n : nat) :
  str_of_nat n <> [] /\ Forall (fun c => isspace c = false) (str_of_nat n).
Proof.
  unfold str_of_nat, NilZero.string_of_uint.
  destruct (Nat.to_uint n) as [| d | d | d | d | d | d | d | d | d | d].
  1: split; [discriminate | repeat constructor].
  all: split; [discriminate | apply digits_not_space].
Qed.

Lemma user_trimmed (n : nat) : trimmed (lit "User" ++ str_of_nat n).
Proof.
  destruct (str_of_nat_not_space n) as [Hne Hall].
  destruct (exists_last Hne) as (front & c & E). rewrite E in *.
  apply Forall_app in Hall. destruct Hall as [_ Hc]. inversion Hc as [| ? ? Hc' _]; subst.
  change (lit "User" ++ front ++ [c])
    with (85%N :: (lit "ser" ++ front ++ [c])).
  rewrite app_assoc. now apply (trimmed_edges []).
Qed.

(** *** Splitting what was joined *)

Lemma split_plain (sep : char) (p : str) : ~ In sep p -> split sep p = [p].
Proof.
  induction p as [| c p IH]; intros H; cbn [split]; [reflexivity |].
  destruct (N.eqb_spec c sep) as [-> | _]; [exfalso; apply H; now left |].
  rewrite IH; [reflexivity |]. intros Hin. apply H. now right.
Qed.

Lemma split_app (sep : char) (p rest : str) :
  ~ In sep p -> split sep (p ++ sep :: rest) = p :: split sep rest.
Proof.
  induction p as [| c p IH]; intros H; cbn [app split].
  - now rewrite N.eqb_refl.
  - destruct (N.eqb_spec c sep) as [-> | _]; [exfalso; apply H; now left |].
    rewrite IH; [reflexivity |]. intros Hin. apply H. now right.
Qed.

Lemma split_join (sep : char) (lines : list str) :
  lines <> [] -> Forall (fun l => ~ In sep l) lines ->
  split sep (join [sep] lines) = lines.
Proof.
  intros Hne H. induction H as [| l lines Hl Hlines IH]; [contradiction |].
  destruct lines as [| l' lines]; cbn [join].
  - now apply split_plain.
  - cbn [app]. rewrite split_app by exact Hl. f_equal. apply IH. discriminate.
Qed.

Lemma join_head (sep : str) (c : char) (t : str) (lines : list str) :
  exists rest, join sep ((c :: t) :: lines) = c :: rest.
Proof. destruct lines; cbn [join app]; eexists; reflexivity. Qed.

Lemma join_last (sep : str) (lines : list str) (l : str) (c : char) :
  exists front, join sep (lines ++ [l ++ [c]]) = front ++ [c].
Proof.
  induction lines as [| x lines (front & IH)]; cbn [app join].
  - now exists l.
  - destruct (lines ++ [l ++ [c]]) as [| y ys] eqn:E.
    + destruct lines; discriminate.
    + exists (x ++ sep ++ front). rewrite IH. now rewrite !app_assoc.
Qed.

(** *** The model's [strip] against trimming as specified *)

Lemma lstrip_blank (s : str) : blank s -> lstrip s = [].
Proof.
  intros H. induction H as [| c s Hc _ IH]; [reflexivity |].
  cbn [lstrip]. now rewrite Hc.
Qed.

Lemma lstrip_blank_app (spaces s : str) :
  blank spaces -> lstrip (spaces ++ s) = lstrip s.
Proof.
  intros H. induction H as [| c spaces Hc _ IH]; [reflexivity |].
  cbn [app lstrip]. now rewrite Hc.
Qed.

Lemma blank_rev (s : str) : blank s -> blank (rev s).
Proof.
  unfold blank. rewrite !Forall_forall. intros H c Hc. apply H. now apply in_rev.
Qed.

(** [strip] trims. *)
Lemma trim_of_strip (s : str) : trim_of s (strip s).
Proof.
  destruct (lstrip_decompose s) as (front & Es & Hfront).
  destruct (lstrip_decompose (rev (lstrip s))) as (back & Eb & Hback).
  exists front, (rev back).
  split.
  { apply (f_equal (@rev char)) in Eb. rewrite rev_involutive, rev_app_distr in Eb.
    unfold strip, rstrip. now rewrite <- Eb. }
  split; [exact Hfront |].
  split; [now apply blank_rev |].
  pose proof (strip_trimmed s) as [Hl Hr]. split.
  - intros c rest E. rewrite E in Hl. now apply (lstrip_head _ _ _ Hl).
  - intros t c E. rewrite E, rev_app_distr in Hr. cbn [rev app] in Hr.
    now apply (lstrip_head _ _ _ Hr).
Qed.

(** Trimming as specified has one result only, the one of [strip]. *)
Lemma trim_of_unique (s t : str) : trim_of s t -> t = strip s.
Proof.
  intros (front & back & -> & Hfront & Hback & Hhead & Hlast).
  unfold strip, rstrip. rewrite (lstrip_blank_app _ _ Hfront).
  destruct t as [| c rest].
  - cbn [app]. now rewrite (lstrip_blank _ Hback).
  - cbn [app lstrip]. rewrite (Hhead c rest eq_refl).
    change (c :: rest ++ back) with ((c :: rest) ++ back).
    rewrite rev_app_distr, (lstrip_blank_app _ _ (blank_rev _ Hback)).
    rewrite lstrip_fixed; [now rewrite rev_involutive |].
    intros x r E. apply (Hlast (rev r) x).
    apply (f_equal (@rev char)) in E. rewrite rev_involutive in E. exact E.
Qed.

(** [strip] gives the empty text for blank texts and for no other. *)
Lemma strip_empty (s : str) : strip s = [] <-> blank s.
Proof.
  split.
  - intros E. destruct (trim_of_strip s) as (front & back & Es & Hf & Hb & _).
    rewrite E in Es. rewrite Es. cbn [app]. unfold blank. apply Forall_app. now split.
  - intros H. unfold strip, rstrip. now rewrite (lstrip_blank _ H).
Qed.

End TextFacts.

(** ** Source C *)

Module ManualFacts.
Section ManualFacts.
Import PyFacts.

Variable now : nat -> Z.
Variable hash : str -> Z.

Abbreviation process_line := (Manual.process_line now hash).
Abbreviation process_lines := (Manual.process_lines now hash).
Abbreviation stamp := (Manual.stamp now).

Lemma process_line_inv (n i : nat) (line : str) (m : message_data) :
  process_line n i line = Some m ->
  message m <> [] /\ timestamp m = TsInstant (stamp n i).
Proof.
  unfold Manual.process_line.
  destruct (contains colon line).
  - destruct (split1 colon line) as [p0 [p1 |]].
    + destruct (truthy (strip p1)) eqn:E; intros [= <-]; simpl.
      split; [now apply truthy_true | reflexivity].
    + simpl. discriminate.
  - destruct (truthy (strip line)) eqn:E; intros [= <-]; simpl.
    split; [now apply truthy_true | reflexivity].
Qed.

Lemma process_line_colon (n i : nat) (pre post : str) :
  ~ In colon pre ->
  option_map (fun m => (author m, message m)) (process_line n i (pre ++ colon :: post))
  = if truthy (strip post) then Some (strip pre, strip post) else None.
Proof.
  intros H. unfold Manual.process_line.
  replace (contains colon (pre ++ colon :: post)) with true.
  - rewrite (split1_first _ _ _ H). now destruct (truthy (strip post)).
  - symmetry. apply contains_In, in_or_app. right. now left.
Qed.

Lemma process_line_plain (n i : nat) (line : str) :
  ~ In colon line ->
  option_map (fun m => (author m, message m)) (process_line n i line)
  = if truthy (strip line)
    then Some (lit "User" ++ str_of_nat (i + 1), strip line) else None.
Proof.
  intros H. unfold Manual.process_line.
  rewrite (contains_not_In _ _ H). now destruct (truthy (strip line)).
Qed.

Lemma process_lines_length (n i : nat) (lines : list str) :
  (List.length (process_lines n i lines) <= List.length lines)%nat.
Proof.
  revert i. induction lines as [| line rest IH]; intros i; simpl; [lia |].
  specialize (IH (S i)). destruct (process_line n i line); simpl; lia.
Qed.

Lemma process_lines_text (n i : nat) (lines : list str) :
  Forall (fun m => message m <> []) (process_lines n i lines).
Proof.
  revert i. induction lines as [| line rest IH]; intros i; simpl; [constructor |].
  destruct (process_line n i line) eqn:E; [| apply IH].
  constructor; [| apply IH]. now apply process_line_inv in E.
Qed.

(** The loop visits the lines in order, each with its index. *)
Lemma process_lines_unfold (n i : nat) (lines : list str) :
  process_lines n i lines =
  flat_map (fun '(j, line) => match process_line n j line with
                              | Some m => [m]
                              | None => []
                              end)
           (combine (seq i (List.length lines)) lines).
Proof.
  revert i. induction lines as [| line rest IH]; intros i; simpl; [reflexivity |].
  rewrite IH. now destruct (process_line n i line).
Qed.

Lemma instants_process_lines (n i : nat) (lines : list str) :
  instants (process_lines n i lines) =
  map (stamp n)
      (filter (fun j => match process_line n j (nth (j - i) lines []) with
                        | Some _ => true
                        | None => false
                        end)
              (seq i (List.length lines))).
Proof.
  revert i. induction lines as [| line rest IH]; intros i; [reflexivity |].
  change (seq i (List.length (line :: rest))) with (i :: seq (S i) (List.length rest)).
  cbn [filter]. rewrite Nat.sub_diag.
  rewrite (filter_ext_in
             (fun j => match process_line n j (nth (j - i) (line :: rest) []) with
                       | Some _ => true | None => false end)
             (fun j => match process_line n j (nth (j - S i) rest []) with
                       | Some _ => true | None => false end)).
  2:{ intros j Hj. apply in_seq in Hj.
      replace (j - i)%nat with (S (j - S i)) by lia. reflexivity. }
  cbn [Manual.process_lines nth].
  destruct (process_line n i line) as [m |] eqn:Hm.
  - apply process_line_inv in Hm. destruct Hm as [_ Hm].
    unfold instants in *. cbn [flat_map map]. rewrite Hm, <- IH. reflexivity.
  - apply IH.
Qed.

Hypothesis clock : forall i j, (i <= j)%nat -> now i <= now j.

Lemma stamp_increasing (n i j : nat) : (i < j)%nat -> stamp n i < stamp n j.
Proof.
  intros H. unfold Manual.stamp, Timedelta_minutes.
  assert (now i <= now j) by (apply clock; lia). lia.
Qed.

Lemma stamps_sorted (n : nat) (f : nat -> bool) (i len : nat) :
  StronglySorted Z.lt (map (stamp n) (filter f (seq i len))).
Proof.
  revert i. induction len as [| len IH]; intros i; simpl; [constructor |].
  destruct (f i); [| apply IH].
  simpl. constructor; [apply IH |].
  apply Forall_forall. intros t Ht. apply in_map_iff in Ht.
  destruct Ht as (j & <- & Hj). apply filter_In in Hj. destruct Hj as [Hj _].
  apply in_seq in Hj. apply stamp_increasing. lia.
Qed.

Lemma instants_sorted (n i : nat) (lines : list str) :
  StronglySorted Z.lt (instants (process_lines n i lines)).
Proof. rewrite instants_process_lines. apply stamps_sorted. Qed.

Lemma timestamps_process_lines (n i : nat) (lines : list str) :
  map timestamp (process_lines n i lines)
  = map TsInstant (instants (process_lines n i lines)).
Proof.
  revert i. induction lines as [| line rest IH]; intros i; simpl; [reflexivity |].
  destruct (process_line n i line) as [m |] eqn:Hm; [| apply IH].
  apply process_line_inv in Hm. destruct Hm as [_ Hm].
  unfold instants in *. simpl. rewrite Hm. simpl. now rewrite IH.
Qed.

(** With the form submitted, an empty text gives what its single empty
    line gives: nothing. *)
Lemma collect_is_process_lines (chat_input : str) :
  Manual.collect_chat_manual_input now hash true chat_input =
  process_lines (List.length (split newline (strip chat_input))) 0
                (split newline (strip chat_input)).
Proof.
  unfold Manual.collect_chat_manual_input.
  destruct chat_input as [| c rest]; reflexivity.
Qed.

Lemma collect_length (submitted : bool) (chat_input : str) :
  (List.length (Manual.collect_chat_manual_input now hash submitted chat_input)
   <= List.length (split newline (strip chat_input)))%nat.
Proof.
  unfold Manual.collect_chat_manual_input.
  destruct (submitted && truthy chat_input); simpl; [| lia].
  apply process_lines_length.
Qed.

Lemma collect_text (submitted : bool) (chat_input : str) :
  Forall (fun m => message m <> [])
         (Manual.collect_chat_manual_input now hash submitted chat_input).
Proof.
  unfold Manual.collect_chat_manual_input.
  destruct (submitted && truthy chat_input); [| constructor].
  apply process_lines_text.
Qed.

End ManualFacts.
End ManualFacts.

(** ** Source B *)

Module SimulatedFacts.
Section SimulatedFacts.

Variable stream : nat -> N.
Variable base_time : Z.

Abbreviation simulate_one := (Simulated.simulate_one stream base_time).
Abbreviation simulate_loop := (Simulated.simulate_loop stream base_time).

Lemma sample_messages_text :
  Forall (fun t : str => t <> []) Simulated.sample_messages.
Proof. repeat constructor; discriminate. Qed.

(** The text of a simulated record is one of the thirty samples. *)
Lemma simulate_one_message (k : nat) :
  In (message (fst (simulate_one k))) Simulated.sample_messages.
Proof.
  unfold Simulated.simulate_one, Simulated.bind, Simulated.choice,
    Simulated.randint, Simulated.random, Simulated.ret.
  destruct (Simulated.lt_0_1 _); destruct (Simulated.lt_0_05 _);
    cbn [fst message]; apply nth_In, Nat.mod_upper_bound; discriminate.
Qed.

Lemma simulate_loop_length (n k : nat) :
  List.length (fst (simulate_loop n k)) = n.
Proof.
  revert k. induction n as [| n IH]; intros k; [reflexivity |].
  cbn [Simulated.simulate_loop]. unfold Simulated.bind at 1.
  destruct (simulate_one k) as [m k1]. unfold Simulated.bind at 1.
  specialize (IH k1). destruct (simulate_loop n k1) as [ms k2].
  simpl in *. now rewrite IH.
Qed.

Lemma simulate_loop_text (n k : nat) :
  Forall (fun m => message m <> []) (fst (simulate_loop n k)).
Proof.
  revert k. induction n as [| n IH]; intros k; [constructor |].
  cbn [Simulated.simulate_loop]. unfold Simulated.bind at 1.
  pose proof (simulate_one_message k) as Hm.
  destruct (simulate_one k) as [m k1]. unfold Simulated.bind at 1.
  specialize (IH k1). destruct (simulate_loop n k1) as [ms k2].
  simpl in *. constructor; [| exact IH].
  pose proof sample_messages_text as Hall.
  rewrite Forall_forall in Hall. now apply Hall.
Qed.

End SimulatedFacts.
End SimulatedFacts.

(** ** Source A *)

Module ApiFacts.
Section ApiFacts.
Import Api.

Variable server : Type.
Variable videos_list : server -> videos_params -> response videos * server.
Variable messages_list : server -> page_params -> response page * server.
Variable youtube_api_key : option str.

Abbreviation page_loop := (Api.page_loop server messages_list).
Abbreviation collect_chat_with_api :=
  (Api.collect_chat_with_api server videos_list messages_list youtube_api_key).

(** The loop over the items of a page only appends. *)
Lemma append_items_length (its : list item) (messages messages' : list message_data)
    (err : option exn) :
  append_items its messages = (messages', err) ->
  (List.length messages <= List.length messages'
   <= List.length messages + List.length its)%nat /\
  (err = None ->
   List.length messages' = (List.length messages + List.length its)%nat).
Proof.
  revert messages. induction its as [| it rest IH]; intros messages; simpl.
  - intros [= <- <-]. split; [lia | intros _; lia].
  - destruct (message_of_item it) as [m | e].
    + intros H. apply IH in H. rewrite length_app in H. simpl in H.
      destruct H as [H1 H2]. split; [lia | intros E; specialize (H2 E); lia].
    + intros [= <- <-]. split; [lia | discriminate].
Qed.

Lemma append_items_Forall (P : message_data -> Prop) (its : list item)
    (messages messages' : list message_data) (err : option exn) :
  (forall it m, In it its -> message_of_item it = Ok m -> P m) ->
  Forall P messages ->
  append_items its messages = (messages', err) ->
  Forall P messages'.
Proof.
  revert messages. induction its as [| it rest IH]; intros messages Hits Hm; simpl.
  - now intros [= <- <-].
  - destruct (message_of_item it) as [m | e] eqn:E.
    + apply IH.
      * intros it' m' Hin. apply Hits. now right.
      * apply Forall_app. split; [exact Hm |].
        constructor; [| constructor]. apply (Hits it); [now left | exact E].
    + now intros [= <- <-].
Qed.

Section Loop.

Variable api_key chat_id : str.
Variable max_messages : Z.

Abbreviation loop := (page_loop api_key chat_id max_messages).

(** Once the target is reached the loop is left at its test. *)
Lemma page_loop_full (fuel : nat) (w : world server)
    (messages : list message_data) (token : option str) :
  max_messages <= Z.of_nat (List.length messages) ->
  loop fuel w messages token = (Left_loop, messages, w).
Proof.
  intros H. destruct fuel; cbn [Api.page_loop];
    destruct (Z.ltb_spec (Z.of_nat (List.length messages)) max_messages);
    (reflexivity || lia).
Qed.

(** A property of the records that every converted item has holds of
    all that the loop returns. *)
Lemma page_loop_Forall (P : message_data -> Prop) :
  (forall it m, message_of_item it = Ok m -> P m) ->
  forall fuel w messages token,
    Forall P messages ->
    Forall P (snd (fst (loop fuel w messages token))).
Proof.
  intros HP. induction fuel as [| fuel IH]; intros w messages token Hm;
    cbn [Api.page_loop];
    destruct (Z.of_nat (List.length messages) <? max_messages);
    try exact Hm.
  destruct (messages_list _ _) as [[data | e] srv]; [| exact Hm].
  destruct (items data) as [its |]; [| exact Hm].
  destruct (append_items its messages) as [messages' [e |]] eqn:E;
    pose proof (append_items_Forall P its messages messages' _
                  (fun it m _ => HP it m) Hm E) as Hm'.
  - exact Hm'.
  - destruct (truthy_opt (nextPageToken data)); [| exact Hm'].
    now apply IH.
Qed.

(** More fuel does not change a run that ended. *)
Lemma page_loop_more_fuel (fuel fuel' : nat) :
  (fuel <= fuel')%nat ->
  forall w messages token,
    fst (fst (loop fuel w messages token)) <> Out_of_fuel ->
    loop fuel' w messages token = loop fuel w messages token.
Proof.
  revert fuel'. induction fuel as [| fuel IH]; intros fuel' Hle w messages token;
    cbn [Api.page_loop].
  - destruct (Z.ltb_spec (Z.of_nat (List.length messages)) max_messages) as [Hlt | Hge].
    + intros H. now contradiction H.
    + intros _. now apply page_loop_full.
  - destruct fuel' as [| fuel']; [lia |]. cbn [Api.page_loop].
    destruct (Z.of_nat (List.length messages) <? max_messages); [| reflexivity].
    destruct (messages_list _ _) as [[data | e] srv]; [| reflexivity].
    destruct (items data) as [its |]; [| reflexivity].
    destruct (append_items its messages) as [messages' [e |]]; [reflexivity |].
    destruct (truthy_opt (nextPageToken data)); [| reflexivity].
    apply IH. lia.
Qed.

Section Honest.

Hypothesis honours : honours_maxResults messages_list.

(** With a server that sends at most [maxResults] items, the loop
    never holds more than the target. *)
Lemma page_loop_bound (fuel : nat) (w : world server)
    (messages : list message_data) (token : option str) :
  Z.of_nat (List.length messages) <= max_messages ->
  Z.of_nat (List.length (snd (fst (loop fuel w messages token)))) <= max_messages.
Proof.
  revert w messages token.
  induction fuel as [| fuel IH]; intros w messages token Hm;
    cbn [Api.page_loop];
    destruct (Z.ltb_spec (Z.of_nat (List.length messages)) max_messages)
      as [Hlt | Hge]; try exact Hm.
  match goal with
  | |- context [messages_list ?s ?p] =>
      destruct (messages_list s p) as [[data | e] srv] eqn:Ecall
  end; [| exact Hm].
  destruct (items data) as [its |] eqn:Eits; [| exact Hm].
  assert (Hpos : 0 < Z.min 200 (max_messages - Z.of_nat (List.length messages)))
    by lia.
  pose proof (fun H => honours _ _ _ _ _ H Ecall Eits) as Hits.
  cbn [maxResults] in Hits. specialize (Hits Hpos).
  destruct (append_items its messages) as [messages' err] eqn:E.
  apply append_items_length in E. destruct E as [E _].
  assert (Hm' : Z.of_nat (List.length messages') <= max_messages) by lia.
  destruct err as [e |]; [exact Hm' |].
  destruct (truthy_opt (nextPageToken data)); [| exact Hm'].
  now apply IH.
Qed.

End Honest.

Section Progress.

Hypothesis progress : makes_progress messages_list.

(** With pages that are not empty while more are announced, the
    loop ends within as many turns as records are missing. *)
Lemma page_loop_ends (fuel : nat) (w : world server)
    (messages : list message_data) (token : option str) :
  (Z.to_nat (max_messages - Z.of_nat (List.length messages)) <= fuel)%nat ->
  fst (fst (loop fuel w messages token)) <> Out_of_fuel.
Proof.
  revert w messages token.
  induction fuel as [| fuel IH]; intros w messages token Hf;
    cbn [Api.page_loop];
    destruct (Z.ltb_spec (Z.of_nat (List.length messages)) max_messages)
      as [Hlt | Hge]; try discriminate; [lia |].
  match goal with
  | |- context [messages_list ?s ?p] =>
      destruct (messages_list s p) as [[data | e] srv] eqn:Ecall
  end; [| discriminate].
  destruct (items data) as [its |] eqn:Eits; [| discriminate].
  destruct (append_items its messages) as [messages' err] eqn:E.
  apply append_items_length in E. destruct E as [_ E].
  destruct err as [e |]; [discriminate |].
  destruct (truthy_opt (nextPageToken data)) eqn:Etok; [| discriminate].
  assert (Hpos : 0 < Z.min 200 (max_messages - Z.of_nat (List.length messages)))
    by lia.
  pose proof (fun H => progress _ _ _ _ _ H Ecall Eits Etok) as Hne.
  cbn [maxResults] in Hne. specialize (Hne Hpos).
  specialize (E eq_refl). apply IH.
  destruct its; [congruence | simpl in E; lia].
Qed.

End Progress.

End Loop.

Ltac enter_collect :=
  unfold Api.collect_chat_with_api;
  destruct youtube_api_key as [api_key |]; [| cbn];
  [destruct (truthy api_key); [| cbn];
   [destruct (get_live_chat_id _ _ _ _ _) as [chat w1];
    destruct (truthy_opt chat); [| cbn] | ] | ].

Lemma collect_bound (fuel : nat) (w : world server) (video_id : str)
    (max_messages : Z) :
  honours_maxResults messages_list ->
  0 <= max_messages ->
  Z.of_nat (List.length (value (collect_chat_with_api fuel w video_id max_messages)))
  <= max_messages.
Proof.
  intros Hh Hb. enter_collect; try assumption.
  pose proof (page_loop_bound api_key (get chat []) max_messages Hh fuel w1 [] None Hb)
    as H.
  destruct (page_loop _ _ _ _ _ _ _) as [[[| e |] messages] w2]; exact H.
Qed.

Lemma collect_returns (fuel : nat) (w : world server) (video_id : str)
    (max_messages : Z) :
  makes_progress messages_list ->
  0 <= max_messages ->
  (Z.to_nat max_messages <= fuel)%nat ->
  returned (collect_chat_with_api fuel w video_id max_messages) = true.
Proof.
  intros Hp Hb Hf. enter_collect; try reflexivity.
  assert (Hf' : (Z.to_nat (max_messages - Z.of_nat (@List.length message_data []))
                 <= fuel)%nat) by (simpl; lia).
  pose proof (page_loop_ends api_key (get chat []) max_messages Hp fuel w1 [] None Hf')
    as H.
  destruct (page_loop _ _ _ _ _ _ _) as [[[| e |] messages] w2];
    [reflexivity | reflexivity | now contradiction H].
Qed.

Lemma collect_more_fuel (fuel fuel' : nat) (w : world server) (video_id : str)
    (max_messages : Z) :
  (fuel <= fuel')%nat ->
  returned (collect_chat_with_api fuel w video_id max_messages) = true ->
  collect_chat_with_api fuel' w video_id max_messages
  = collect_chat_with_api fuel w video_id max_messages.
Proof.
  intros Hle. enter_collect; try reflexivity.
  intros H.
  rewrite (page_loop_more_fuel api_key (get chat []) max_messages fuel fuel' Hle);
    [reflexivity |].
  destruct (page_loop _ _ _ _ _ _ _) as [[[| e |] messages] w2];
    simpl in *; congruence.
Qed.

Lemma collect_Forall (P : message_data -> Prop) (fuel : nat) (w : world server)
    (video_id : str) (max_messages : Z) :
  (forall it m, message_of_item it = Ok m -> P m) ->
  Forall P (value (collect_chat_with_api fuel w video_id max_messages)).
Proof.
  intros HP. enter_collect; try constructor.
  pose proof (page_loop_Forall api_key (get chat []) max_messages P HP fuel w1 [] None
                (Forall_nil P)) as H.
  destruct (page_loop _ _ _ _ _ _ _) as [[[| e |] messages] w2]; exact H.
Qed.

(** Every item that converts is appended, whatever its text. *)
Lemma append_items_all (its : list item) (records messages : list message_data) :
  Forall2 (fun it m => message_of_item it = Ok m) its records ->
  append_items its messages = (messages ++ records, None).
Proof.
  intros H. revert messages. induction H as [| it m its records Hm _ IH];
    intros messages; simpl.
  - now rewrite app_nil_r.
  - rewrite Hm, IH, <- app_assoc. reflexivity.
Qed.

Lemma message_of_item_text (it : item) (m : message_data) :
  message_of_item it = Ok m ->
  exists sn, item_snippet it = Some sn /\ message m = get (displayMessage sn) [].
Proof.
  unfold message_of_item. destruct (item_snippet it) as [sn |]; [| discriminate].
  destruct (item_authorDetails it); [| discriminate].
  intros [= <-]. now exists sn.
Qed.

End ApiFacts.

Lemma capped_pages_honours (pages : nat) :
  honours_maxResults (capped_pages pages).
Proof.
  intros s p data s' its Hpos [= <- <-] [= <-].
  rewrite length_map, length_seq. lia.
Qed.

Lemma capped_pages_progress (pages : nat) :
  makes_progress (capped_pages pages).
Proof.
  intros s p data s' its Hpos [= <- <-] [= <-] _ H.
  apply (f_equal (@List.length _)) in H.
  rewrite length_map, length_seq in H. simpl in H. lia.
Qed.

End ApiFacts.

(** ** Statistics *)

Module StatsFacts.
Import Stats.

Lemma str_eqb_eq (a b : str) : str_eqb a b = true <-> a = b.
Proof. unfold str_eqb. destruct (str_eq_dec a b); split; congruence. Qed.

Lemma str_eqb_neq (a b : str) : str_eqb a b = false <-> a <> b.
Proof. unfold str_eqb. destruct (str_eq_dec a b); split; congruence. Qed.

(** *** Sorted lists *)

Section Sorted.
Variable A : Type.

Lemma StronglySorted_weaken (R R' : A -> A -> Prop) (l : list A) :
  (forall x y, In x l -> In y l -> R x y -> R' x y) ->
  StronglySorted R l -> StronglySorted R' l.
Proof.
  intros HR H. induction H as [| x l Hl IH Hx]; constructor.
  - apply IH. intros a b Ha Hb. apply HR; now right.
  - rewrite Forall_forall in *. intros y Hy.
    apply HR; [now left | now right | now apply Hx].
Qed.

Lemma StronglySorted_filter (R : A -> A -> Prop) (f : A -> bool) (l : list A) :
  StronglySorted R l -> StronglySorted R (filter f l).
Proof.
  intros H. induction H as [| x l Hl IH Hx]; simpl; [constructor |].
  destruct (f x); [| exact IH]. constructor; [exact IH |].
  rewrite Forall_forall in *. intros y Hy. apply filter_In in Hy. now apply Hx.
Qed.

Lemma StronglySorted_firstn (R : A -> A -> Prop) (n : nat) (l : list A) :
  StronglySorted R l -> StronglySorted R (firstn n l).
Proof.
  intros H. revert n. induction H as [| x l Hl IH Hx]; intros [| n]; simpl;
    try constructor.
  - apply IH.
  - rewrite Forall_forall in *. intros y Hy. apply Hx.
    apply (In_nth _ _ y) in Hy. destruct Hy as (k & Hk & <-).
    rewrite nth_firstn. destruct (k <? n)%nat eqn:E.
    + apply nth_In. rewrite length_firstn in Hk. lia.
    + apply Nat.ltb_ge in E. rewrite length_firstn in Hk. lia.
Qed.

End Sorted.

(** *** Distinct values *)

Lemma unique_In (col : list str) (a : str) : In a (unique col) <-> In a col.
Proof.
  induction col as [| b rest IH]; simpl; [tauto |].
  rewrite filter_In, IH, negb_true_iff, str_eqb_neq.
  destruct (str_eq_dec b a) as [-> | Hne]; [tauto |].
  split; [tauto |]. intros [H | H]; [congruence | right; split; auto].
Qed.

Lemma unique_NoDup (col : list str) : NoDup (unique col).
Proof.
  induction col as [| b rest IH]; simpl; constructor.
  - rewrite filter_In, negb_true_iff, str_eqb_neq. tauto.
  - now apply NoDup_filter.
Qed.

(** [nunique] is the number of distinct values, however they are
    listed. *)
Lemma nunique_spec (col names : list str) :
  NoDup names -> (forall a, In a names <-> In a col) ->
  nunique col = List.length names.
Proof.
  intros Hnd Hin. unfold nunique. apply Permutation_length.
  apply NoDup_Permutation; [apply unique_NoDup | exact Hnd |].
  intros a. now rewrite unique_In, Hin.
Qed.

Lemma first_index_head (a : str) (col : list str) : first_index a (a :: col) = O.
Proof. simpl. now rewrite (proj2 (str_eqb_eq a a) eq_refl). Qed.

Lemma first_index_tail (a b : str) (col : list str) :
  a <> b -> first_index a (b :: col) = S (first_index a col).
Proof. intros H. simpl. now rewrite (proj2 (str_eqb_neq a b) H). Qed.

(** The distinct values are listed by first appearance. *)
Lemma unique_by_first_index (col : list str) :
  StronglySorted (fun a b => (first_index a col < first_index b col)%nat)
                 (unique col).
Proof.
  induction col as [| c rest IH]; simpl unique; constructor.
  - apply (StronglySorted_weaken _
             (fun a b => (first_index a rest < first_index b rest)%nat)).
    + intros x y Hx Hy Hlt. apply filter_In in Hx, Hy.
      destruct Hx as [_ Hx]. destruct Hy as [_ Hy].
      rewrite negb_true_iff, str_eqb_neq in Hx, Hy.
      rewrite !first_index_tail by congruence. lia.
    + now apply StronglySorted_filter.
  - apply Forall_forall. intros b Hb. apply filter_In in Hb.
    destruct Hb as [_ Hb]. rewrite negb_true_iff, str_eqb_neq in Hb.
    rewrite first_index_head, first_index_tail by congruence. lia.
Qed.

(** *** The sort of [value_counts] *)

Lemma tally_keys (col : list str) : map fst (tally col) = unique col.
Proof.
  unfold tally. rewrite map_map. cbn [fst]. apply map_id.
Qed.

Lemma tally_In (col : list str) (a : str) (c : nat) :
  In (a, c) (tally col) <-> In a col /\ c = count_occ str_eq_dec col a.
Proof.
  unfold tally. rewrite in_map_iff. split.
  - intros (b & E & Hb). inversion E; subst.
    split; [exact (proj1 (unique_In _ _) Hb) | reflexivity].
  - intros [Ha ->]. exists a. split; [reflexivity | now apply unique_In].
Qed.

(** The tally lists the values by first appearance. *)
Lemma tally_by_first_index (col : list str) :
  StronglySorted
    (fun p q => (first_index (fst p) col < first_index (fst q) col)%nat)
    (tally col).
Proof.
  unfold tally. pose proof (unique_by_first_index col) as H.
  set (l := unique col) in *. clearbody l.
  induction H as [| a l Hl IH Ha]; simpl; constructor; [exact IH |].
  rewrite Forall_forall in *. intros q Hq. apply in_map_iff in Hq.
  destruct Hq as (b & <- & Hb). simpl. now apply Ha.
Qed.

Section AnySort.

(** What holds of [value_counts] with any sort that pandas'
    documentation allows. *)
Variable sort_values : list (str * nat) -> list (str * nat).
Hypothesis contract : descending_sort sort_values.

Lemma value_counts_In (col : list str) (a : str) (c : nat) :
  In (a, c) (value_counts sort_values col)
  <-> In a col /\ c = count_occ str_eq_dec col a.
Proof.
  unfold value_counts. rewrite <- tally_In.
  destruct (contract (tally col)) as [Hperm _]. split; intros H.
  - now apply (Permutation_in _ Hperm).
  - now apply (Permutation_in _ (Permutation_sym Hperm)).
Qed.

Lemma value_counts_keys (col : list str) :
  NoDup (map fst (value_counts sort_values col)) /\
  List.length (value_counts sort_values col) = nunique col.
Proof.
  unfold value_counts, nunique. destruct (contract (tally col)) as [Hperm _]. split.
  - apply (Permutation_NoDup (l := map fst (tally col))).
    + apply Permutation_map, Permutation_sym, Hperm.
    + rewrite tally_keys. apply unique_NoDup.
  - rewrite (Permutation_length Hperm). unfold tally. now rewrite length_map.
Qed.

Lemma value_counts_descending (col : list str) :
  StronglySorted descending (value_counts sort_values col).
Proof. unfold value_counts. apply contract. Qed.

(** With a sort that leaves equal counts in place, the ranking is by
    count and then by first appearance. *)
Lemma value_counts_sorted (col : list str) :
  keeps_ties sort_values ->
  StronglySorted (ranks_above col) (value_counts sort_values col).
Proof.
  intros Hties. unfold value_counts, ranks_above.
  apply Hties, tally_by_first_index.
Qed.

End AnySort.

(** What stands in the front part of a sorted list is related to what
    stands in the rest. *)
Lemma StronglySorted_split (A : Type) (R : A -> A -> Prop) (n : nat) (l : list A)
    (x y : A) :
  StronglySorted R l -> In x (firstn n l) -> In y (skipn n l) -> R x y.
Proof.
  intros H. revert n. induction H as [| z l Hl IH Hz]; intros n Hx Hy.
  - rewrite firstn_nil in Hx. destruct Hx.
  - destruct n as [| n]; [destruct Hx |]. cbn [firstn skipn] in Hx, Hy.
    destruct Hx as [<- | Hx].
    + rewrite Forall_forall in Hz. apply Hz.
      rewrite <- (firstn_skipn n l). apply in_or_app. now right.
    + now apply (IH n).
Qed.

(** *** The two sample sorts *)

Lemma insert_desc_In (x y : str * nat) (l : list (str * nat)) :
  In y (insert_desc x l) <-> y = x \/ In y l.
Proof.
  induction l as [| z l IH]; simpl.
  - intuition congruence.
  - destruct (snd x <? snd z)%nat; simpl; [rewrite IH |]; intuition congruence.
Qed.

Lemma stable_desc_In (y : str * nat) (l : list (str * nat)) :
  In y (stable_desc l) <-> In y l.
Proof.
  induction l as [| x l IH]; simpl; [tauto |].
  rewrite insert_desc_In, IH. intuition congruence.
Qed.

Lemma insert_desc_perm (x : str * nat) (l : list (str * nat)) :
  Permutation (insert_desc x l) (x :: l).
Proof.
  induction l as [| y l IH]; cbn [insert_desc]; [apply Permutation_refl |].
  destruct (snd x <? snd y)%nat; [| apply Permutation_refl].
  eapply perm_trans; [apply perm_skip, IH | apply perm_swap].
Qed.

Lemma stable_desc_perm (l : list (str * nat)) : Permutation (stable_desc l) l.
Proof.
  induction l as [| x l IH]; [apply perm_nil |]. cbn [stable_desc fold_right].
  eapply perm_trans; [apply insert_desc_perm | now apply perm_skip].
Qed.

Section Stable.

(** [before p q]: [p] stands before [q] in the list that is sorted. *)
Variable before : str * nat -> str * nat -> Prop.

Abbreviation above := (Stats.above before).

Lemma insert_desc_sorted (x : str * nat) (l : list (str * nat)) :
  Forall (before x) l ->
  StronglySorted above l -> StronglySorted above (insert_desc x l).
Proof.
  intros Hx H. induction H as [| z l Hl IH Hz]; simpl.
  - repeat constructor.
  - inversion Hx as [| ? ? Hxz Hxl]; subst.
    destruct (Nat.ltb_spec (snd x) (snd z)) as [Hlt | Hge].
    + constructor; [now apply IH |].
      rewrite Forall_forall in *. intros y Hy.
      apply insert_desc_In in Hy. destruct Hy as [-> | Hy]; [now left | now apply Hz].
    + constructor; [now constructor |].
      rewrite Forall_forall in *. intros y [<- | Hy].
      * unfold Stats.above. destruct (Nat.eq_dec (snd x) (snd z)); [right | left]; auto; lia.
      * specialize (Hz y Hy). specialize (Hxl y Hy). unfold Stats.above in *.
        destruct (Nat.eq_dec (snd x) (snd y)); [right | left]; auto. lia.
Qed.

(** The first sample sort is descending and keeps the order of equal
    counts. *)
Lemma stable_desc_sorted (l : list (str * nat)) :
  StronglySorted before l -> StronglySorted above (stable_desc l).
Proof.
  intros H. induction H as [| x l Hl IH Hx]; simpl; [constructor |].
  apply insert_desc_sorted; [| exact IH].
  rewrite Forall_forall in *. intros y Hy. apply Hx.
  now apply stable_desc_In.
Qed.

End Stable.

Lemma stable_desc_keeps_ties : keeps_ties stable_desc.
Proof. intros before l H. now apply stable_desc_sorted. Qed.

Lemma trivially_sorted (A : Type) (l : list A) : StronglySorted (fun _ _ => True) l.
Proof.
  induction l as [| x l IH]; constructor; [exact IH |].
  apply Forall_forall. intros; exact I.
Qed.

Lemma stable_desc_contract : descending_sort stable_desc.
Proof.
  intros l. split; [apply stable_desc_perm |].
  apply (StronglySorted_weaken _ (Stats.above (fun _ _ => True))).
  - intros p q _ _ [H | [H _]]; unfold descending; lia.
  - apply stable_desc_sorted, trivially_sorted.
Qed.

Lemma insert_behind_In (x y : str * nat) (l : list (str * nat)) :
  In y (insert_behind x l) <-> y = x \/ In y l.
Proof.
  induction l as [| z l IH]; simpl.
  - intuition congruence.
  - destruct (snd x <=? snd z)%nat; simpl; [rewrite IH |]; intuition congruence.
Qed.

Lemma insert_behind_perm (x : str * nat) (l : list (str * nat)) :
  Permutation (insert_behind x l) (x :: l).
Proof.
  induction l as [| y l IH]; cbn [insert_behind]; [apply Permutation_refl |].
  destruct (snd x <=? snd y)%nat; [| apply Permutation_refl].
  eapply perm_trans; [apply perm_skip, IH | apply perm_swap].
Qed.

Lemma insert_behind_sorted (x : str * nat) (l : list (str * nat)) :
  StronglySorted descending l -> StronglySorted descending (insert_behind x l).
Proof.
  intros H. induction H as [| z l Hl IH Hz]; cbn [insert_behind].
  - repeat constructor.
  - destruct (Nat.leb_spec (snd x) (snd z)) as [Hle | Hgt].
    + constructor; [exact IH |].
      rewrite Forall_forall in *. intros y Hy. apply insert_behind_In in Hy.
      destruct Hy as [-> | Hy]; [exact Hle | now apply Hz].
    + constructor; [now constructor |].
      rewrite Forall_forall in *. intros y [<- | Hy]; unfold descending in *; [lia |].
      specialize (Hz y Hy). lia.
Qed.

Lemma reversing_desc_contract : descending_sort reversing_desc.
Proof.
  intros l. split.
  - induction l as [| x l IH]; [apply perm_nil |]. cbn [reversing_desc fold_right].
    eapply perm_trans; [apply insert_behind_perm | now apply perm_skip].
  - induction l as [| x l IH]; [constructor |]. cbn [reversing_desc fold_right].
    now apply insert_behind_sorted.
Qed.

(** With two entries of the same count and a third of a lower count,
    any such sort puts the third last, and the two in an order that
    may depend on the order they came in. *)
Lemma three_sorted (sort : list (str * nat) -> list (str * nat))
    (a b c : str) :
  descending_sort sort -> a <> b -> a <> c -> b <> c ->
  sort [(a, 5%nat); (b, 5%nat); (c, 3%nat)] = [(a, 5%nat); (b, 5%nat); (c, 3%nat)] \/
  sort [(a, 5%nat); (b, 5%nat); (c, 3%nat)] = [(b, 5%nat); (a, 5%nat); (c, 3%nat)].
Proof.
  intros contract Hab Hac Hbc.
  destruct (contract [(a, 5%nat); (b, 5%nat); (c, 3%nat)]) as [Hperm Hs].
  set (l := sort [(a, 5%nat); (b, 5%nat); (c, 3%nat)]) in *. clearbody l.
  assert (Hnd : NoDup l).
  { apply (Permutation_NoDup (Permutation_sym Hperm)).
    repeat constructor; cbn [In]; intros H;
      repeat (destruct H as [H | H]); try congruence; exact H. }
  pose proof (Permutation_length Hperm) as Hlen.
  destruct l as [| x [| y [| z [| ? ?]]]]; try discriminate Hlen.
  assert (Hx : In x [(a, 5%nat); (b, 5%nat); (c, 3%nat)])
    by (apply (Permutation_in _ Hperm); cbn; auto).
  assert (Hy : In y [(a, 5%nat); (b, 5%nat); (c, 3%nat)])
    by (apply (Permutation_in _ Hperm); cbn; auto).
  assert (Hz : In z [(a, 5%nat); (b, 5%nat); (c, 3%nat)])
    by (apply (Permutation_in _ Hperm); cbn; auto).
  inversion Hs as [| ? ? Hs' Hxl]; subst.
  inversion Hs' as [| ? ? _ Hyl]; subst.
  inversion Hxl as [| ? ? Hxy Hxl']; subst. inversion Hxl' as [| ? ? Hxz _]; subst.
  inversion Hyl as [| ? ? Hyz _]; subst.
  inversion Hnd as [| ? ? Hnx Hnd']; subst. inversion Hnd' as [| ? ? Hny _]; subst.
  unfold descending in *. cbn [In] in Hx, Hy, Hz, Hnx, Hny.
  destruct Hx as [<- | [<- | [<- | []]]]; destruct Hy as [<- | [<- | [<- | []]]];
    destruct Hz as [<- | [<- | [<- | []]]]; cbn [snd] in *;
    try lia; try (exfalso; tauto); auto.
Qed.

End StatsFacts.

(** ** Insight generator *)

Module InsightFacts.
Section InsightFacts.
Import Insight.

Variable client : Type.
Variable create : client -> create_params -> response completion * client.
Variable repr : str -> str.

Abbreviation subscript := (Insight.subscript client repr).
Abbreviation analyze_with_claude := (Insight.analyze_with_claude client create repr).

(** A key of the dictionary is found, and the world is left alone. *)
Lemma subscript_found (d : list (str * str)) (k : str) (w : world client) :
  In k (map fst d) ->
  exists v, In (k, v) d /\ subscript d k w = (Ok v, w).
Proof.
  induction d as [| [k' v'] d IH]; simpl; [intros [] |].
  destruct (str_eqb k k') eqn:E.
  - intros _. apply StatsFacts.str_eqb_eq in E. subst k'.
    exists v'. split; [now left | reflexivity].
  - apply StatsFacts.str_eqb_neq in E. intros [H | H]; [congruence |].
    destruct (IH H) as (v & Hin & Hv). exists v. split; [now right | exact Hv].
Qed.

(** A missing key raises [KeyError], and the world is left alone. *)
Lemma subscript_missing (d : list (str * str)) (k : str) (w : world client) :
  ~ In k (map fst d) ->
  subscript d k w = (Raises (mk_exn (repr k)), w).
Proof.
  induction d as [| [k' v'] d IH]; simpl; [reflexivity |].
  intros H. destruct (str_eqb k k') eqn:E.
  - apply StatsFacts.str_eqb_eq in E. subst k'. exfalso. apply H. now left.
  - apply IH. intros Hin. apply H. now right.
Qed.

Lemma prompts_keys (text : str) : map fst (prompts text) = analysis_types.
Proof. reflexivity. Qed.

(** Whatever happens inside the [try], the handler returns a text. *)
Lemma analyze_returns (messages : list message_data) (analysis_type : str)
    (w : world client) :
  exists text, fst (analyze_with_claude messages analysis_type w) = Ok text.
Proof.
  destruct messages as [| m ms]; [now eexists |].
  unfold Insight.analyze_with_claude, try_except.
  destruct (@bind _ _ _ _ _ w) as [[text | e] w']; now eexists.
Qed.

End InsightFacts.
End InsightFacts.

(** C5 as stated fails in its last part: the stamps are taken from the
    wall clock, one reading per line, and when the clock is set back
    by an hour between the first line and the second, the three lines
    "Alice: hello", "Bob: hi there", "noColonLine" give timestamps
    that are not increasing. *)
Lemma manual_parsing_rule_counterexample :
  let records := Manual.collect_chat_manual_input set_back hash0 true three_lines in
  author_and_text records
  = [ (lit "Alice", lit "hello");
      (lit "Bob", lit "hi there");
      (lit "User3", lit "noColonLine") ] /\
  instants records
  = [ 1700000000000000 - Timedelta_minutes 3;
      1700000000000000 - Timedelta_minutes 62;
      1700000000000000 - Timedelta_minutes 61 ] /\
  ~ StronglySorted Z.lt (instants records).
Proof.
  split; [reflexivity |]. split; [reflexivity |].
  intros H. inversion H as [| t ts _ Hall]; subst.
  inversion Hall as [| t' ts' Hlt _]; subst.
  vm_compute in Hlt. discriminate Hlt.
Qed.

(** C5, amended. The manual parser cuts a line at its first colon; the
    author is what stands before it and the text what stands after it,
    each without the white space at its two ends. A line without a
    colon gets the author [User<index+1>] and itself, trimmed in the
    same way, as text. A line gives no record exactly when that text
    would be empty, and the records come in the order of the lines. On
    the three lines "Alice: hello", "Bob: hi there", "noColonLine" it
    gives exactly (Alice, hello), (Bob, hi there), (User3, noColonLine);
    their timestamps are 3, 2 and 1 minutes before the clock readings
    taken for them, and they are strictly increasing exactly when no
    reading is a minute or more before the previous one. *)
Theorem manual_parsing_rule (now : nat -> Z) (hash : str -> Z) :
  (forall n i pre post,
      ~ In colon pre ->
      let result := Manual.process_line now hash n i (pre ++ colon :: post) in
      (result = None <-> blank post) /\
      (forall m, result = Some m ->
                 trim_of pre (author m) /\ trim_of post (message m))) /\
  (forall n i line,
      ~ In colon line ->
      let result := Manual.process_line now hash n i line in
      (result = None <-> blank line) /\
      (forall m, result = Some m ->
                 author m = lit "User" ++ str_of_nat (i + 1) /\
                 trim_of line (message m))) /\
  (forall chat_input,
      let lines := split newline (strip chat_input) in
      Manual.collect_chat_manual_input now hash true chat_input
      = flat_map (fun '(i, line) =>
                    match Manual.process_line now hash (List.length lines) i line with
                    | Some m => [m]
                    | None => []
                    end)
                 (combine (seq 0 (List.length lines)) lines)) /\
  author_and_text (Manual.collect_chat_manual_input now hash true three_lines)
  = [ (lit "Alice", lit "hello");
      (lit "Bob", lit "hi there");
      (lit "User3", lit "noColonLine") ] /\
  author_and_text (Manual.collect_chat_manual_input now hash true untidy_lines)
  = [ (lit "Alice", lit "hello");
      (lit "User4", lit "plain");
      (lit "Carol", lit "re: hi") ] /\
  map timestamp (Manual.collect_chat_manual_input now hash true three_lines)
  = [ TsInstant (now 0%nat - Timedelta_minutes 3);
      TsInstant (now 1%nat - Timedelta_minutes 2);
      TsInstant (now 2%nat - Timedelta_minutes 1) ] /\
  (StronglySorted Z.lt
     (instants (Manual.collect_chat_manual_input now hash true three_lines))
   <-> now 0%nat - Timedelta_minutes 1 < now 1%nat /\
       now 1%nat - Timedelta_minutes 1 < now 2%nat).
Proof.
  split.
  { intros n i pre post Hpre result. subst result.
    pose proof (ManualFacts.process_line_colon now hash n i pre post Hpre) as E.
    destruct (Manual.process_line now hash n i (pre ++ colon :: post)) as [m |];
      cbn [option_map] in E.
    - destruct (truthy (strip post)) eqn:Et; [| discriminate E].
      injection E as Ea Em. apply PyFacts.truthy_true in Et. split.
      + split; [discriminate |]. intros Hb. apply TextFacts.strip_empty in Hb.
        contradiction.
      + intros m' [= <-]. rewrite Ea, Em. split; apply TextFacts.trim_of_strip.
    - destruct (truthy (strip post)) eqn:Et; [discriminate E |].
      apply PyFacts.truthy_false in Et. split.
      + split; [intros _; now apply TextFacts.strip_empty | reflexivity].
      + intros m' [=]. }
  split.
  { intros n i line Hline result. subst result.
    pose proof (ManualFacts.process_line_plain now hash n i line Hline) as E.
    destruct (Manual.process_line now hash n i line) as [m |]; cbn [option_map] in E.
    - destruct (truthy (strip line)) eqn:Et; [| discriminate E].
      injection E as Ea Em. apply PyFacts.truthy_true in Et. split.
      + split; [discriminate |]. intros Hb. apply TextFacts.strip_empty in Hb.
        contradiction.
      + intros m' [= <-]. rewrite Ea, Em. split; [reflexivity |].
        apply TextFacts.trim_of_strip.
    - destruct (truthy (strip line)) eqn:Et; [discriminate E |].
      apply PyFacts.truthy_false in Et. split.
      + split; [intros _; now apply TextFacts.strip_empty | reflexivity].
      + intros m' [=]. }
  split.
  { intros chat_input lines. rewrite ManualFacts.collect_is_process_lines.
    apply ManualFacts.process_lines_unfold. }
  split; [reflexivity |].
  split; [reflexivity |].
  split; [reflexivity |].
  change (instants (Manual.collect_chat_manual_input now hash true three_lines))
    with [ now 0%nat - Timedelta_minutes (3 - 0);
           now 1%nat - Timedelta_minutes (3 - 1);
           now 2%nat - Timedelta_minutes (3 - 2) ].
  unfold Timedelta_minutes. split.
  - intros H. inversion H as [| t ts H' Hall]; subst.
    inversion Hall as [| t' ts' H01 _]; subst.
    inversion H' as [| t ts _ Hall']; subst.
    inversion Hall' as [| t' ts' H12 _]; subst. lia.
  - intros [H01 H12]. repeat constructor; lia.
Qed.

Lemma manual_parsing_rule_witness :
  ~ In colon (lit " Bob ") /\
  Manual.process_line still hash0 3 1 (lit " Bob " ++ colon :: [32%N; tab]) = None /\
  (exists m,
      Manual.process_line still hash0 3 1 (lit " Bob " ++ colon :: lit " hi there ")
      = Some m /\
      trim_of (lit " Bob ") (author m) /\ trim_of (lit " hi there ") (message m)) /\
  StronglySorted Z.lt
    (instants (Manual.collect_chat_manual_input still hash0 true three_lines)).
Proof.
  assert (H : ~ In colon (lit " Bob ")).
  { vm_compute. intros Hin. repeat (destruct Hin as [Hin | Hin]; [discriminate Hin |]).
    exact Hin. }
  pose proof (manual_parsing_rule still hash0) as (Hcolon & _ & _ & _ & _ & _ & Hsorted).
  split; [exact H |].
  split.
  { apply (proj1 (Hcolon 3%nat 1%nat (lit " Bob ") [32%N; tab] H)).
    repeat constructor. }
  split.
  { destruct (Manual.process_line still hash0 3 1
                (lit " Bob " ++ colon :: lit " hi there ")) as [m |] eqn:E;
      [| vm_compute in E; discriminate E].
    exists m. split; [reflexivity |].
    apply (proj2 (Hcolon 3%nat 1%nat (lit " Bob ") (lit " hi there ") H)). exact E. }
  apply (proj2 Hsorted). vm_compute. split; reflexivity.
Defined.

(** C8 as stated fails: with a clock that stands still, the two lines
    "first", "second" give stamps that end one minute before now, and a
    blank line between two others leaves two minutes between the
    records around it. *)
Lemma manual_timestamps_counterexample :
  ~ spec_manual_timestamps (still 0)
      (Manual.collect_chat_manual_input still hash0 true two_lines) /\
  ~ spec_manual_timestamps (still 0)
      (Manual.collect_chat_manual_input still hash0 true blank_between) /\
  instants (Manual.collect_chat_manual_input still hash0 true two_lines)
  = [still 0 - Timedelta_minutes 2; still 0 - Timedelta_minutes 1] /\
  instants (Manual.collect_chat_manual_input still hash0 true blank_between)
  = [still 0 - Timedelta_minutes 3; still 0 - Timedelta_minutes 1].
Proof.
  split; [| split; [| split; reflexivity]].
  - intros [_ H]. vm_compute in H. discriminate H.
  - intros [H _]. vm_compute in H. destruct H as [H _]. discriminate H.
Qed.

(** C8, amended. The record of line [i] (counted from 0) among [L]
    lines is stamped [L - i] minutes before the clock reading taken for
    it; every record carries such a stamp, in line order, and with a
    clock that does not run backwards the stamps are strictly
    increasing. So the record of the last line is one minute before
    now, and a discarded line leaves a gap. *)
Theorem manual_timestamps (now : nat -> Z) (hash : str -> Z)
    (clock : forall i j, (i <= j)%nat -> now i <= now j) (chat_input : str) :
  let lines := split newline (strip chat_input) in
  let records := Manual.collect_chat_manual_input now hash true chat_input in
  map timestamp records = map TsInstant (instants records) /\
  instants records
  = map (Manual.stamp now (List.length lines)) (kept_lines now hash lines) /\
  StronglySorted Z.lt (instants records).
Proof.
  intros lines records. subst records.
  rewrite ManualFacts.collect_is_process_lines. fold lines.
  split; [apply ManualFacts.timestamps_process_lines |].
  split; [| now apply ManualFacts.instants_sorted].
  rewrite ManualFacts.instants_process_lines. unfold kept_lines.
  f_equal. apply filter_ext. intros j. now rewrite Nat.sub_0_r.
Qed.

Lemma manual_timestamps_witness :
  (forall i j, (i <= j)%nat -> still i <= still j) /\
  StronglySorted Z.lt
    (instants (Manual.collect_chat_manual_input still hash0 true blank_between)).
Proof.
  assert (H : forall i j, (i <= j)%nat -> still i <= still j).
  { intros i j _. unfold still. apply Z.le_refl. }
  split; [exact H |].
  exact (proj2 (proj2 (manual_timestamps still hash0 H blank_between))).
Defined.

(** C2 as stated fails for the API collector: it keeps every item of a
    page, so a server that sends 200 items when 100 are asked for makes
    it return 200 records for a target of 100. *)
Lemma collectors_length_bound_counterexample :
  let r := Api.collect_chat_with_api nat live_video (full_pages 3) api_key 1 start
             (lit "video") 100 in
  Api.returned r = true /\
  List.length (Api.value r) = 200%nat /\
  ~ Z.of_nat (List.length (Api.value r)) <= 100.
Proof.
  split; [vm_compute; reflexivity |].
  assert (E : List.length
                (Api.value (Api.collect_chat_with_api nat live_video (full_pages 3)
                              api_key 1 start (lit "video") 100)) = 200%nat)
    by (vm_compute; reflexivity).
  split; [exact E |]. cbv zeta. rewrite E. lia.
Qed.

(** C2, amended. For every target [N >= 0]: the API collector returns
    at most [N] records when the server never sends more items than
    [maxResults] asks for (and it does return when no page that
    announces a next one is empty); the manual parser returns at most as
    many records as the text has lines; the simulated source returns
    exactly [N] records. *)
Theorem collectors_length_bound :
  (forall (server : Type)
          (videos_list : server -> Api.videos_params -> response Api.videos * server)
          (messages_list : server -> Api.page_params -> response Api.page * server)
          (youtube_api_key : option str) (w : Api.world server) (video_id : str)
          (N : Z) (fuel : nat),
      0 <= N ->
      honours_maxResults messages_list ->
      Z.of_nat (List.length
                  (Api.value (Api.collect_chat_with_api server videos_list messages_list
                                youtube_api_key fuel w video_id N))) <= N) /\
  (forall (server : Type)
          (videos_list : server -> Api.videos_params -> response Api.videos * server)
          (messages_list : server -> Api.page_params -> response Api.page * server)
          (youtube_api_key : option str) (w : Api.world server) (video_id : str)
          (N : Z) (fuel : nat),
      0 <= N ->
      makes_progress messages_list ->
      (Z.to_nat N <= fuel)%nat ->
      Api.returned (Api.collect_chat_with_api server videos_list messages_list
                      youtube_api_key fuel w video_id N) = true) /\
  (forall (now : nat -> Z) (hash : str -> Z) (submitted : bool) (chat_input : str),
      (List.length (Manual.collect_chat_manual_input now hash submitted chat_input)
       <= List.length (split newline (strip chat_input))
       <= List.length (split newline chat_input))%nat) /\
  (forall (stream : nat -> N) (base_time : Z) (N : Z),
      0 <= N ->
      Z.of_nat (List.length (Simulated.simulate_chat_data stream base_time N)) = N).
Proof.
  split; [intros; now apply ApiFacts.collect_bound |].
  split; [intros; now apply ApiFacts.collect_returns |].
  split.
  - intros. split; [apply ManualFacts.collect_length | apply PyFacts.split_strip_length].
  - intros stream base_time N HN. unfold Simulated.simulate_chat_data.
    rewrite SimulatedFacts.simulate_loop_length. lia.
Qed.

Lemma collectors_length_bound_witness :
  0 <= 350 /\
  honours_maxResults (capped_pages 3) /\
  Z.of_nat (List.length
              (Api.value (Api.collect_chat_with_api nat live_video (capped_pages 3)
                            api_key 2 start (lit "video") 350))) <= 350.
Proof.
  assert (H0 : 0 <= 350) by (vm_compute; discriminate).
  split; [exact H0 |].
  split; [apply ApiFacts.capped_pages_honours |].
  exact (proj1 collectors_length_bound nat live_video (capped_pages 3) api_key start
           (lit "video") 350 2%nat H0 (ApiFacts.capped_pages_honours 3)).
Defined.

(** C3 as stated fails: against a source whose pages all hold 200
    items, a target of 350 gives 400 records, not 350 (after two
    requests, the second asking for 150). *)
Lemma page_loop_termination_counterexample :
  Api.summary (Api.collect_chat_with_api nat live_video (full_pages 3) api_key 2 start
                 (lit "video") 350)
  = (true, 400%nat, [200; 150], []) /\
  List.length (Api.value (Api.collect_chat_with_api nat live_video (full_pages 3)
                            api_key 2 start (lit "video") 350)) <> 350%nat.
Proof.
  split; [vm_compute; reflexivity |].
  intros H. vm_compute in H. discriminate H.
Qed.

(** C3, amended. Against a mocked source of [pages >= 2] pages, all but
    the last with a continuation token: a target of 350 ends after
    exactly two page requests (for 200 and for 150 items), without
    error, with exactly 350 records when the source sends no more than
    is asked for, and with 400 when every page holds 200 items. Against
    at most four such pages a target of 1000 ends after one request per
    page, without error, with 200 records per page, fewer than 1000. *)
Theorem page_loop_termination (pages fuel : nat) :
  (2 <= pages)%nat ->
  (2 <= fuel)%nat ->
  Api.summary (Api.collect_chat_with_api nat live_video (capped_pages pages) api_key
                 fuel start (lit "video") 350)
  = (true, 350%nat, [200; 150], []) /\
  Api.summary (Api.collect_chat_with_api nat live_video (full_pages pages) api_key
                 fuel start (lit "video") 350)
  = (true, 400%nat, [200; 150], []) /\
  ((pages <= 4)%nat -> (pages <= fuel)%nat ->
   forall source, source = capped_pages \/ source = full_pages ->
     Api.summary (Api.collect_chat_with_api nat live_video (source pages) api_key
                    fuel start (lit "video") 1000)
     = (true, (200 * pages)%nat, repeat 200 pages, []) /\
     (200 * pages < 1000)%nat).
Proof.
  intros Hp Hf.
  assert (more : forall source N f result,
             (f <= fuel)%nat ->
             Api.summary (Api.collect_chat_with_api nat live_video source api_key f
                            start (lit "video") N) = (true, fst (fst result), snd (fst result), snd result) ->
             Api.summary (Api.collect_chat_with_api nat live_video source api_key fuel
                            start (lit "video") N) = (true, fst (fst result), snd (fst result), snd result)).
  { intros source N f result Hle H.
    rewrite (ApiFacts.collect_more_fuel nat live_video source api_key f fuel);
      [exact H | exact Hle |].
    unfold Api.summary in H. congruence. }
  destruct pages as [| [| [| pages]]]; try lia.
  - (* two pages *)
    split; [apply (more _ _ 2%nat (350%nat, [200; 150], [])); [exact Hf | vm_compute; reflexivity] |].
    split; [apply (more _ _ 2%nat (400%nat, [200; 150], [])); [exact Hf | vm_compute; reflexivity] |].
    intros _ Hf' source [-> | ->]; (split; [| lia]);
      apply (more _ _ 2%nat (400%nat, [200; 200], [])); try exact Hf;
      vm_compute; reflexivity.
  - (* three pages or more *)
    split; [apply (more _ _ 2%nat (350%nat, [200; 150], [])); [exact Hf | vm_compute; reflexivity] |].
    split; [apply (more _ _ 2%nat (400%nat, [200; 150], [])); [exact Hf | vm_compute; reflexivity] |].
    intros Hp4 Hf' source Hs.
    destruct pages as [| [| pages]]; try lia; split; try lia.
    + destruct Hs as [-> | ->];
        apply (more _ _ 3%nat (600%nat, [200; 200; 200], [])); try exact Hf';
        vm_compute; reflexivity.
    + destruct Hs as [-> | ->];
        apply (more _ _ 4%nat (800%nat, [200; 200; 200; 200], [])); try exact Hf';
        vm_compute; reflexivity.
Qed.

Lemma page_loop_termination_witness :
  (2 <= 3)%nat /\ (2 <= 2)%nat /\
  Api.summary (Api.collect_chat_with_api nat live_video (capped_pages 3) api_key
                 2 start (lit "video") 350)
  = (true, 350%nat, [200; 150], []).
Proof.
  assert (H1 : (2 <= 3)%nat) by (repeat constructor).
  assert (H2 : (2 <= 2)%nat) by constructor.
  split; [exact H1 |]. split; [exact H2 |].
  exact (proj1 (page_loop_termination 3 2 H1 H2)).
Defined.

(** C6 as stated fails for the API collector: an item whose snippet has
    no [displayMessage] gives a record with empty text. *)
Lemma nonempty_text_counterexample :
  let r := Api.collect_chat_with_api nat live_video one_gift api_key 1 start
             (lit "video") 100 in
  Api.returned r = true /\
  map message (Api.value r) = [[]] /\
  ~ Forall (fun m => message m <> []) (Api.value r).
Proof.
  split; [reflexivity |]. split; [reflexivity |].
  intros H. vm_compute in H. inversion H as [| m l Hm _]. now apply Hm.
Qed.

(** C6, amended. Every record of the simulated source and of the manual
    parser has a text that is not empty. The API collector does not
    filter: each item that converts is appended, and the text of its
    record is the item's [displayMessage], or the empty text when the
    item has none. *)
Theorem nonempty_text :
  (forall (stream : nat -> N) (base_time : Z) (N : Z),
      Forall (fun m => message m <> [])
             (Simulated.simulate_chat_data stream base_time N)) /\
  (forall (now : nat -> Z) (hash : str -> Z) (submitted : bool) (chat_input : str),
      Forall (fun m => message m <> [])
             (Manual.collect_chat_manual_input now hash submitted chat_input)) /\
  (forall (server : Type)
          (videos_list : server -> Api.videos_params -> response Api.videos * server)
          (messages_list : server -> Api.page_params -> response Api.page * server)
          (youtube_api_key : option str) (w : Api.world server) (video_id : str)
          (N : Z) (fuel : nat),
      Forall (fun m => exists it sn,
                  Api.message_of_item it = Ok m /\
                  Api.item_snippet it = Some sn /\
                  message m = Api.get (Api.displayMessage sn) [])
             (Api.value (Api.collect_chat_with_api server videos_list messages_list
                           youtube_api_key fuel w video_id N))) /\
  (forall (its : list Api.item) (records messages : list message_data),
      Forall2 (fun it m => Api.message_of_item it = Ok m) its records ->
      Api.append_items its messages = (messages ++ records, None)).
Proof.
  split; [intros; apply SimulatedFacts.simulate_loop_text |].
  split; [intros; apply ManualFacts.collect_text |].
  split; [| intros; now apply ApiFacts.append_items_all].
  intros. apply ApiFacts.collect_Forall. intros it m H.
  destruct (ApiFacts.message_of_item_text it m H) as (sn & H1 & H2).
  now exists it, sn.
Qed.

Lemma nonempty_text_witness :
  Forall2 (fun it m => Api.message_of_item it = Ok m) [mock_item 0]
          [{| author := lit "viewer0"; message := lit "message 0";
              timestamp := TsText (lit "2024-01-01T00:00:00Z");
              author_channel_id := lit "UC0";
              is_moderator := false; is_owner := false; is_verified := false;
              message_type := lit "textMessageEvent" |}] /\
  fst (Api.append_items [mock_item 0] []) <> [].
Proof.
  assert (H : Forall2 (fun it m => Api.message_of_item it = Ok m) [mock_item 0]
                [{| author := lit "viewer0"; message := lit "message 0";
                    timestamp := TsText (lit "2024-01-01T00:00:00Z");
                    author_channel_id := lit "UC0";
                    is_moderator := false; is_owner := false; is_verified := false;
                    message_type := lit "textMessageEvent" |}]).
  { constructor; [reflexivity | constructor]. }
  split; [exact H |].
  rewrite (proj2 (proj2 (proj2 nonempty_text)) _ _ [] H). discriminate.
Defined.

(** C1 as stated fails: for the empty sequence the aggregator returns
    the empty dictionary, so none of the five fields is there. *)
Lemma empty_statistics_counterexample :
  ~ Stats.spec_empty_summary (Stats.generate_chat_statistics stable_desc []).
Proof. intros [H _]. discriminate H. Qed.

(** C1, amended. For the empty sequence the aggregator returns the
    empty dictionary: no field is present. For a sequence that is not
    empty every field is present: the number of messages, the number of
    distinct authors, their quotient, the three role counts, the top
    chatters and the mean text length. This holds whatever the sort
    inside [value_counts] does. *)
Theorem empty_statistics (sort_values : list (str * nat) -> list (str * nat)) :
  Stats.generate_chat_statistics sort_values [] = [] /\
  (forall k, Stats.lookup k (Stats.generate_chat_statistics sort_values []) = None) /\
  (forall m ms,
      let messages := m :: ms in
      let stats := Stats.generate_chat_statistics sort_values messages in
      let n := List.length messages in
      let users := Stats.nunique (map author messages) in
      (0 < users)%nat /\
      Stats.lookup "total_messages" stats = Some (Stats.VInt (Z.of_nat n)) /\
      Stats.lookup "unique_users" stats = Some (Stats.VInt (Z.of_nat users)) /\
      Stats.lookup "messages_per_user" stats
      = Some (Stats.VFloat (Qmake (Z.of_nat n) (Pos.of_nat users))) /\
      Stats.lookup "moderator_messages" stats
      = Some (Stats.VInt (Stats.sum_bool (map is_moderator messages))) /\
      Stats.lookup "owner_messages" stats
      = Some (Stats.VInt (Stats.sum_bool (map is_owner messages))) /\
      Stats.lookup "verified_messages" stats
      = Some (Stats.VInt (Stats.sum_bool (map is_verified messages))) /\
      Stats.lookup "top_chatters" stats
      = Some (Stats.VCounts (Stats.top_chatters sort_values messages)) /\
      Stats.lookup "message_length_avg" stats
      = Some (Stats.VFloat (Stats.str_len_mean (map message messages)))).
Proof.
  split; [reflexivity |]. split; [reflexivity |].
  intros m ms messages stats n users.
  assert (Hu : (0 < users)%nat) by (subst users messages; cbn; lia).
  split; [exact Hu |].
  subst stats. unfold Stats.generate_chat_statistics. subst messages. cbv zeta.
  fold users. apply Nat.ltb_lt in Hu. rewrite Hu.
  repeat split; reflexivity.
Qed.

(** C4 as stated fails: two records of the same display name with
    different channel ids count as one user, where the specified count
    of distinct ids is two. *)
Lemma unique_authors_counterexample :
  let messages := [record "Bob" "UC1"; record "Bob" "UC2"] in
  Stats.lookup "unique_users" (Stats.generate_chat_statistics stable_desc messages)
  = Some (Stats.VInt 1) /\
  Stats.spec_uniqueAuthors messages = 2 /\
  Stats.lookup "unique_users" (Stats.generate_chat_statistics stable_desc messages)
  <> Some (Stats.VInt (Stats.spec_uniqueAuthors messages)).
Proof.
  split; [reflexivity |]. split; [reflexivity |].
  intros H. vm_compute in H. discriminate H.
Qed.

(** C4, amended. The field of unique users is the number of distinct
    author display names of the sequence; the channel ids play no part.
    (For the empty sequence there is no such field.) *)
Theorem unique_authors (sort_values : list (str * nat) -> list (str * nat))
    (messages : list message_data) (names : list str) :
  NoDup names ->
  (forall a, In a names <-> In a (map author messages)) ->
  Stats.lookup "unique_users" (Stats.generate_chat_statistics sort_values messages)
  = match messages with
    | [] => None
    | _ :: _ => Some (Stats.VInt (Z.of_nat (List.length names)))
    end.
Proof.
  intros Hnd Hin. destruct messages as [| m ms]; [reflexivity |].
  rewrite <- (StatsFacts.nunique_spec _ _ Hnd Hin). reflexivity.
Qed.

Lemma unique_authors_witness :
  NoDup [lit "Bob"] /\
  (forall a, In a [lit "Bob"]
             <-> In a (map author [record "Bob" "UC1"; record "Bob" "UC2"])) /\
  Stats.lookup "unique_users"
    (Stats.generate_chat_statistics stable_desc
       [record "Bob" "UC1"; record "Bob" "UC2"])
  = Some (Stats.VInt 1).
Proof.
  assert (H1 : NoDup [lit "Bob"]).
  { constructor; [intros [] | constructor]. }
  assert (H2 : forall a, In a [lit "Bob"]
                         <-> In a (map author [record "Bob" "UC1"; record "Bob" "UC2"])).
  { intros a. split.
    - intros H. left. destruct H as [H | []]. exact H.
    - intros H. left. destruct H as [H | [H | []]]; exact H. }
  split; [exact H1 |]. split; [exact H2 |].
  exact (unique_authors stable_desc
           [record "Bob" "UC1"; record "Bob" "UC2"] [lit "Bob"] H1 H2).
Defined.

(** C7 as stated fails: the order among equal counts is decided by the
    sort inside [value_counts], and a sort that does all that pandas
    documents of it can put B before A although A wrote first. *)
Lemma top_chatters_ranking_counterexample :
  let messages := chat_of (five_five_three "A" "B" "C") in
  let top := Stats.top_chatters reversing_desc messages in
  Stats.descending_sort reversing_desc /\
  (Stats.first_index (lit "A") (map author messages)
   < Stats.first_index (lit "B") (map author messages))%nat /\
  top = [(lit "B", 5%nat); (lit "A", 5%nat); (lit "C", 3%nat)] /\
  ~ StronglySorted (Stats.ranks_above (map author messages)) top.
Proof.
  split; [apply StatsFacts.reversing_desc_contract |].
  split; [vm_compute; lia |].
  split; [reflexivity |].
  intros H. inversion H as [| p l _ Hp]; subst.
  inversion Hp as [| q l' Hq _]; subst.
  destruct Hq as [Hq | [_ Hq]]; vm_compute in Hq; lia.
Qed.

(** C7, amended. With a sort that gives the same entries in descending
    order of the counts, the top chatters are the first ten entries of
    the ranking of the authors: at most ten entries, each author once
    with the number of its messages, in descending order of the counts,
    and no entry left out has a higher count than one of the ten. The
    order among equal counts is the sort's: it is by first appearance
    in the input when the sort leaves equal counts in place, and with
    counts A:5, B:5, C:3 either of A and B can come first, C being
    third. *)
Theorem top_chatters_ranking (sort_values : list (str * nat) -> list (str * nat))
    (messages : list message_data) :
  Stats.descending_sort sort_values ->
  let authors := map author messages in
  let ranking := Stats.value_counts sort_values authors in
  let top := Stats.top_chatters sort_values messages in
  Stats.lookup "top_chatters" (Stats.generate_chat_statistics sort_values messages)
  = match messages with
    | [] => None
    | _ :: _ => Some (Stats.VCounts top)
    end /\
  top = firstn 10 ranking /\
  (List.length top <= 10)%nat /\
  StronglySorted Stats.descending ranking /\
  StronglySorted Stats.descending top /\
  NoDup (map fst ranking) /\
  (forall a c, In (a, c) ranking
               <-> In a authors /\ c = count_occ str_eq_dec authors a) /\
  (forall p q, In p top -> In q (skipn 10 ranking) -> (snd q <= snd p)%nat) /\
  (Stats.keeps_ties sort_values ->
   StronglySorted (Stats.ranks_above authors) ranking /\
   StronglySorted (Stats.ranks_above authors) top) /\
  (forall first second,
      (first = "A" /\ second = "B")%string \/ (first = "B" /\ second = "A")%string ->
      let tied := Stats.top_chatters sort_values
                    (chat_of (five_five_three first second "C")) in
      tied = [(lit "A", 5%nat); (lit "B", 5%nat); (lit "C", 3%nat)] \/
      tied = [(lit "B", 5%nat); (lit "A", 5%nat); (lit "C", 3%nat)]).
Proof.
  intros contract authors ranking top.
  split; [destruct messages; reflexivity |].
  split; [reflexivity |].
  split; [apply firstn_le_length |].
  split; [now apply StatsFacts.value_counts_descending |].
  split; [now apply StatsFacts.StronglySorted_firstn, StatsFacts.value_counts_descending |].
  split; [now apply StatsFacts.value_counts_keys |].
  split; [intros; now apply StatsFacts.value_counts_In |].
  split.
  { intros p q Hp Hq.
    apply (StatsFacts.StronglySorted_split _ Stats.descending 10 ranking p q);
      [now apply StatsFacts.value_counts_descending | exact Hp | exact Hq]. }
  split.
  { intros Hties.
    split; [| apply StatsFacts.StronglySorted_firstn]; now apply StatsFacts.value_counts_sorted. }
  intros first second [[-> ->] | [-> ->]] tied; subst tied;
    unfold Stats.top_chatters, Stats.head, Stats.value_counts.
  - destruct (StatsFacts.three_sorted sort_values (lit "A") (lit "B") (lit "C") contract)
      as [E | E]; try discriminate;
      change (Stats.tally (map author (chat_of (five_five_three "A" "B" "C"))))
        with [(lit "A", 5%nat); (lit "B", 5%nat); (lit "C", 3%nat)];
      rewrite E; [left | right]; reflexivity.
  - destruct (StatsFacts.three_sorted sort_values (lit "B") (lit "A") (lit "C") contract)
      as [E | E]; try discriminate;
      change (Stats.tally (map author (chat_of (five_five_three "B" "A" "C"))))
        with [(lit "B", 5%nat); (lit "A", 5%nat); (lit "C", 3%nat)];
      rewrite E; [right | left]; reflexivity.
Qed.

Lemma top_chatters_ranking_witness :
  let messages := chat_of (five_five_three "A" "B" "C") in
  Stats.descending_sort stable_desc /\
  Stats.keeps_ties stable_desc /\
  Stats.top_chatters stable_desc messages
  = [(lit "A", 5%nat); (lit "B", 5%nat); (lit "C", 3%nat)] /\
  StronglySorted Stats.descending (Stats.top_chatters stable_desc messages) /\
  StronglySorted (Stats.ranks_above (map author messages))
    (Stats.top_chatters stable_desc messages).
Proof.
  intros messages.
  pose proof (top_chatters_ranking stable_desc messages
                StatsFacts.stable_desc_contract) as H.
  cbv zeta in H.
  destruct H as (_ & _ & _ & _ & Hdesc & _ & _ & _ & Hties & _).
  split; [apply StatsFacts.stable_desc_contract |].
  split; [apply StatsFacts.stable_desc_keeps_ties |].
  split; [reflexivity |].
  split; [exact Hdesc |].
  exact (proj2 (Hties StatsFacts.stable_desc_keeps_ties)).
Defined.

(** C9. With a sequence that is not empty and one of the four modes,
    when the completion call fails with an exception, the analysis
    returns the text "Error analyzing chat with Claude: " followed by
    the exception's text, as a normal result; and whatever the
    messages, the mode and the service, the analysis returns a text and
    raises nothing. *)
Theorem remote_failure_is_text (client : Type)
    (create : client -> Insight.create_params -> response Insight.completion * client)
    (repr : str -> str) (w : Insight.world client)
    (m : message_data) (ms : list message_data) (analysis_type : str) :
  In analysis_type Insight.analysis_types ->
  (exists prompt,
      In (analysis_type, prompt) (Insight.prompts (Insight.chat_text (m :: ms))) /\
      forall e c',
        create (Insight.remote w) (Insight.request prompt) = (Raises e, c') ->
        Insight.analyze_with_claude client create repr (m :: ms) analysis_type w
        = (Ok (lit "Error analyzing chat with Claude: " ++ exn_str e),
           {| Insight.remote := c';
              Insight.sent := Insight.sent w ++ [Insight.request prompt] |})) /\
  (forall messages mode w',
      exists text,
        fst (Insight.analyze_with_claude client create repr messages mode w') = Ok text).
Proof.
  intros Hmode. split; [| intros; apply InsightFacts.analyze_returns].
  rewrite <- (InsightFacts.prompts_keys (Insight.chat_text (m :: ms))) in Hmode.
  destruct (InsightFacts.subscript_found client repr _ _ w Hmode) as (prompt & Hin & Hp).
  exists prompt. split; [exact Hin |]. intros e c' Hfail.
  unfold Insight.analyze_with_claude, Insight.try_except, Insight.bind.
  rewrite Hp. unfold Insight.messages_create. rewrite Hfail. reflexivity.
Qed.

Lemma remote_failure_is_text_witness :
  In (lit "sentiment") Insight.analysis_types /\
  exists text,
    fst (Insight.analyze_with_claude unit service_down quoted
           (chat_of ["A"; "B"]%string) (lit "sentiment") (Insight.mk_world tt []))
    = Ok text.
Proof.
  assert (H : In (lit "sentiment") Insight.analysis_types).
  { right. right. left. reflexivity. }
  split; [exact H |].
  exact (proj2 (remote_failure_is_text unit service_down quoted (Insight.mk_world tt [])
                  (record "A" "UC1") (chat_of ["B"]%string) (lit "sentiment") H)
           (chat_of ["A"; "B"]%string) (lit "sentiment") (Insight.mk_world tt [])).
Defined.

(** C10. With a sequence that is not empty and a mode that is none of
    the four tags, the analysis raises nothing: the failed lookup is
    caught by the handler of the remote call, the text "Error analyzing
    chat with Claude: " followed by the printed key is returned, and no
    request is sent to the completion service. *)
Theorem unknown_mode_is_text (client : Type)
    (create : client -> Insight.create_params -> response Insight.completion * client)
    (repr : str -> str) (w : Insight.world client)
    (m : message_data) (ms : list message_data) (analysis_type : str) :
  ~ In analysis_type Insight.analysis_types ->
  Insight.analyze_with_claude client create repr (m :: ms) analysis_type w
  = (Ok (lit "Error analyzing chat with Claude: " ++ repr analysis_type), w) /\
  Insight.sent (snd (Insight.analyze_with_claude client create repr (m :: ms)
                       analysis_type w))
  = Insight.sent w.
Proof.
  intros Hmode.
  assert (E : Insight.analyze_with_claude client create repr (m :: ms) analysis_type w
              = (Ok (lit "Error analyzing chat with Claude: " ++ repr analysis_type), w)).
  { rewrite <- (InsightFacts.prompts_keys (Insight.chat_text (m :: ms))) in Hmode.
    unfold Insight.analyze_with_claude, Insight.try_except, Insight.bind.
    rewrite (InsightFacts.subscript_missing client repr _ _ w Hmode). reflexivity. }
  split; [exact E |]. now rewrite E.
Qed.

Lemma unknown_mode_is_text_witness :
  ~ In (lit "summary") Insight.analysis_types /\
  Insight.analyze_with_claude unit service_down quoted (chat_of ["A"; "B"]%string)
    (lit "summary") (Insight.mk_world tt [])
  = (Ok (lit "Error analyzing chat with Claude: 'summary'"), Insight.mk_world tt []).
Proof.
  assert (H : ~ In (lit "summary") Insight.analysis_types).
  { intros [H | [H | [H | [H | []]]]]; discriminate H. }
  split; [exact H |].
  exact (proj1 (unknown_mode_is_text unit service_down quoted (Insight.mk_world tt [])
                  (record "A" "UC1") (chat_of ["B"]%string) (lit "summary") H)).
Defined.

(** * Further properties *)

(** ** Video id extraction *)

Module UrlFacts.
Import Url.

Lemma after_prefix_Some (p s t : str) : after_prefix p s = Some t -> s = p ++ t.
Proof.
  revert s. induction p as [| a p IH]; intros s; simpl.
  - now intros [= ->].
  - destruct s as [| c s]; [discriminate |].
    destruct (N.eqb_spec a c) as [-> | _]; [| discriminate].
    intros H. apply IH in H. now subst.
Qed.

Lemma after_prefix_app (p s : str) : after_prefix p (p ++ s) = Some s.
Proof.
  induction p as [| a p IH]; simpl; [reflexivity |]. now rewrite N.eqb_refl.
Qed.

(** The run is the allowed front of the text, and stops where the text
    ends or an excluded character stands. *)
Lemma id_run_spec (s : str) :
  exists post, s = id_run s ++ post /\
               Forall (fun c => terminator c = false) (id_run s) /\
               ends_run post.
Proof.
  induction s as [| c s (post & E & Hrun & Hpost)]; cbn [id_run].
  - exists []. repeat split. constructor.
  - destruct (terminator c) eqn:Hc.
    + exists (c :: s). repeat split; [constructor | exact Hc].
    + exists post. split; [cbn [app]; congruence |]. split; [| exact Hpost].
      now constructor.
Qed.

Lemma id_run_app (id post : str) :
  Forall (fun c => terminator c = false) id -> ends_run post ->
  id_run (id ++ post) = id.
Proof.
  intros Hid Hpost. induction Hid as [| c id Hc _ IH]; cbn [app id_run].
  - destruct post as [| c post]; [reflexivity |].
    cbn [id_run]. unfold ends_run in Hpost. now rewrite Hpost.
  - now rewrite Hc, IH.
Qed.

Lemma match_here_sound (alternatives : list str) (s id : str) :
  match_here alternatives s = Some id ->
  allowed id /\
  exists marker post,
    In marker alternatives /\ s = marker ++ id ++ post /\ ends_run post.
Proof.
  induction alternatives as [| a rest IH]; simpl; [discriminate |].
  assert (Hrest : match_here rest s = Some id ->
                  allowed id /\
                  exists marker post,
                    (a = marker \/ In marker rest) /\ s = marker ++ id ++ post /\
                    ends_run post).
  { intros H. destruct (IH H) as (Hid & marker & post & Hin & E & Hpost).
    split; [exact Hid |]. exists marker, post. auto. }
  destruct (after_prefix a s) as [t |] eqn:Ha; [| exact Hrest].
  destruct (id_run t) as [| c run] eqn:Hrun; [exact Hrest |].
  intros [= <-]. apply after_prefix_Some in Ha.
  destruct (id_run_spec t) as (post & Et & Hall & Hpost). rewrite Hrun in Et, Hall.
  split; [split; [discriminate | exact Hall] |].
  exists a, post. split; [now left |]. split; [congruence | exact Hpost].
Qed.

Lemma re_search_sound (alternatives : list str) (s id : str) :
  re_search alternatives s = Some id ->
  allowed id /\
  exists pre marker post,
    In marker alternatives /\ s = pre ++ marker ++ id ++ post /\ ends_run post.
Proof.
  induction s as [| c s IH]; simpl.
  - destruct (match_here alternatives []) as [id' |] eqn:H; [| discriminate].
    intros [= ->]. destruct (match_here_sound _ _ _ H) as (Hid & marker & post & Hin & E & Hp).
    split; [exact Hid |]. now exists [], marker, post.
  - destruct (match_here alternatives (c :: s)) as [id' |] eqn:H.
    + intros [= ->].
      destruct (match_here_sound _ _ _ H) as (Hid & marker & post & Hin & E & Hp).
      split; [exact Hid |]. now exists [], marker, post.
    + intros H'. destruct (IH H') as (Hid & pre & marker & post & Hin & E & Hp).
      split; [exact Hid |]. exists (c :: pre), marker, post.
      split; [exact Hin |]. split; [simpl; congruence | exact Hp].
Qed.

Lemma re_search_here (alternatives : list str) (s id : str) :
  match_here alternatives s = Some id -> re_search alternatives s = Some id.
Proof. intros H. destruct s; cbn [re_search]; now rewrite H. Qed.

(** No match starts at a character that is not the letter y. *)
Lemma match_here_other_letter (alternatives : list str) (c : char) (s : str) :
  Forall (fun a => exists t, a = letter_y :: t) alternatives ->
  c <> letter_y ->
  match_here alternatives (c :: s) = None.
Proof.
  intros Halt Hc. induction Halt as [| a rest (t & ->) _ IH]; [reflexivity |].
  cbn [match_here after_prefix].
  destruct (N.eqb_spec letter_y c) as [E | _]; [congruence | exact IH].
Qed.

Lemma match_here_nil (alternatives : list str) :
  Forall (fun a => exists t, a = letter_y :: t) alternatives ->
  match_here alternatives [] = None.
Proof.
  intros Halt. induction Halt as [| a rest (t & ->) _ IH]; simpl; [reflexivity | exact IH].
Qed.

(** The search skips a front without the letter y. *)
Lemma re_search_skip (alternatives : list str) (pre s : str) :
  Forall (fun a => exists t, a = letter_y :: t) alternatives ->
  Forall (fun c => c <> letter_y) pre ->
  re_search alternatives (pre ++ s) = re_search alternatives s.
Proof.
  intros Halt Hpre. induction Hpre as [| c pre Hc _ IH]; [reflexivity |].
  cbn [app re_search]. now rewrite (match_here_other_letter _ _ _ Halt Hc).
Qed.

Lemma re_search_none (alternatives : list str) (s : str) :
  Forall (fun a => exists t, a = letter_y :: t) alternatives ->
  Forall (fun c => c <> letter_y) s ->
  re_search alternatives s = None.
Proof.
  intros Halt Hs. rewrite <- (app_nil_r s), (re_search_skip _ _ _ Halt Hs).
  simpl. now rewrite match_here_nil.
Qed.

Lemma watch_markers_y : Forall (fun a => exists t, a = letter_y :: t) watch_markers.
Proof. repeat constructor; eexists; reflexivity. Qed.

Lemma live_markers_y : Forall (fun a => exists t, a = letter_y :: t) live_markers.
Proof. repeat constructor; eexists; reflexivity. Qed.

Lemma allowed_run (id post : str) :
  allowed id -> ends_run post ->
  exists c run, id = c :: run /\ id_run (id ++ post) = c :: run.
Proof.
  intros [Hne Hall] Hpost. destruct id as [| c run]; [congruence |].
  exists c, run. split; [reflexivity |]. now apply id_run_app.
Qed.

(** A literal does not start a text that starts with one it diverges
    from. *)
Lemma after_prefix_diverge (a m rest : str) :
  diverge a m = true -> after_prefix a (m ++ rest) = None.
Proof.
  revert m. induction a as [| x a IH]; intros [| y m]; simpl; try discriminate.
  destruct (x =? y)%N; [apply IH | reflexivity].
Qed.

Lemma match_here_diverge (alternatives : list str) (m rest : str) :
  Forall (fun a => diverge a m = true) alternatives ->
  match_here alternatives (m ++ rest) = None.
Proof.
  intros H. induction H as [| a alternatives Ha _ IH]; [reflexivity |].
  cbn [match_here]. now rewrite (after_prefix_diverge _ _ _ Ha).
Qed.

Lemma match_here_watch (marker id post : str) :
  In marker watch_markers -> allowed id -> ends_run post ->
  match_here watch_markers (marker ++ id ++ post) = Some id.
Proof.
  intros Hin Hid Hpost.
  destruct (allowed_run id post Hid Hpost) as (c & run & -> & Hrun).
  unfold watch_markers in *.
  destruct Hin as [<- | [<- | [<- | []]]]; cbn [match_here];
    repeat (rewrite after_prefix_diverge by reflexivity);
    rewrite after_prefix_app, Hrun; reflexivity.
Qed.

Lemma match_here_live (id post : str) :
  allowed id -> ends_run post ->
  match_here live_markers (lit "youtube.com/live/" ++ id ++ post) = Some id.
Proof.
  intros Hid Hpost.
  destruct (allowed_run id post Hid Hpost) as (c & run & -> & Hrun).
  unfold live_markers. cbn [match_here].
  rewrite after_prefix_app, Hrun. reflexivity.
Qed.

(** The first pattern finds nothing inside the marker of the second. *)
Lemma re_search_watch_live (rest : str) :
  re_search watch_markers (lit "youtube.com/live/" ++ rest)
  = re_search watch_markers rest.
Proof.
  assert (Hm : match_here watch_markers (lit "youtube.com/live/" ++ rest) = None).
  { apply match_here_diverge. repeat constructor. }
  change (lit "youtube.com/live/" ++ rest)
    with (letter_y :: (lit "outube.com/live/" ++ rest)) in *.
  cbn [re_search]. rewrite Hm.
  apply re_search_skip; [apply watch_markers_y |].
  repeat constructor; discriminate.
Qed.

End UrlFacts.

(** ** The trace of the API collector *)

Module TraceFacts.
Section TraceFacts.
Import Api Trace.

Variable server : Type.
Variable videos_list : server -> videos_params -> response videos * server.
Variable messages_list : server -> page_params -> response page * server.
Variable youtube_api_key : option str.

Abbreviation get_live_chat_id :=
  (Api.get_live_chat_id server videos_list youtube_api_key).
Abbreviation page_loop := (Api.page_loop server messages_list).
Abbreviation collect_chat_with_api :=
  (Api.collect_chat_with_api server videos_list messages_list youtube_api_key).
Abbreviation emit := (Api.emit server).

Lemma requests_in_app (a b : list event) :
  requests_in (a ++ b) = requests_in a ++ requests_in b.
Proof. apply flat_map_app. Qed.

Lemma requests_in_other (events : list event) :
  Forall (fun e => of_loop e = false) events -> requests_in events = [].
Proof.
  intros H. induction H as [| e events He _ IH]; [reflexivity |].
  destruct e; try discriminate; exact IH.
Qed.

Lemma filter_of_loop_other (events : list event) :
  Forall (fun e => of_loop e = false) events -> filter of_loop events = [].
Proof.
  intros H. induction H as [| e events He _ IH]; [reflexivity |].
  simpl. now rewrite He.
Qed.

Lemma filter_of_loop_all (events : list event) :
  Forall (fun e => of_loop e = true) events -> filter of_loop events = events.
Proof.
  intros H. induction H as [| e events He _ IH]; [reflexivity |].
  simpl. now rewrite He, IH.
Qed.

(** The video lookup leaves no event of the page loop. *)
Lemma get_live_chat_id_trace (w : world server) (video_id : str) :
  exists events,
    trace (snd (get_live_chat_id w video_id)) = trace w ++ events /\
    Forall (fun e => of_loop e = false) events.
Proof.
  unfold Api.get_live_chat_id.
  destruct youtube_api_key as [api_key |];
    [| exists []; now rewrite app_nil_r].
  destruct (truthy api_key); [| exists []; now rewrite app_nil_r].
  destruct (videos_list _ _) as [[data | e] srv].
  - eexists. split.
    + destruct (video_items data) as [[| v rest] |]; reflexivity.
    + repeat constructor.
  - eexists. split.
    + cbn [snd Api.emit trace]. rewrite <- app_assoc. reflexivity.
    + repeat constructor.
Qed.

Section Loop.

Variable api_key chat_id : str.
Variable max_messages : Z.

Abbreviation loop := (page_loop api_key chat_id max_messages).

(** What the page loop adds to the trace. *)
Lemma page_loop_trace (fuel : nat) (w : world server)
    (messages : list message_data) (token : option str) :
  exists events,
    trace (snd (loop fuel w messages token)) = trace w ++ events /\
    Forall (fun e => of_loop e = true) events /\
    paced events /\
    Forall (well_formed api_key chat_id) (requests_in events) /\
    match requests_in events with
    | [] => True
    | p :: rest =>
        pageToken p = (if truthy_opt token then token else None) /\
        Forall (fun q => truthy_opt (pageToken q) = true) rest
    end.
Proof.
  revert w messages token.
  induction fuel as [| fuel IH]; intros w messages token; cbn [Api.page_loop];
    destruct (Z.ltb_spec (Z.of_nat (List.length messages)) max_messages) as [Hlt | Hge];
    try (exists []; rewrite app_nil_r; repeat split; constructor).
  set (params := {| liveChatId := chat_id;
                    part := lit "snippet,authorDetails";
                    key := api_key;
                    maxResults := Z.min 200 (max_messages - Z.of_nat (List.length messages));
                    pageToken := if truthy_opt token then token else None |}).
  assert (Hwf : well_formed api_key chat_id params).
  { unfold well_formed, params. cbn. repeat split; lia. }
  assert (one : forall srv,
             exists events,
               trace (emit (GetMessages params) {| remote := srv; trace := trace w |})
               = trace w ++ events /\
               Forall (fun e => of_loop e = true) events /\
               paced events /\
               Forall (well_formed api_key chat_id) (requests_in events) /\
               match requests_in events with
               | [] => True
               | p :: rest =>
                   pageToken p = (if truthy_opt token then token else None) /\
                   Forall (fun q => truthy_opt (pageToken q) = true) rest
               end).
  { intros srv. exists [GetMessages params].
    split; [reflexivity |]. split; [repeat constructor |].
    split; [exact I |]. cbn [requests_in flat_map app].
    split; [constructor; [exact Hwf | constructor] |].
    split; [reflexivity | constructor]. }
  destruct (messages_list (remote w) params) as [[data | e] srv]; [| apply one].
  destruct (items data) as [its |]; [| apply one].
  destruct (append_items its messages) as [messages' [e |]]; [apply one |].
  destruct (truthy_opt (nextPageToken data)) eqn:Etok; [| apply one].
  destruct (IH (emit (Sleep 1) (emit (GetMessages params)
                                  {| remote := srv; trace := trace w |}))
               messages' (nextPageToken data))
    as (events & Etr & Hall & Hp & Hwfs & Htok).
  exists (GetMessages params :: Sleep 1 :: events).
  split; [rewrite Etr; cbn [Api.emit trace]; now rewrite <- !app_assoc |].
  split; [now repeat constructor |].
  split; [cbn; now split |].
  cbn [requests_in flat_map app]. fold (requests_in events).
  split; [now constructor |].
  split; [reflexivity |].
  rewrite Etok in Htok.
  destruct (requests_in events) as [| q rest]; [constructor |].
  destruct Htok as [Hq Hrest]. constructor; [| exact Hrest].
  now rewrite Hq.
Qed.

End Loop.

(** What a call of the collector adds to the trace: the events of the
    page loop among them are paced, and the page requests are well
    formed for the key and the chat that was resolved. *)
Lemma collect_trace (fuel : nat) (w : world server) (video_id : str)
    (max_messages : Z) :
  exists events,
    trace (final (collect_chat_with_api fuel w video_id max_messages))
    = trace w ++ events /\
    paced (filter of_loop events) /\
    tokens_chained (requests_in events) /\
    Forall (fun p => exists api_key chat_id,
                youtube_api_key = Some api_key /\
                fst (get_live_chat_id w video_id) = Some chat_id /\
                well_formed api_key chat_id p)
           (requests_in events).
Proof.
  assert (error : forall (w' : world server) text pre,
             trace w' = trace w ++ pre ->
             Forall (fun e => of_loop e = false) pre ->
             exists events,
               trace (emit (StError text) w') = trace w ++ events /\
               paced (filter of_loop events) /\
               tokens_chained (requests_in events) /\
               Forall (fun p => exists api_key chat_id,
                           youtube_api_key = Some api_key /\
                           fst (get_live_chat_id w video_id) = Some chat_id /\
                           well_formed api_key chat_id p)
                      (requests_in events)).
  { intros w' text pre E Hpre. exists (pre ++ [StError text]).
    assert (Hall : Forall (fun e => of_loop e = false) (pre ++ [StError text])).
    { apply Forall_app. split; [exact Hpre | repeat constructor]. }
    cbn [Api.emit trace]. rewrite E, <- app_assoc.
    rewrite (filter_of_loop_other _ Hall), (requests_in_other _ Hall).
    repeat split; constructor. }
  unfold Api.collect_chat_with_api.
  destruct youtube_api_key as [api_key |] eqn:Ekey;
    [| apply (error w _ []); [now rewrite app_nil_r | constructor]].
  destruct (truthy api_key) eqn:Etruthy;
    [| apply (error w _ []); [now rewrite app_nil_r | constructor]].
  destruct (get_live_chat_id_trace w video_id) as (pre & Epre & Hpre).
  rewrite Ekey in Epre.
  destruct (Api.get_live_chat_id server videos_list (Some api_key) w video_id)
    as [chat w1] eqn:Echat.
  cbn [snd] in Epre.
  destruct (truthy_opt chat) eqn:Etc; [| now apply (error w1 _ pre)].
  destruct chat as [chat_id |]; [| discriminate]. cbn [get].
  destruct (page_loop_trace api_key chat_id max_messages fuel w1 [] None)
    as (events & Etr & Hall & Hp & Hwf & Htok).
  assert (shape : forall post,
             Forall (fun e => of_loop e = false) post ->
             paced (filter of_loop (pre ++ events ++ post)) /\
             tokens_chained (requests_in (pre ++ events ++ post)) /\
             Forall (fun p => exists api_key0 chat_id0,
                         Some api_key = Some api_key0 /\
                         fst (Some chat_id, w1) = Some chat_id0 /\
                         well_formed api_key0 chat_id0 p)
                    (requests_in (pre ++ events ++ post))).
  { intros post Hpost.
    rewrite !filter_app, !requests_in_app.
    rewrite (filter_of_loop_other _ Hpre), (filter_of_loop_other _ Hpost).
    rewrite (requests_in_other _ Hpre), (requests_in_other _ Hpost).
    rewrite (filter_of_loop_all _ Hall), !app_nil_r. cbn [app].
    split; [exact Hp |]. split; [exact Htok |].
    eapply Forall_impl; [| exact Hwf]. intros p Hp'.
    exists api_key, chat_id.
    split; [reflexivity | split; [reflexivity | exact Hp']]. }
  destruct (page_loop api_key chat_id max_messages fuel w1 [] None)
    as [[[| e |] messages] w2]; cbn [snd] in Etr; cbn [final].
  - exists (pre ++ events ++ []). split; [| apply shape; constructor].
    now rewrite Etr, Epre, app_nil_r, app_assoc.
  - exists (pre ++ events ++ [StError (lit "Error collecting chat: " ++ exn_str e)]).
    split; [| apply shape; repeat constructor].
    cbn [Api.emit trace]. now rewrite Etr, Epre, <- !app_assoc.
  - exists (pre ++ events ++ []). split; [| apply shape; constructor].
    now rewrite Etr, Epre, app_nil_r, app_assoc.
Qed.

End TraceFacts.
End TraceFacts.

(** X1. When [extract_video_id] returns an id, the id is not empty, has
    none of the characters [&], newline, [?], [#], and stands in the
    URL right after one of the four markers, up to the end of the URL
    or to the first of those characters. *)
Theorem extract_video_id_sound (url id : str) :
  Url.extract_video_id url = Some id ->
  Url.allowed id /\
  exists pre marker post,
    In marker (Url.watch_markers ++ Url.live_markers) /\
    url = pre ++ marker ++ id ++ post /\
    Url.ends_run post.
Proof.
  unfold Url.extract_video_id, Url.patterns. cbn [Url.first_match].
  destruct (Url.re_search Url.watch_markers url) as [id1 |] eqn:H1.
  - intros [= ->].
    destruct (UrlFacts.re_search_sound _ _ _ H1) as (Hid & pre & marker & post & Hin & E & Hp).
    split; [exact Hid |]. exists pre, marker, post.
    split; [apply in_or_app; now left | now split].
  - destruct (Url.re_search Url.live_markers url) as [id2 |] eqn:H2; [| discriminate].
    intros [= ->].
    destruct (UrlFacts.re_search_sound _ _ _ H2) as (Hid & pre & marker & post & Hin & E & Hp).
    split; [exact Hid |]. exists pre, marker, post.
    split; [apply in_or_app; now right | now split].
Qed.

Lemma extract_video_id_sound_witness :
  Url.extract_video_id (lit "https://youtu.be/abc123?t=5") = Some (lit "abc123") /\
  Url.allowed (lit "abc123").
Proof.
  assert (H : Url.extract_video_id (lit "https://youtu.be/abc123?t=5")
              = Some (lit "abc123")) by reflexivity.
  split; [exact H |].
  exact (proj1 (extract_video_id_sound _ _ H)).
Defined.

(** X2. A URL made of a front without the letter y (such as
    "https://www."), one of the markers "youtube.com/watch?v=",
    "youtu.be/", "youtube.com/embed/", an id of allowed characters and
    then nothing, or a rest that starts with [&], newline, [?] or [#],
    gives back exactly that id. *)
Theorem extract_video_id_watch (pre marker id post : str) :
  Forall (fun c => c <> Url.letter_y) pre ->
  In marker Url.watch_markers ->
  Url.allowed id ->
  Url.ends_run post ->
  Url.extract_video_id (pre ++ marker ++ id ++ post) = Some id.
Proof.
  intros Hpre Hin Hid Hpost.
  unfold Url.extract_video_id, Url.patterns. cbn [Url.first_match].
  rewrite (UrlFacts.re_search_skip _ _ _ UrlFacts.watch_markers_y Hpre).
  now rewrite (UrlFacts.re_search_here _ _ _
                 (UrlFacts.match_here_watch marker id post Hin Hid Hpost)).
Qed.

Lemma extract_video_id_watch_witness :
  Forall (fun c => c <> Url.letter_y) (lit "https://www.") /\
  In (lit "youtube.com/watch?v=") Url.watch_markers /\
  Url.allowed (lit "dQw4w9WgXcQ") /\
  Url.ends_run (lit "&t=42s") /\
  Url.extract_video_id (lit "https://www.youtube.com/watch?v=dQw4w9WgXcQ&t=42s")
  = Some (lit "dQw4w9WgXcQ").
Proof.
  assert (H1 : Forall (fun c => c <> Url.letter_y) (lit "https://www."))
    by (repeat constructor; discriminate).
  assert (H2 : In (lit "youtube.com/watch?v=") Url.watch_markers) by (left; reflexivity).
  assert (H3 : Url.allowed (lit "dQw4w9WgXcQ"))
    by (split; [discriminate | repeat constructor]).
  assert (H4 : Url.ends_run (lit "&t=42s")) by reflexivity.
  split; [exact H1 |]. split; [exact H2 |]. split; [exact H3 |]. split; [exact H4 |].
  exact (extract_video_id_watch _ _ _ _ H1 H2 H3 H4).
Defined.

(** X3. A URL made of a front without the letter y, the marker
    "youtube.com/live/", an allowed id and a rest at which the id stops
    gives back that id, provided the first pattern finds nothing in the
    id and the rest. And the live pattern is tried second: when such a
    URL goes on, after a text that stops the live id, with one of the
    markers of the first pattern and a second id (front, live id and
    the text in between without the letter y), the live pattern on its
    own finds the live id, but [extract_video_id] gives the second
    id. *)
Theorem extract_video_id_live :
  (forall pre id post,
      Forall (fun c => c <> Url.letter_y) pre ->
      Url.allowed id ->
      Url.ends_run post ->
      Url.re_search Url.watch_markers (id ++ post) = None ->
      Url.extract_video_id (pre ++ lit "youtube.com/live/" ++ id ++ post) = Some id) /\
  (forall pre live_id between marker id post,
      Forall (fun c => c <> Url.letter_y) (pre ++ live_id ++ between) ->
      Url.allowed live_id ->
      between <> [] ->
      Url.ends_run between ->
      In marker Url.watch_markers ->
      Url.allowed id ->
      Url.ends_run post ->
      let url := pre ++ lit "youtube.com/live/" ++ live_id ++ between
                 ++ marker ++ id ++ post in
      Url.re_search Url.live_markers url = Some live_id /\
      Url.extract_video_id url = Some id).
Proof.
  split.
  - intros pre id post Hpre Hid Hpost Hnone.
    unfold Url.extract_video_id, Url.patterns. cbn [Url.first_match].
    rewrite (UrlFacts.re_search_skip _ _ _ UrlFacts.watch_markers_y Hpre).
    rewrite UrlFacts.re_search_watch_live, Hnone.
    rewrite (UrlFacts.re_search_skip _ _ _ UrlFacts.live_markers_y Hpre).
    now rewrite (UrlFacts.re_search_here _ _ _ (UrlFacts.match_here_live id post Hid Hpost)).
  - intros pre live_id between marker id post Hy Hlive Hne Hbetween Hin Hid Hpost url.
    apply Forall_app in Hy. destruct Hy as [Hpre Hy].
    assert (Hstop : Url.ends_run (between ++ marker ++ id ++ post)).
    { destruct between as [| c between]; [contradiction | exact Hbetween]. }
    subst url. split.
    + rewrite (UrlFacts.re_search_skip _ _ _ UrlFacts.live_markers_y Hpre).
      apply UrlFacts.re_search_here.
      now apply (UrlFacts.match_here_live live_id (between ++ marker ++ id ++ post)).
    + unfold Url.extract_video_id, Url.patterns. cbn [Url.first_match].
      rewrite (UrlFacts.re_search_skip _ _ _ UrlFacts.watch_markers_y Hpre).
      rewrite UrlFacts.re_search_watch_live.
      rewrite (app_assoc live_id between).
      rewrite (UrlFacts.re_search_skip _ _ _ UrlFacts.watch_markers_y Hy).
      now rewrite (UrlFacts.re_search_here _ _ _
                     (UrlFacts.match_here_watch marker id post Hin Hid Hpost)).
Qed.

Lemma extract_video_id_live_witness :
  (Forall (fun c => c <> Url.letter_y) (lit "https://www.") /\
   Url.allowed (lit "jfKfPfyJRdk") /\
   Url.ends_run (lit "?si=abc") /\
   Url.re_search Url.watch_markers (lit "jfKfPfyJRdk" ++ lit "?si=abc") = None /\
   Url.extract_video_id (lit "https://www.youtube.com/live/jfKfPfyJRdk?si=abc")
   = Some (lit "jfKfPfyJRdk")) /\
  (Forall (fun c => c <> Url.letter_y) (lit "https://www." ++ lit "abc" ++ lit "?next=") /\
   Url.allowed (lit "abc") /\
   lit "?next=" <> [] /\
   Url.ends_run (lit "?next=") /\
   In (lit "youtu.be/") Url.watch_markers /\
   Url.allowed (lit "zzz") /\
   Url.ends_run [] /\
   Url.re_search Url.live_markers
     (lit "https://www.youtube.com/live/abc?next=youtu.be/zzz") = Some (lit "abc") /\
   Url.extract_video_id (lit "https://www.youtube.com/live/abc?next=youtu.be/zzz")
   = Some (lit "zzz")).
Proof.
  assert (H1 : Forall (fun c => c <> Url.letter_y) (lit "https://www."))
    by (repeat constructor; discriminate).
  assert (H2 : Url.allowed (lit "jfKfPfyJRdk"))
    by (split; [discriminate | repeat constructor]).
  assert (H3 : Url.ends_run (lit "?si=abc")) by reflexivity.
  assert (H4 : Url.re_search Url.watch_markers (lit "jfKfPfyJRdk" ++ lit "?si=abc") = None)
    by reflexivity.
  assert (G1 : Forall (fun c => c <> Url.letter_y)
                 (lit "https://www." ++ lit "abc" ++ lit "?next="))
    by (repeat constructor; discriminate).
  assert (G2 : Url.allowed (lit "abc")) by (split; [discriminate | repeat constructor]).
  assert (G3 : lit "?next=" <> []) by discriminate.
  assert (G4 : Url.ends_run (lit "?next=")) by reflexivity.
  assert (G5 : In (lit "youtu.be/") Url.watch_markers) by (right; left; reflexivity).
  assert (G6 : Url.allowed (lit "zzz")) by (split; [discriminate | repeat constructor]).
  assert (G7 : Url.ends_run []) by exact I.
  split.
  - split; [exact H1 |]. split; [exact H2 |]. split; [exact H3 |]. split; [exact H4 |].
    exact (proj1 extract_video_id_live _ _ _ H1 H2 H3 H4).
  - split; [exact G1 |]. split; [exact G2 |]. split; [exact G3 |]. split; [exact G4 |].
    split; [exact G5 |]. split; [exact G6 |]. split; [exact G7 |].
    exact (proj2 extract_video_id_live (lit "https://www.") (lit "abc") (lit "?next=")
             (lit "youtu.be/") (lit "zzz") [] G1 G2 G3 G4 G5 G6 G7).
Defined.

(** X4. When the API key is missing or empty, when the live chat cannot
    be resolved, or when the target is not positive, the collector
    returns the empty list without a single page request; in the first
    two cases it shows one more error. *)
Theorem collector_no_page_request (server : Type)
    (videos_list : server -> Api.videos_params -> response Api.videos * server)
    (messages_list : server -> Api.page_params -> response Api.page * server)
    (youtube_api_key : option str) (fuel : nat) (w : Api.world server)
    (video_id : str) (N : Z) :
  Api.truthy_opt youtube_api_key = false \/
  Api.truthy_opt (fst (Api.get_live_chat_id server videos_list youtube_api_key w video_id))
  = false \/
  N <= 0 ->
  let lookup := Api.get_live_chat_id server videos_list youtube_api_key w video_id in
  let r := Api.collect_chat_with_api server videos_list messages_list youtube_api_key
             fuel w video_id N in
  Api.value r = [] /\
  Api.returned r = true /\
  Api.page_requests (Api.final r) = Api.page_requests w /\
  (Api.truthy_opt youtube_api_key = false \/ Api.truthy_opt (fst lookup) = false ->
   exists text, Api.st_errors (Api.final r) = Api.st_errors (snd lookup) ++ [text]).
Proof.
  intros H lookup r. subst lookup r.
  assert (Hreq : Api.page_requests
                   (snd (Api.get_live_chat_id server videos_list youtube_api_key w video_id))
                 = Api.page_requests w).
  { destruct (TraceFacts.get_live_chat_id_trace server videos_list youtube_api_key
                w video_id) as (pre & E & Hpre).
    unfold Api.page_requests. rewrite E.
    change (Trace.requests_in (Api.trace w ++ pre) = Trace.requests_in (Api.trace w)).
    now rewrite TraceFacts.requests_in_app, (TraceFacts.requests_in_other _ Hpre), app_nil_r. }
  assert (Herr : forall (w' : Api.world server) text,
             Api.page_requests (Api.emit server (Api.StError text) w') = Api.page_requests w' /\
             Api.st_errors (Api.emit server (Api.StError text) w') = Api.st_errors w' ++ [text]).
  { intros w' text. unfold Api.page_requests, Api.st_errors, Api.emit. cbn [Api.trace].
    rewrite !flat_map_app. cbn. now rewrite app_nil_r. }
  unfold Api.collect_chat_with_api, Api.get_live_chat_id in *.
  destruct youtube_api_key as [api_key |]; cbn [Api.truthy_opt] in *.
  2:{ cbn. repeat split; try apply Herr. intros _. eexists. apply Herr. }
  destruct (truthy api_key) eqn:Ekey.
  2:{ cbn. repeat split; try apply Herr. intros _. eexists. apply Herr. }
  match goal with
  | |- context [let (chat, w1) := ?c in _] => destruct c as [chat w1] eqn:Echat
  end.
  cbn [fst snd] in *.
  destruct (Api.truthy_opt chat) eqn:Etc.
  - destruct H as [H | [H | H]]; try discriminate.
    cbn [Api.page_loop].
    destruct fuel; cbn [Api.page_loop List.length];
      destruct (Z.ltb_spec (Z.of_nat 0) N) as [Hlt | _]; try (cbn in Hlt; lia);
      cbn; (split; [reflexivity |]); (split; [reflexivity |]);
      (split; [exact Hreq |]); intros [F | F]; discriminate.
  - cbn [Api.value Api.returned Api.final].
    split; [reflexivity |]. split; [reflexivity |].
    split; [now rewrite (proj1 (Herr w1 _)) |].
    intros _. eexists. apply Herr.
Qed.

Lemma collector_no_page_request_witness :
  (Api.truthy_opt None = false \/
   Api.truthy_opt (fst (Api.get_live_chat_id nat live_video None start (lit "video")))
   = false \/
   350 <= 0) /\
  Api.value (Api.collect_chat_with_api nat live_video (full_pages 3) None 2 start
               (lit "video") 350) = [].
Proof.
  assert (H : Api.truthy_opt None = false \/
              Api.truthy_opt (fst (Api.get_live_chat_id nat live_video None start
                                     (lit "video"))) = false \/
              350 <= 0) by (left; reflexivity).
  split; [exact H |].
  exact (proj1 (collector_no_page_request nat live_video (full_pages 3) None 2 start
                  (lit "video") 350 H)).
Defined.

(** X5. When the video lookup raises, the collector returns the empty
    list after that one request: it shows the lookup error, then the
    error that the chat could not be resolved, and requests no page. *)
Theorem collector_lookup_failure (server : Type)
    (videos_list : server -> Api.videos_params -> response Api.videos * server)
    (messages_list : server -> Api.page_params -> response Api.page * server)
    (api_key : str) (fuel : nat) (w : Api.world server) (video_id : str) (N : Z)
    (e : exn) (srv : server) :
  truthy api_key = true ->
  videos_list (Api.remote w)
    {| Api.v_part := lit "liveStreamingDetails"; Api.v_id := video_id;
       Api.v_key := api_key |}
  = (Raises e, srv) ->
  Api.collect_chat_with_api server videos_list messages_list (Some api_key)
    fuel w video_id N
  = Api.Returned []
      {| Api.remote := srv;
         Api.trace :=
           Api.trace w ++
           [ Api.GetVideos {| Api.v_part := lit "liveStreamingDetails";
                              Api.v_id := video_id; Api.v_key := api_key |};
             Api.StError (lit "Error getting live chat ID: " ++ exn_str e);
             Api.StError (lit "Could not get live chat ID. Stream may not be live or chat may be disabled.") ] |}.
Proof.
  intros Hkey Hcall.
  unfold Api.collect_chat_with_api, Api.get_live_chat_id. rewrite Hkey, Hcall.
  cbn [Api.truthy_opt]. unfold Api.emit. cbn [Api.trace Api.remote].
  now rewrite <- !app_assoc.
Qed.

Lemma collector_lookup_failure_witness :
  truthy (lit "key") = true /\
  Api.value (Api.collect_chat_with_api nat Samples.lookup_down (full_pages 3)
               (Some (lit "key")) 2 start (lit "video") 350) = [].
Proof.
  assert (H : truthy (lit "key") = true) by reflexivity.
  split; [exact H |].
  exact (f_equal Api.value
           (collector_lookup_failure nat Samples.lookup_down (full_pages 3) (lit "key")
              2 start (lit "video") 350 _ _ H eq_refl)).
Defined.

(** X6. Every page request of the collector asks for between 1 and 200
    results, for the chat that the lookup resolved, with the part
    "snippet,authorDetails" and the API key; the first one carries no
    page token and every later one carries a token that is not empty. *)
Theorem page_requests_well_formed (server : Type)
    (videos_list : server -> Api.videos_params -> response Api.videos * server)
    (messages_list : server -> Api.page_params -> response Api.page * server)
    (youtube_api_key : option str) (fuel : nat) (w : Api.world server)
    (video_id : str) (N : Z) :
  exists events,
    Api.trace (Api.final (Api.collect_chat_with_api server videos_list messages_list
                            youtube_api_key fuel w video_id N))
    = Api.trace w ++ events /\
    Trace.tokens_chained (Trace.requests_in events) /\
    Forall (fun p => exists api_key chat_id,
                youtube_api_key = Some api_key /\
                fst (Api.get_live_chat_id server videos_list youtube_api_key w video_id)
                = Some chat_id /\
                Trace.well_formed api_key chat_id p)
           (Trace.requests_in events).
Proof.
  destruct (TraceFacts.collect_trace server videos_list messages_list youtube_api_key
              fuel w video_id N) as (events & E & _ & Htok & Hwf).
  now exists events.
Qed.

(** X7. Between two page requests the collector always pauses for one
    second: the page requests and pauses it adds to the trace come in
    turn, a request first. *)
Theorem page_requests_paced (server : Type)
    (videos_list : server -> Api.videos_params -> response Api.videos * server)
    (messages_list : server -> Api.page_params -> response Api.page * server)
    (youtube_api_key : option str) (fuel : nat) (w : Api.world server)
    (video_id : str) (N : Z) :
  exists events,
    Api.trace (Api.final (Api.collect_chat_with_api server videos_list messages_list
                            youtube_api_key fuel w video_id N))
    = Api.trace w ++ events /\
    Trace.paced (filter Trace.of_loop events).
Proof.
  destruct (TraceFacts.collect_trace server videos_list messages_list youtube_api_key
              fuel w video_id N) as (events & E & Hp & _).
  now exists events.
Qed.

(** A page item that does not convert cuts the page short: the items
    before it are appended, the ones after it are not looked at. *)
Lemma append_items_partial (good rest : list Api.item) (bad : Api.item)
    (records messages : list message_data) (e : exn) :
  Forall2 (fun it m => Api.message_of_item it = Ok m) good records ->
  Api.message_of_item bad = Raises e ->
  Api.append_items (good ++ bad :: rest) messages = (messages ++ records, Some e).
Proof.
  intros H Hbad. revert messages.
  induction H as [| it m good records Hm _ IH]; intros messages; cbn [app Api.append_items].
  - now rewrite Hbad, app_nil_r.
  - rewrite Hm, IH, <- app_assoc. reflexivity.
Qed.

(** X8. Partial results: when the first page holds an item without
    ['snippet'] or ['authorDetails'], the collector returns the records
    of the items before it, shows the error of that item and requests
    no further page. *)
Theorem malformed_item_keeps_earlier (server : Type)
    (videos_list : server -> Api.videos_params -> response Api.videos * server)
    (messages_list : server -> Api.page_params -> response Api.page * server)
    (api_key chat_id : str) (fuel : nat) (w w1 : Api.world server) (video_id : str)
    (N : Z) (data : Api.page) (srv : server)
    (good rest : list Api.item) (bad : Api.item) (records : list message_data) (e : exn) :
  truthy api_key = true ->
  Api.get_live_chat_id server videos_list (Some api_key) w video_id = (Some chat_id, w1) ->
  truthy chat_id = true ->
  0 < N ->
  messages_list (Api.remote w1)
    {| Api.liveChatId := chat_id; Api.part := lit "snippet,authorDetails";
       Api.key := api_key; Api.maxResults := Z.min 200 N; Api.pageToken := None |}
  = (Ok data, srv) ->
  Api.items data = Some (good ++ bad :: rest) ->
  Forall2 (fun it m => Api.message_of_item it = Ok m) good records ->
  Api.message_of_item bad = Raises e ->
  Api.collect_chat_with_api server videos_list messages_list (Some api_key)
    (S fuel) w video_id N
  = Api.Returned records
      {| Api.remote := srv;
         Api.trace :=
           Api.trace w1 ++
           [ Api.GetMessages
               {| Api.liveChatId := chat_id; Api.part := lit "snippet,authorDetails";
                  Api.key := api_key; Api.maxResults := Z.min 200 N;
                  Api.pageToken := None |};
             Api.StError (lit "Error collecting chat: " ++ exn_str e) ] |}.
Proof.
  intros Hkey Hchat Hid HN Hcall Hitems Hgood Hbad.
  unfold Api.collect_chat_with_api. rewrite Hkey, Hchat.
  cbn [Api.truthy_opt Api.get]. rewrite Hid.
  cbn [Api.page_loop List.length Api.truthy_opt].
  destruct (Z.ltb_spec (Z.of_nat 0) N) as [_ | Hge]; [| cbn in Hge; lia].
  change (Z.of_nat 0) with 0. rewrite Z.sub_0_r, Hcall, Hitems.
  rewrite (append_items_partial good rest bad records [] e Hgood Hbad).
  cbn [app]. unfold Api.emit. cbn [Api.trace Api.remote].
  now rewrite <- !app_assoc.
Qed.

Lemma malformed_item_keeps_earlier_witness :
  map message
    (Api.value (Api.collect_chat_with_api nat live_video Samples.broken_page api_key
                  1 start (lit "video") 100))
  = [lit "message 0"; lit "message 1"].
Proof.
  assert (Hgood : Forall2 (fun it m => Api.message_of_item it = Ok m)
                    [mock_item 0; mock_item 1]
                    [ {| author := lit "viewer0"; message := lit "message 0";
                         timestamp := TsText (lit "2024-01-01T00:00:00Z");
                         author_channel_id := lit "UC0";
                         is_moderator := false; is_owner := false; is_verified := false;
                         message_type := lit "textMessageEvent" |};
                      {| author := lit "viewer1"; message := lit "message 1";
                         timestamp := TsText (lit "2024-01-01T00:00:00Z");
                         author_channel_id := lit "UC1";
                         is_moderator := false; is_owner := false; is_verified := false;
                         message_type := lit "textMessageEvent" |} ]).
  { constructor; [reflexivity |]. constructor; [reflexivity | constructor]. }
  assert (HN : 0 < 100) by reflexivity.
  exact (f_equal (fun r => map message (Api.value r))
           (malformed_item_keeps_earlier nat live_video Samples.broken_page
              (lit "key") (lit "chat") 0 start _ (lit "video") 100 _ _
              [mock_item 0; mock_item 1] [mock_item 3] Samples.broken_item _
              (KeyError "snippet")
              eq_refl eq_refl eq_refl HN eq_refl eq_refl Hgood eq_refl)).
Defined.

(** ** The two local sources *)

Module LocalFacts.
Import TextFacts.

Lemma simulate_one_record (stream : nat -> N) (base_time : Z) (k : nat) :
  simulated_record base_time (fst (Simulated.simulate_one stream base_time k)).
Proof.
  unfold Simulated.simulate_one, Simulated.bind, Simulated.choice,
    Simulated.randint, Simulated.random, Simulated.ret.
  destruct (Simulated.lt_0_1 _); destruct (Simulated.lt_0_05 _);
    cbn [fst]; unfold simulated_record;
    cbn [author message timestamp author_channel_id is_owner message_type];
    (split; [apply nth_In, Nat.mod_upper_bound; discriminate |]);
    (split; [apply nth_In, Nat.mod_upper_bound; discriminate |]);
    (split; [eexists; split; [| reflexivity];
             change (30 - 1 + 1) with 30;
             match goal with
             | |- _ <= 1 + ?x mod 30 <= _ => pose proof (Z.mod_pos_bound x 30); lia
             end |]);
    (split; [eexists; split; [| reflexivity];
             change (999999 - 100000 + 1) with 900000;
             match goal with
             | |- _ <= 100000 + ?x mod 900000 <= _ =>
                 pose proof (Z.mod_pos_bound x 900000); lia
             end |]);
    split; reflexivity.
Qed.

Lemma simulate_loop_records (stream : nat -> N) (base_time : Z) (n k : nat) :
  Forall (simulated_record base_time)
         (fst (Simulated.simulate_loop stream base_time n k)).
Proof.
  revert k. induction n as [| n IH]; intros k; [constructor |].
  cbn [Simulated.simulate_loop]. unfold Simulated.bind at 1.
  pose proof (simulate_one_record stream base_time k) as Hm.
  destruct (Simulated.simulate_one stream base_time k) as [m k1].
  unfold Simulated.bind at 1. specialize (IH k1).
  destruct (Simulated.simulate_loop stream base_time n k1) as [ms k2].
  simpl in *. now constructor.
Qed.

Section Manual.

Variable now : nat -> Z.
Variable hash : str -> Z.

(** What every record of the manual parser looks like. *)
Lemma process_line_record (n i : nat) (line : str) (m : message_data) :
  Manual.process_line now hash n i line = Some m ->
  trimmed (author m) /\ trimmed (message m) /\ manual_record hash m.
Proof.
  assert (Hid : forall a : str, 0 <= hash a mod 1000000 < 1000000)
    by (intros a; apply Z.mod_pos_bound; reflexivity).
  unfold Manual.process_line.
  destruct (contains colon line).
  - destruct (split1 colon line) as [p0 [p1 |]].
    + destruct (truthy (strip p1)); intros [= <-]; cbn.
      split; [apply strip_trimmed |]. split; [apply strip_trimmed |].
      unfold manual_record; cbn. repeat split; apply Hid.
    + cbn. discriminate.
  - destruct (truthy (strip line)); intros [= <-]; cbn.
    split; [apply user_trimmed |]. split; [apply strip_trimmed |].
    unfold manual_record; cbn. repeat split; apply Hid.
Qed.

Lemma process_lines_records (n i : nat) (lines : list str) :
  Forall (fun m => trimmed (author m) /\ trimmed (message m) /\ manual_record hash m)
         (Manual.process_lines now hash n i lines).
Proof.
  revert i. induction lines as [| line rest IH]; intros i; cbn [Manual.process_lines];
    [constructor |].
  destruct (Manual.process_line now hash n i line) eqn:E; [| apply IH].
  constructor; [| apply IH]. now apply process_line_record in E.
Qed.

Lemma collect_records (submitted : bool) (chat_input : str) :
  Forall (fun m => trimmed (author m) /\ trimmed (message m) /\ manual_record hash m)
         (Manual.collect_chat_manual_input now hash submitted chat_input).
Proof.
  unfold Manual.collect_chat_manual_input.
  destruct (submitted && truthy chat_input); [| constructor].
  apply process_lines_records.
Qed.

(** A transcript line is read back as its author and its text. *)
Lemma process_line_printed (n i : nat) (m : message_data) :
  printable m ->
  option_map (fun r => (author r, message r))
    (Manual.process_line now hash n i (author m ++ lit ": " ++ message m))
  = Some (author m, message m).
Proof.
  intros (Hcolon & _ & _ & Ha & Ht & Hne).
  change (author m ++ lit ": " ++ message m)
    with (author m ++ colon :: 32%N :: message m).
  rewrite (ManualFacts.process_line_colon now hash n i _ _ Hcolon).
  rewrite strip_space, Ha, Ht.
  now rewrite (proj2 (PyFacts.truthy_true _) Hne).
Qed.

Lemma process_lines_printed (n i : nat) (ms : list message_data) :
  Forall printable ms ->
  author_and_text
    (Manual.process_lines now hash n i
       (map (fun m => author m ++ lit ": " ++ message m) ms))
  = author_and_text ms.
Proof.
  intros H. revert i. induction H as [| m ms Hm _ IH]; intros i; [reflexivity |].
  cbn [map Manual.process_lines].
  pose proof (process_line_printed n i m Hm) as E.
  destruct (Manual.process_line now hash n i (author m ++ lit ": " ++ message m))
    as [r |]; [| discriminate].
  cbn [option_map] in E. injection E as E1 E2.
  unfold author_and_text in *. cbn [map]. now rewrite E1, E2, IH.
Qed.

(** A transcript of printable records is trimmed as a whole. *)
Lemma transcript_trimmed (ms : list message_data) :
  Forall printable ms ->
  strip (join [newline] (map (fun m => author m ++ lit ": " ++ message m) ms))
  = join [newline] (map (fun m => author m ++ lit ": " ++ message m) ms).
Proof.
  intros H. destruct ms as [| m ms]; [reflexivity |].
  apply strip_of_trimmed. split.
  - (* the front: the first author, or the colon after an empty one *)
    inversion H as [| ? ? (_ & _ & _ & Ha & _) _]; subst.
    apply lstrip_fixed. intros c t E. cbn [map] in E.
    destruct (author m) as [| a1 a] eqn:Eauthor.
    + change ([] ++ lit ": " ++ message m) with (58%N :: 32%N :: message m) in E.
      destruct (join_head [newline] 58%N (32%N :: message m)
                  (map (fun m => author m ++ lit ": " ++ message m) ms)) as (rest & Er).
      pose proof (eq_trans (eq_sym E) Er) as Ec. now injection Ec as -> _.
    + destruct (join_head [newline] a1 (a ++ lit ": " ++ message m)
                  (map (fun m => author m ++ lit ": " ++ message m) ms)) as (rest & Er).
      pose proof (eq_trans (eq_sym E) Er) as Ec. injection Ec as -> _.
      now apply (trimmed_head (a1 :: a) a1 a (trimmed_of_strip _ Ha)).
  - (* the end: the last character of the last text *)
    destruct (exists_last (l := m :: ms)) as (front & z & E); [discriminate |].
    rewrite E in *. apply Forall_app in H. destruct H as [_ Hz].
    inversion Hz as [| ? ? (_ & _ & _ & _ & Hzt & Hzne) _]; subst.
    destruct (trimmed_last _ (trimmed_of_strip _ Hzt) Hzne) as (t & c & Et & Hc).
    destruct (join_last [newline]
                (map (fun m => author m ++ lit ": " ++ message m) front)
                (author z ++ lit ": " ++ t) c) as (text & Etext).
    match goal with
    | |- lstrip (rev ?x) = _ => assert (Ex : x = text ++ [c])
    end.
    { rewrite <- Etext, map_app. cbn [map]. rewrite Et.
      now rewrite <- !app_assoc. }
    rewrite Ex, rev_app_distr. cbn [rev app lstrip]. now rewrite Hc.
Qed.

(** The parser reads back the transcript of printable records. *)
Lemma collect_printed (ms : list message_data) :
  Forall printable ms ->
  author_and_text
    (Manual.collect_chat_manual_input now hash true
       (join [newline] (map (fun m => author m ++ lit ": " ++ message m) ms)))
  = author_and_text ms.
Proof.
  intros H. rewrite ManualFacts.collect_is_process_lines, (transcript_trimmed ms H).
  destruct ms as [| m ms]; [reflexivity |].
  rewrite split_join.
  - now apply process_lines_printed.
  - discriminate.
  - apply Forall_forall. intros l Hl. apply in_map_iff in Hl.
    destruct Hl as (x & <- & Hx). rewrite Forall_forall in H.
    destruct (H x Hx) as (_ & Ha & Ht & _).
    intros Hin. apply in_app_or in Hin. destruct Hin as [Hin | Hin]; [now apply Ha |].
    apply in_app_or in Hin. destruct Hin as [Hin | Hin]; [| now apply Ht].
    destruct Hin as [Hin | [Hin | []]]; discriminate Hin.
Qed.

End Manual.
End LocalFacts.

(** X9. Every record of the simulated source takes its author and its
    text from the two sample lists, is stamped between 1 and 30 minutes
    before the base time, has a channel id "UC" followed by a number
    from 100000 to 999999, is never the owner's and is a text message. *)
Theorem simulated_records_well_formed (stream : nat -> N) (base_time : Z) (N : Z) :
  Forall (simulated_record base_time)
         (Simulated.simulate_chat_data stream base_time N).
Proof. apply LocalFacts.simulate_loop_records. Qed.

(** X10. Every record of the manual parser has a trimmed author and a
    trimmed text, no role flag, the type of a text message, and the
    channel id "UC" followed by the hash of its author reduced below
    one million; so two records of the same author carry the same
    channel id. *)
Theorem manual_records_well_formed (now : nat -> Z) (hash : str -> Z)
    (submitted : bool) (chat_input : str) :
  let records := Manual.collect_chat_manual_input now hash submitted chat_input in
  Forall (fun m => strip (author m) = author m /\
                   strip (message m) = message m /\
                   manual_record hash m) records /\
  (forall m1 m2, In m1 records -> In m2 records ->
                 author m1 = author m2 ->
                 author_channel_id m1 = author_channel_id m2).
Proof.
  intros records.
  assert (H : Forall (fun m => trimmed (author m) /\ trimmed (message m) /\
                               manual_record hash m) records).
  { apply LocalFacts.collect_records. }
  split.
  - eapply Forall_impl; [| exact H]. intros m (Ha & Ht & Hr).
    split; [now apply TextFacts.strip_of_trimmed |].
    split; [now apply TextFacts.strip_of_trimmed | exact Hr].
  - rewrite Forall_forall in H. intros m1 m2 H1 H2 E.
    destruct (H m1 H1) as (_ & _ & E1 & _). destruct (H m2 H2) as (_ & _ & E2 & _).
    now rewrite E1, E2, E.
Qed.

(** X11. Round trip: the manual parser reads the transcript that the
    insight generator prints (one line "author: text" per record, the
    last 300 records) back into the same authors and texts, when no
    author has a colon, no author or text has a newline, both are
    trimmed and no text is empty. *)
Theorem transcript_round_trip (now : nat -> Z) (hash : str -> Z)
    (messages : list message_data) :
  Forall printable messages ->
  author_and_text
    (Manual.collect_chat_manual_input now hash true (Insight.chat_text messages))
  = author_and_text (Insight.last_n 300 messages).
Proof.
  intros H. unfold Insight.chat_text. apply LocalFacts.collect_printed.
  unfold Insight.last_n. apply Forall_forall. intros m Hm.
  rewrite Forall_forall in H. apply H.
  rewrite <- (firstn_skipn (List.length messages - 300) messages).
  apply in_or_app. now right.
Qed.

Lemma transcript_round_trip_witness :
  Forall printable (chat_of ["Ann"; "Bob"]%string) /\
  author_and_text
    (Manual.collect_chat_manual_input still hash0 true
       (Insight.chat_text (chat_of ["Ann"; "Bob"]%string)))
  = [(lit "Ann", lit "hi"); (lit "Bob", lit "hi")].
Proof.
  assert (H : Forall printable (chat_of ["Ann"; "Bob"]%string)).
  { repeat constructor; try reflexivity; try discriminate;
      cbn; intros F; repeat (destruct F as [F | F]; [discriminate F |]); exact F. }
  split; [exact H |].
  exact (transcript_round_trip still hash0 _ H).
Defined.

(** ** Counting *)

Module CountFacts.
Import Stats StatsFacts.

Lemma nunique_le_length (col : list str) : (nunique col <= List.length col)%nat.
Proof.
  unfold nunique. induction col as [| a rest IH]; cbn [unique List.length]; [lia |].
  pose proof (filter_length_le (fun b => negb (str_eqb a b)) (unique rest)). lia.
Qed.

Lemma nunique_positive (a : str) (rest : list str) : (0 < nunique (a :: rest))%nat.
Proof. unfold nunique. cbn [unique List.length]. lia. Qed.

Lemma sum_bool_bounds (col : list bool) : 0 <= sum_bool col <= Z.of_nat (List.length col).
Proof.
  unfold sum_bool. pose proof (filter_length_le (fun b : bool => b) col). lia.
Qed.

Lemma sum_bool_all_false (col : list bool) :
  Forall (fun b => b = false) col -> sum_bool col = 0.
Proof.
  intros H. unfold sum_bool. induction H as [| b col -> _ IH]; [reflexivity | exact IH].
Qed.

Lemma Zpos_of_nat (n : nat) : (0 < n)%nat -> Z.pos (Pos.of_nat n) = Z.of_nat n.
Proof.
  intros H. rewrite <- positive_nat_Z, Nat2Pos.id; [reflexivity | lia].
Qed.

(** A quotient of a number by a positive one that is not larger is at
    least one. *)
Lemma quotient_at_least_one (a b : nat) :
  (0 < b <= a)%nat -> Qle 1 (Qmake (Z.of_nat a) (Pos.of_nat b)).
Proof.
  intros H. unfold Qle. cbn [Qnum Qden]. rewrite Zpos_of_nat by lia. lia.
Qed.

Lemma filter_all (A : Type) (f : A -> bool) (l : list A) :
  Forall (fun x => f x = true) l -> filter f l = l.
Proof.
  intros H. induction H as [| x l Hx _ IH]; [reflexivity |].
  cbn [filter]. now rewrite Hx, IH.
Qed.

Lemma list_sum_cons (x : nat) (l : list nat) : list_sum (x :: l) = (x + list_sum l)%nat.
Proof. reflexivity. Qed.

(** A sum over distinct values, with the term of [a] taken out. *)
Lemma sum_take_out (f : str -> nat) (a : str) (l : list str) :
  NoDup l -> (~ In a l -> f a = 0%nat) ->
  list_sum (map f l)
  = (f a + list_sum (map f (filter (fun b => negb (str_eqb a b)) l)))%nat.
Proof.
  intros Hnd. induction Hnd as [| x l Hx Hnd IH]; intros Hf.
  - cbn. rewrite Hf; [reflexivity | intros []].
  - cbn [map filter]. rewrite list_sum_cons. destruct (str_eq_dec a x) as [<- | Hne].
    + rewrite (proj2 (str_eqb_eq a a) eq_refl). cbn [negb].
      rewrite filter_all; [reflexivity |].
      apply Forall_forall. intros b Hb. apply negb_true_iff, str_eqb_neq.
      intros <-. contradiction.
    + rewrite (proj2 (str_eqb_neq a x) Hne). cbn [negb map].
      rewrite list_sum_cons, IH; [lia |].
      intros Hin. apply Hf. intros [E | Hin']; [congruence | contradiction].
Qed.

(** The tallies of the distinct values add up to the length. *)
Lemma tally_sum (col : list str) :
  list_sum (map (fun a => count_occ str_eq_dec col a) (unique col)) = List.length col.
Proof.
  induction col as [| a rest IH]; [reflexivity |].
  cbn [unique map List.length]. rewrite list_sum_cons.
  rewrite (count_occ_cons_eq str_eq_dec rest (eq_refl a)).
  rewrite (map_ext_in (fun b => count_occ str_eq_dec (a :: rest) b)
             (fun b => count_occ str_eq_dec rest b)).
  - rewrite (sum_take_out (fun b => count_occ str_eq_dec rest b) a (unique rest)) in IH.
    + lia.
    + apply unique_NoDup.
    + intros Hin. apply count_occ_not_In. intros Hin'. apply Hin. now apply unique_In.
  - intros b Hb. apply filter_In in Hb. destruct Hb as [_ Hb].
    apply negb_true_iff, str_eqb_neq in Hb.
    apply count_occ_cons_neq. exact Hb.
Qed.

Lemma list_sum_perm (l l' : list nat) :
  Permutation l l' -> list_sum l = list_sum l'.
Proof.
  intros H. induction H as [| x l l' _ IH | x y l | l l' l'' _ IH1 _ IH2].
  - reflexivity.
  - rewrite !list_sum_cons. now rewrite IH.
  - rewrite !list_sum_cons. lia.
  - now rewrite IH1.
Qed.

Lemma value_counts_sum (sort_values : list (str * nat) -> list (str * nat))
    (col : list str) :
  descending_sort sort_values ->
  list_sum (map snd (value_counts sort_values col)) = List.length col.
Proof.
  intros contract. unfold value_counts.
  destruct (contract (tally col)) as [Hperm _].
  rewrite (list_sum_perm _ _ (Permutation_map snd Hperm)).
  unfold tally. rewrite map_map. cbn [snd]. apply tally_sum.
Qed.

Lemma firstn_sum (n : nat) (l : list nat) : (list_sum (firstn n l) <= list_sum l)%nat.
Proof.
  revert n. induction l as [| x l IH]; intros [| n]; cbn [firstn];
    rewrite ?list_sum_cons; try (cbn [list_sum fold_right]; lia).
  specialize (IH n). lia.
Qed.

Lemma top_chatters_sum (sort_values : list (str * nat) -> list (str * nat))
    (messages : list message_data) :
  descending_sort sort_values ->
  (nunique (map author messages) <= 10)%nat ->
  list_sum (map snd (top_chatters sort_values messages)) = List.length messages.
Proof.
  intros contract Hn. unfold top_chatters, head.
  rewrite firstn_all2 by now rewrite (proj2 (value_counts_keys _ contract _)).
  now rewrite value_counts_sum, length_map.
Qed.

Lemma str_len_mean_at_least_one (col : list str) :
  col <> [] -> Forall (fun t => t <> []) col -> Qle 1 (str_len_mean col).
Proof.
  intros Hne H. unfold str_len_mean. apply quotient_at_least_one.
  split; [destruct col; [contradiction | cbn; lia] |].
  clear Hne. induction H as [| t col Ht _ IH]; cbn [map List.length]; [cbn; lia |].
  rewrite list_sum_cons. destruct t; [contradiction | cbn [List.length]; lia].
Qed.

End CountFacts.

(** X12. For every sequence that is not empty the counts of the summary
    agree with each other: there is at least one user and at most as
    many users as messages, so each user has at least one message on
    average, and none of the three role counts is negative or above the
    number of messages. This holds whatever the sort inside
    [value_counts] does. *)
Theorem statistics_consistent (sort_values : list (str * nat) -> list (str * nat))
    (m : message_data) (ms : list message_data) :
  let stats := Stats.generate_chat_statistics sort_values (m :: ms) in
  exists total users per_user moderators owners verified,
    Stats.lookup "total_messages" stats = Some (Stats.VInt total) /\
    Stats.lookup "unique_users" stats = Some (Stats.VInt users) /\
    Stats.lookup "messages_per_user" stats = Some (Stats.VFloat per_user) /\
    Stats.lookup "moderator_messages" stats = Some (Stats.VInt moderators) /\
    Stats.lookup "owner_messages" stats = Some (Stats.VInt owners) /\
    Stats.lookup "verified_messages" stats = Some (Stats.VInt verified) /\
    total = Z.of_nat (List.length (m :: ms)) /\
    1 <= users <= total /\
    Qle 1 per_user /\
    0 <= moderators <= total /\
    0 <= owners <= total /\
    0 <= verified <= total.
Proof.
  intros stats. subst stats. unfold Stats.generate_chat_statistics. cbv zeta.
  pose proof (CountFacts.nunique_positive (author m) (map author ms)) as Hpos.
  pose proof (CountFacts.nunique_le_length (map author (m :: ms))) as Hle.
  rewrite length_map in Hle. cbn [map] in Hle.
  change (map author (m :: ms)) with (author m :: map author ms).
  rewrite (proj2 (Nat.ltb_lt _ _) Hpos).
  do 6 eexists. do 6 (split; [reflexivity |]).
  split; [reflexivity |].
  split; [lia |].
  split; [apply CountFacts.quotient_at_least_one; lia |].
  pose proof (CountFacts.sum_bool_bounds (map is_moderator (m :: ms))) as H1.
  pose proof (CountFacts.sum_bool_bounds (map is_owner (m :: ms))) as H2.
  pose proof (CountFacts.sum_bool_bounds (map is_verified (m :: ms))) as H3.
  rewrite length_map in H1, H2, H3. now repeat split.
Qed.

(** X13. With a sort that gives the same entries in descending order
    of the counts, the counts of the full ranking of the authors add up
    to the number of messages; the counts of the top chatters never add
    up to more, and with at most ten distinct authors they add up to
    exactly the number of messages. *)
Theorem top_chatters_account (sort_values : list (str * nat) -> list (str * nat))
    (messages : list message_data) :
  Stats.descending_sort sort_values ->
  let authors := map author messages in
  list_sum (map snd (Stats.value_counts sort_values authors)) = List.length messages /\
  (list_sum (map snd (Stats.top_chatters sort_values messages))
   <= List.length messages)%nat /\
  ((Stats.nunique authors <= 10)%nat ->
   list_sum (map snd (Stats.top_chatters sort_values messages)) = List.length messages).
Proof.
  intros contract authors.
  pose proof (CountFacts.value_counts_sum sort_values authors contract) as Hsum.
  unfold authors in Hsum at 2. rewrite length_map in Hsum.
  split; [exact Hsum |]. unfold Stats.top_chatters, Stats.head. fold authors.
  split.
  - rewrite <- Hsum, <- firstn_map. apply CountFacts.firstn_sum.
  - intros Hn. now apply CountFacts.top_chatters_sum.
Qed.

Lemma top_chatters_account_witness :
  Stats.descending_sort reversing_desc /\
  (Stats.nunique (map author (chat_of (five_five_three "A" "B" "C"))) <= 10)%nat /\
  list_sum (map snd (Stats.top_chatters reversing_desc
                       (chat_of (five_five_three "A" "B" "C"))))
  = 13%nat.
Proof.
  assert (H : (Stats.nunique (map author (chat_of (five_five_three "A" "B" "C")))
               <= 10)%nat) by (vm_compute; repeat constructor).
  split; [apply StatsFacts.reversing_desc_contract |].
  split; [exact H |].
  exact (proj2 (proj2 (top_chatters_account reversing_desc
                         (chat_of (five_five_three "A" "B" "C"))
                         StatsFacts.reversing_desc_contract)) H).
Defined.

(** X14. The summary of simulated data, with a sort that gives the
    same entries in descending order of the counts: for a positive
    target [N] there are [N] messages from at least one and at most ten
    users, no message of the owner, a mean text length of at least one,
    and the top chatters are sample users whose counts add up to [N]:
    the chart accounts for every message. *)
Theorem simulated_statistics (sort_values : list (str * nat) -> list (str * nat))
    (stream : nat -> N) (base_time : Z) (N : Z) :
  Stats.descending_sort sort_values ->
  0 < N ->
  let stats := Stats.generate_chat_statistics sort_values
                 (Simulated.simulate_chat_data stream base_time N) in
  Stats.lookup "total_messages" stats = Some (Stats.VInt N) /\
  (exists users, Stats.lookup "unique_users" stats = Some (Stats.VInt users) /\
                 1 <= users <= 10) /\
  Stats.lookup "owner_messages" stats = Some (Stats.VInt 0) /\
  (exists top, Stats.lookup "top_chatters" stats = Some (Stats.VCounts top) /\
               Z.of_nat (list_sum (map snd top)) = N /\
               Forall (fun row => In (fst row) Simulated.sample_users) top) /\
  (exists mean, Stats.lookup "message_length_avg" stats = Some (Stats.VFloat mean) /\
                Qle 1 mean).
Proof.
  intros contract HN stats. subst stats.
  pose proof (SimulatedFacts.simulate_loop_length stream base_time (Z.to_nat N) 0%nat) as Hlen.
  pose proof (LocalFacts.simulate_loop_records stream base_time (Z.to_nat N) 0%nat) as Hrec.
  pose proof (SimulatedFacts.simulate_loop_text stream base_time (Z.to_nat N) 0%nat) as Htext.
  unfold Simulated.simulate_chat_data.
  set (messages := fst (Simulated.simulate_loop stream base_time (Z.to_nat N) 0%nat)) in *.
  assert (Husers : (Stats.nunique (map author messages) <= 10)%nat).
  { unfold Stats.nunique.
    apply (NoDup_incl_length (StatsFacts.unique_NoDup _) (l' := Simulated.sample_users)).
    intros a Ha. apply StatsFacts.unique_In, in_map_iff in Ha.
    destruct Ha as (m & <- & Hm). rewrite Forall_forall in Hrec.
    now destruct (Hrec m Hm) as [Hin _]. }
  pose proof (CountFacts.top_chatters_sum sort_values messages contract Husers) as Htop.
  assert (Hnames : Forall (fun row => In (fst row) Simulated.sample_users)
                          (Stats.top_chatters sort_values messages)).
  { apply Forall_forall. intros [a c] Hin. cbn [fst].
    unfold Stats.top_chatters, Stats.head in Hin.
    assert (Hall : In (a, c) (Stats.value_counts sort_values (map author messages))).
    { rewrite <- (firstn_skipn 10). apply in_or_app. now left. }
    apply (StatsFacts.value_counts_In _ contract) in Hall. destruct Hall as [Hall _].
    rename Hall into Hin'. clear Hin. rename Hin' into Hin.
    apply in_map_iff in Hin. destruct Hin as (m & <- & Hm).
    rewrite Forall_forall in Hrec. now destruct (Hrec m Hm) as [Ha _]. }
  assert (Howner : Stats.sum_bool (map is_owner messages) = 0).
  { apply CountFacts.sum_bool_all_false. apply Forall_forall. intros b Hb.
    apply in_map_iff in Hb. destruct Hb as (m & <- & Hm).
    rewrite Forall_forall in Hrec. now destruct (Hrec m Hm) as (_ & _ & _ & _ & Ho & _). }
  assert (Hmean : messages <> [] -> Qle 1 (Stats.str_len_mean (map message messages))).
  { intros Hne. apply CountFacts.str_len_mean_at_least_one.
    - destruct messages; [contradiction | discriminate].
    - apply Forall_forall. intros t Ht. apply in_map_iff in Ht.
      destruct Ht as (m & <- & Hm). rewrite Forall_forall in Htext. now apply Htext. }
  destruct messages as [| m ms] eqn:E; [cbn in Hlen; lia |].
  unfold Stats.generate_chat_statistics. cbv zeta.
  pose proof (CountFacts.nunique_positive (author m) (map author ms)) as Hpos.
  change (map author (m :: ms)) with (author m :: map author ms) in *.
  rewrite (proj2 (Nat.ltb_lt _ _) Hpos).
  split; [cbn [Stats.lookup String.eqb Ascii.eqb Bool.eqb]; f_equal; f_equal; lia |].
  split; [eexists; split; [reflexivity | lia] |].
  split; [cbn [Stats.lookup String.eqb Ascii.eqb Bool.eqb]; now rewrite Howner |].
  split; [eexists; split; [reflexivity | split; [lia | exact Hnames]] |].
  eexists. split; [reflexivity | apply Hmean; discriminate].
Qed.

Lemma simulated_statistics_witness :
  Stats.descending_sort reversing_desc /\
  0 < 5 /\
  Stats.lookup "total_messages"
    (Stats.generate_chat_statistics reversing_desc
       (Simulated.simulate_chat_data (fun k => N.of_nat (7 * k)) 1700000000000000 5))
  = Some (Stats.VInt 5).
Proof.
  assert (H : 0 < 5) by reflexivity.
  split; [apply StatsFacts.reversing_desc_contract |].
  split; [exact H |].
  exact (proj1 (simulated_statistics reversing_desc
                  (fun k => N.of_nat (7 * k)) 1700000000000000 5
                  StatsFacts.reversing_desc_contract H)).
Defined.

(** X15. The summary of manual input: whenever the parser gives records
    at all, none of them counts as a moderator's, the owner's or a
    verified user's message, and the mean text length is at least one
    character. *)
Theorem manual_statistics (sort_values : list (str * nat) -> list (str * nat))
    (now : nat -> Z) (hash : str -> Z) (submitted : bool) (chat_input : str) :
  let records := Manual.collect_chat_manual_input now hash submitted chat_input in
  let stats := Stats.generate_chat_statistics sort_values records in
  records = [] \/
  (Stats.lookup "moderator_messages" stats = Some (Stats.VInt 0) /\
   Stats.lookup "owner_messages" stats = Some (Stats.VInt 0) /\
   Stats.lookup "verified_messages" stats = Some (Stats.VInt 0) /\
   exists mean, Stats.lookup "message_length_avg" stats = Some (Stats.VFloat mean) /\
                Qle 1 mean).
Proof.
  intros records stats. subst stats.
  pose proof (LocalFacts.collect_records now hash submitted chat_input) as Hrec.
  pose proof (ManualFacts.collect_text now hash submitted chat_input) as Htext.
  fold records in Hrec, Htext.
  destruct records as [| m ms] eqn:E; [now left | right].
  assert (Hflag : forall f : message_data -> bool,
             (forall r, manual_record hash r -> f r = false) ->
             Stats.sum_bool (map f (m :: ms)) = 0).
  { intros f Hf. apply CountFacts.sum_bool_all_false. apply Forall_forall.
    intros b Hb. apply in_map_iff in Hb. destruct Hb as (r & <- & Hr).
    rewrite Forall_forall in Hrec. apply Hf. now destruct (Hrec r Hr) as (_ & _ & H). }
  unfold Stats.generate_chat_statistics. cbv zeta.
  cbn [Stats.lookup String.eqb Ascii.eqb Bool.eqb].
  rewrite (Hflag is_moderator), (Hflag is_owner), (Hflag is_verified);
    try (intros r Hr; apply Hr).
  repeat (split; [reflexivity |]).
  eexists. split; [reflexivity |].
  apply CountFacts.str_len_mean_at_least_one; [discriminate |].
  apply Forall_forall. intros t Ht. apply in_map_iff in Ht.
  destruct Ht as (r & <- & Hr). rewrite Forall_forall in Htext. now apply Htext.
Qed.

(** ** More on the insight generator *)

Module AnalysisFacts.
Section AnalysisFacts.
Import Insight.

Variable client : Type.
Variable create : client -> create_params -> response completion * client.
Variable repr : str -> str.

Abbreviation analyze_with_claude := (Insight.analyze_with_claude client create repr).

(** With a known mode, the analysis is decided by the answer to its
    one request. *)
Lemma analyze_known_mode (m : message_data) (ms : list message_data)
    (analysis_type : str) (w : world client) :
  In analysis_type analysis_types ->
  exists prompt,
    In (analysis_type, prompt) (prompts (chat_text (m :: ms))) /\
    analyze_with_claude (m :: ms) analysis_type w
    = (Ok (match fst (create (remote w) (request prompt)) with
           | Ok r =>
               match content r with
               | [] => lit "Error analyzing chat with Claude: " ++ exn_str IndexError
               | TextBlock text :: _ => text
               | OtherBlock e :: _ => lit "Error analyzing chat with Claude: " ++ exn_str e
               end
           | Raises e => lit "Error analyzing chat with Claude: " ++ exn_str e
           end),
       {| remote := snd (create (remote w) (request prompt));
          sent := sent w ++ [request prompt] |}).
Proof.
  intros Hmode.
  rewrite <- (InsightFacts.prompts_keys (chat_text (m :: ms))) in Hmode.
  destruct (InsightFacts.subscript_found client repr _ _ w Hmode) as (prompt & Hin & Hp).
  exists prompt. split; [exact Hin |].
  unfold Insight.analyze_with_claude, try_except, bind. rewrite Hp.
  unfold messages_create.
  destruct (create (remote w) (request prompt)) as [[r | e] c]; cbn [fst snd];
    [| reflexivity].
  unfold first_text. destruct (content r) as [| [text | e] rest]; reflexivity.
Qed.

(** The transcript only reads the last 300 records. *)
Lemma chat_text_window (older recent : list message_data) :
  (300 <= List.length recent)%nat ->
  chat_text (older ++ recent) = chat_text recent.
Proof.
  intros H. unfold chat_text, last_n. rewrite length_app, skipn_app.
  rewrite skipn_all2 by lia. cbn [app].
  replace (List.length older + List.length recent - 300 - List.length older)%nat
    with (List.length recent - 300)%nat by lia.
  reflexivity.
Qed.

End AnalysisFacts.
End AnalysisFacts.

(** X16. An analysis sends at most one request to the completion
    service, the one of the prompt of its mode, and for an empty
    sequence it sends none and returns "No messages to analyze". *)
Theorem analysis_sends_at_most_one (client : Type)
    (create : client -> Insight.create_params -> response Insight.completion * client)
    (repr : str -> str) (messages : list message_data) (analysis_type : str)
    (w : Insight.world client) :
  let w' := snd (Insight.analyze_with_claude client create repr messages analysis_type w) in
  (Insight.sent w' = Insight.sent w \/
   exists prompt,
     In (analysis_type, prompt) (Insight.prompts (Insight.chat_text messages)) /\
     Insight.sent w' = Insight.sent w ++ [Insight.request prompt]) /\
  (messages = [] ->
   Insight.analyze_with_claude client create repr messages analysis_type w
   = (Ok (lit "No messages to analyze"), w)).
Proof.
  intros w'. subst w'. split; [| now intros ->].
  destruct messages as [| m ms]; [now left |].
  destruct (in_dec str_eq_dec analysis_type Insight.analysis_types) as [Hin | Hout].
  - right.
    destruct (AnalysisFacts.analyze_known_mode client create repr m ms analysis_type w Hin)
      as (prompt & Hp & E).
    exists prompt. split; [exact Hp |]. now rewrite E.
  - left.
    rewrite <- (InsightFacts.prompts_keys (Insight.chat_text (m :: ms))) in Hout.
    unfold Insight.analyze_with_claude, Insight.try_except, Insight.bind.
    now rewrite (InsightFacts.subscript_missing client repr _ _ w Hout).
Qed.

(** X17. With a sequence that is not empty and one of the four modes,
    when the completion service answers, the analysis returns the text
    of the first block of the answer; an answer without any block, or
    whose first block is not a text, gives the error text instead of an
    exception. *)
Theorem analysis_of_answer (client : Type)
    (create : client -> Insight.create_params -> response Insight.completion * client)
    (repr : str -> str) (w : Insight.world client)
    (m : message_data) (ms : list message_data) (analysis_type : str) :
  In analysis_type Insight.analysis_types ->
  exists prompt,
    In (analysis_type, prompt) (Insight.prompts (Insight.chat_text (m :: ms))) /\
    forall answer c',
      create (Insight.remote w) (Insight.request prompt) = (Ok answer, c') ->
      Insight.analyze_with_claude client create repr (m :: ms) analysis_type w
      = (Ok (match Insight.content answer with
             | [] => lit "Error analyzing chat with Claude: list index out of range"
             | Insight.TextBlock text :: _ => text
             | Insight.OtherBlock e :: _ =>
                 lit "Error analyzing chat with Claude: " ++ exn_str e
             end),
         {| Insight.remote := c';
            Insight.sent := Insight.sent w ++ [Insight.request prompt] |}).
Proof.
  intros Hmode.
  destruct (AnalysisFacts.analyze_known_mode client create repr m ms analysis_type w Hmode)
    as (prompt & Hp & E).
  exists prompt. split; [exact Hp |]. intros answer c' Hanswer.
  rewrite E, Hanswer. reflexivity.
Qed.

Lemma analysis_of_answer_witness :
  In (lit "themes") Insight.analysis_types /\
  fst (Insight.analyze_with_claude unit Samples.service_up quoted
         (chat_of ["A"; "B"]%string) (lit "themes") (Insight.mk_world tt []))
  = Ok (lit "The chat is friendly.").
Proof.
  assert (H : In (lit "themes") Insight.analysis_types).
  { right. right. right. left. reflexivity. }
  split; [exact H |].
  destruct (analysis_of_answer unit Samples.service_up quoted (Insight.mk_world tt [])
              (record "A" "UC1") (chat_of ["B"]%string) (lit "themes") H)
    as (prompt & _ & Hrun).
  exact (f_equal fst (Hrun _ tt eq_refl)).
Defined.

(** X18. Records older than the last 300 never reach the completion
    service: an analysis of a sequence whose last 300 records (or more)
    are [recent] is the analysis of [recent]. *)
Theorem analysis_window (client : Type)
    (create : client -> Insight.create_params -> response Insight.completion * client)
    (repr : str -> str) (w : Insight.world client)
    (older recent : list message_data) (analysis_type : str) :
  (300 <= List.length recent)%nat ->
  Insight.analyze_with_claude client create repr (older ++ recent) analysis_type w
  = Insight.analyze_with_claude client create repr recent analysis_type w.
Proof.
  intros H.
  pose proof (AnalysisFacts.chat_text_window older recent H) as E.
  destruct recent as [| r recent]; [cbn in H; lia |].
  destruct (older ++ r :: recent) as [| x xs] eqn:Ex.
  - destruct older; discriminate.
  - unfold Insight.analyze_with_claude. now rewrite E.
Qed.

Lemma analysis_window_witness :
  (300 <= List.length (repeat (record "B" "UC2") 300))%nat /\
  Insight.analyze_with_claude unit Samples.service_up quoted
    (chat_of ["A"; "A"]%string ++ repeat (record "B" "UC2") 300) (lit "themes")
    (Insight.mk_world tt [])
  = Insight.analyze_with_claude unit Samples.service_up quoted
      (repeat (record "B" "UC2") 300) (lit "themes") (Insight.mk_world tt []).
Proof.
  assert (H : (300 <= List.length (repeat (record "B" "UC2") 300))%nat).
  { rewrite repeat_length. apply Nat.le_refl. }
  split; [exact H |].
  exact (analysis_window unit Samples.service_up quoted (Insight.mk_world tt [])
           (chat_of ["A"; "A"]%string) (repeat (record "B" "UC2") 300) (lit "themes") H).
Defined.

(** X19. The results page: for an empty sequence [analyze_messages]
    raises [KeyError] on its first metric, before any request is sent;
    for a sequence that is not empty, and with a sort that gives the
    same entries in descending order of the counts, its part up to the
    display of the analysis raises nothing and shows the four metrics,
    then the chart of the top chatters (which is never empty), then the
    text of the analysis, after the requests of that analysis only. *)
Theorem results_page (client : Type)
    (create : client -> Insight.create_params -> response Insight.completion * client)
    (repr : str -> str) (sort_values : list (str * nat) -> list (str * nat))
    (analysis_type : str) (w : Insight.world client) :
  App.analyze_messages client create repr sort_values [] analysis_type w
  = (Raises (KeyError "total_messages"), w) /\
  forall m ms,
    Stats.descending_sort sort_values ->
    let messages := m :: ms in
    let users := Stats.nunique (map author messages) in
    Stats.top_chatters sort_values messages <> [] /\
    exists analysis,
      fst (Insight.analyze_with_claude client create repr messages analysis_type w)
      = Ok analysis /\
      App.analyze_messages client create repr sort_values messages analysis_type w
      = (Ok [ App.Metric (lit "Total Messages")
                (Stats.VInt (Z.of_nat (List.length messages)));
              App.Metric (lit "Unique Users") (Stats.VInt (Z.of_nat users));
              App.Metric (lit "Avg Messages/User")
                (Stats.VFloat (Qmake (Z.of_nat (List.length messages)) (Pos.of_nat users)));
              App.Metric (lit "Avg Message Length")
                (Stats.VFloat (Stats.str_len_mean (map message messages)));
              App.BarChart (Stats.top_chatters sort_values messages);
              App.Markdown analysis ],
         snd (Insight.analyze_with_claude client create repr messages analysis_type w)).
Proof.
  split; [reflexivity |]. intros m ms contract messages users.
  assert (Htop : Stats.top_chatters sort_values messages <> []).
  { intros E. apply (f_equal (@List.length _)) in E.
    unfold Stats.top_chatters, Stats.head in E.
    rewrite length_firstn, (proj2 (StatsFacts.value_counts_keys _ contract _)) in E.
    pose proof (CountFacts.nunique_positive (author m) (map author ms)) as Hpos.
    change (author m :: map author ms) with (map author messages) in Hpos.
    cbn [List.length] in E. lia. }
  split; [exact Htop |].
  destruct (InsightFacts.analyze_returns client create repr messages analysis_type w)
    as (analysis & Ha).
  exists analysis. split; [exact Ha |].
  unfold App.analyze_messages, App.stats_item, Insight.bind, Insight.ret.
  subst messages. unfold Stats.generate_chat_statistics. cbv zeta.
  pose proof (CountFacts.nunique_positive (author m) (map author ms)) as Hpos.
  change (map author (m :: ms)) with (author m :: map author ms) in *.
  rewrite (proj2 (Nat.ltb_lt _ _) Hpos).
  cbn [Stats.lookup String.eqb Ascii.eqb Bool.eqb].
  destruct (Stats.top_chatters sort_values (m :: ms)) as [| row rows] eqn:Et;
    [contradiction |].
  destruct (Insight.analyze_with_claude client create repr (m :: ms) analysis_type w)
    as [[text | e] w'] eqn:Er; cbn [fst snd] in *; [| discriminate].
  injection Ha as ->. reflexivity.
Qed.

Lemma results_page_witness :
  Stats.descending_sort reversing_desc /\
  Stats.top_chatters reversing_desc (chat_of ["A"; "B"; "B"]%string) <> [] /\
  exists analysis,
    fst (App.analyze_messages unit Samples.service_up quoted reversing_desc
           (chat_of ["A"; "B"; "B"]%string) (lit "themes") (Insight.mk_world tt []))
    = Ok [ App.Metric (lit "Total Messages") (Stats.VInt 3);
           App.Metric (lit "Unique Users") (Stats.VInt 2);
           App.Metric (lit "Avg Messages/User") (Stats.VFloat (Qmake 3 2));
           App.Metric (lit "Avg Message Length") (Stats.VFloat (Qmake 6 3));
           App.BarChart [(lit "B", 2%nat); (lit "A", 1%nat)];
           App.Markdown analysis ].
Proof.
  split; [apply StatsFacts.reversing_desc_contract |].
  destruct (proj2 (results_page unit Samples.service_up quoted reversing_desc
                     (lit "themes") (Insight.mk_world tt []))
              (record "A" "UC1") (chat_of ["B"; "B"]%string)
              StatsFacts.reversing_desc_contract) as (Htop & analysis & _ & Hpage).
  split; [exact Htop |].
  exists analysis.
  change (chat_of ["A"; "B"; "B"]%string)
    with (record "A" "UC1" :: chat_of ["B"; "B"]%string).
  rewrite Hpage. reflexivity.
Defined.

(** ** A chat with messages to spare *)

Module FullFacts.
Section FullFacts.
Import Api Trace.

Variable server : Type.
Variable messages_list : server -> page_params -> response page * server.
Hypothesis full : always_full messages_list.

Variable api_key chat_id : str.
Variable max_messages : Z.

(** With full pages the loop stops exactly at the target. *)
Lemma page_loop_exact (fuel : nat) (w : world server)
    (messages : list message_data) (token : option str) :
  Z.of_nat (List.length messages) <= max_messages ->
  (Z.to_nat (max_messages - Z.of_nat (List.length messages)) <= fuel)%nat ->
  exists messages' w',
    Api.page_loop server messages_list api_key chat_id max_messages fuel w messages token
    = (Left_loop, messages', w') /\
    Z.of_nat (List.length messages') = max_messages.
Proof.
  revert w messages token.
  induction fuel as [| fuel IH]; intros w messages token Hle Hfuel; cbn [Api.page_loop];
    destruct (Z.ltb_spec (Z.of_nat (List.length messages)) max_messages) as [Hlt | Hge];
    try (exists messages, w; split; [reflexivity | lia]); [lia |].
  set (params := {| liveChatId := chat_id;
                    part := lit "snippet,authorDetails";
                    key := api_key;
                    maxResults := Z.min 200 (max_messages - Z.of_nat (List.length messages));
                    pageToken := if truthy_opt token then token else None |}).
  assert (Hp : 0 < maxResults params <= 200) by (unfold params; cbn; lia).
  destruct (full (remote w) params Hp) as (data & srv & its & records & Ecall & Eits & Hconv & Hlen & Htok).
  rewrite Ecall, Eits, (ApiFacts.append_items_all its records messages Hconv), Htok.
  assert (Hrec : List.length records = List.length its).
  { clear -Hconv. induction Hconv; cbn; congruence. }
  apply IH.
  - rewrite length_app, Hrec. unfold params in Hlen. cbn [maxResults] in Hlen. lia.
  - rewrite length_app, Hrec. unfold params in Hlen. cbn [maxResults] in Hlen. lia.
Qed.

End FullFacts.

Lemma mock_items_convert (numbers : list nat) :
  exists records,
    Forall2 (fun it m => Api.message_of_item it = Ok m) (map mock_item numbers) records.
Proof.
  induction numbers as [| n numbers (records & IH)].
  - exists []. constructor.
  - eexists (_ :: records). constructor; [reflexivity | exact IH].
Qed.

Lemma endless_full : Trace.always_full Samples.endless.
Proof.
  intros s p Hp. unfold Samples.endless.
  destruct (mock_items_convert (seq (s * 200) (Z.to_nat (Z.min 200 (Api.maxResults p)))))
    as (records & Hrec).
  eexists. eexists. eexists. exists records.
  split; [reflexivity |]. split; [reflexivity |].
  split; [exact Hrec |]. split; [| reflexivity].
  rewrite length_map, length_seq. lia.
Qed.

End FullFacts.

(** X20. The video lookup gives a chat id exactly when the API key is
    set, the one request it sends is answered without an exception, and
    the first item of the answer carries [liveStreamingDetails] with an
    [activeLiveChatId]; that id is the result, and nothing but the
    request is added to the trace. *)
Theorem live_chat_id_resolved (server : Type)
    (videos_list : server -> Api.videos_params -> response Api.videos * server)
    (youtube_api_key : option str) (w w' : Api.world server) (video_id id : str) :
  Api.get_live_chat_id server videos_list youtube_api_key w video_id = (Some id, w')
  <->
  exists api_key data v rest details,
    youtube_api_key = Some api_key /\
    truthy api_key = true /\
    videos_list (Api.remote w)
      {| Api.v_part := lit "liveStreamingDetails"; Api.v_id := video_id;
         Api.v_key := api_key |}
    = (Ok data, Api.remote w') /\
    Api.trace w'
    = Api.trace w ++
      [Api.GetVideos {| Api.v_part := lit "liveStreamingDetails"; Api.v_id := video_id;
                        Api.v_key := api_key |}] /\
    Api.video_items data = Some (v :: rest) /\
    Api.liveStreamingDetails v = Some details /\
    Api.activeLiveChatId details = Some id.
Proof.
  unfold Api.get_live_chat_id. split.
  - destruct youtube_api_key as [api_key |]; [| discriminate].
    destruct (truthy api_key) eqn:Ekey; [| discriminate].
    destruct (videos_list _ _) as [[data | e] srv] eqn:Ecall; [| discriminate].
    destruct (Api.video_items data) as [[| v rest] |] eqn:Eitems; try discriminate.
    destruct (Api.liveStreamingDetails v) as [details |] eqn:Ed; cbn [Api.get];
      [| discriminate].
    intros [= Eid <-]. exists api_key, data, v, rest, details.
    repeat split; auto.
  - intros (api_key & data & v & rest & details & -> & Hkey & Hcall & Htrace & Hitems & Hd & Hid).
    rewrite Hkey, Hcall, Hitems, Hd. cbn [Api.get]. rewrite Hid. f_equal.
    destruct w' as [srv' tr']. cbn [Api.remote Api.trace] in *. subst tr'.
    reflexivity.
Qed.

(** X21. When the chat has messages to spare (every page comes as full
    as asked for, converts and announces a next page), the key is set
    and the live chat is resolved, the collector returns exactly [N]
    records for every target [N >= 0], within [N] turns of the loop. *)
Theorem collector_exact (server : Type)
    (videos_list : server -> Api.videos_params -> response Api.videos * server)
    (messages_list : server -> Api.page_params -> response Api.page * server)
    (youtube_api_key : option str) (fuel : nat) (w : Api.world server)
    (video_id : str) (N : Z) :
  Trace.always_full messages_list ->
  0 <= N ->
  Api.truthy_opt youtube_api_key = true ->
  Api.truthy_opt (fst (Api.get_live_chat_id server videos_list youtube_api_key w video_id))
  = true ->
  (Z.to_nat N <= fuel)%nat ->
  let r := Api.collect_chat_with_api server videos_list messages_list youtube_api_key
             fuel w video_id N in
  Api.returned r = true /\ Z.of_nat (List.length (Api.value r)) = N.
Proof.
  intros Hfull HN Hkey Hchat Hfuel r. subst r.
  unfold Api.collect_chat_with_api.
  destruct youtube_api_key as [api_key |]; [| discriminate].
  cbn [Api.truthy_opt] in Hkey. rewrite Hkey.
  destruct (Api.get_live_chat_id server videos_list (Some api_key) w video_id)
    as [chat w1].
  cbn [fst] in Hchat. rewrite Hchat.
  destruct (FullFacts.page_loop_exact server messages_list Hfull api_key
              (Api.get chat []) N fuel w1 [] None)
    as (messages & w2 & E & Hlen); [exact HN | cbn [List.length]; lia |].
  rewrite E. split; [reflexivity | exact Hlen].
Qed.

Lemma collector_exact_witness :
  Trace.always_full Samples.endless /\
  0 <= 350 /\
  Api.truthy_opt api_key = true /\
  Api.truthy_opt (fst (Api.get_live_chat_id nat live_video api_key start (lit "video")))
  = true /\
  (Z.to_nat 350 <= 350)%nat /\
  Z.of_nat (List.length
              (Api.value (Api.collect_chat_with_api nat live_video Samples.endless api_key
                            350 start (lit "video") 350))) = 350.
Proof.
  assert (H1 : 0 <= 350) by (vm_compute; discriminate).
  assert (H2 : Api.truthy_opt api_key = true) by reflexivity.
  assert (H3 : Api.truthy_opt
                 (fst (Api.get_live_chat_id nat live_video api_key start (lit "video")))
               = true) by reflexivity.
  assert (H4 : (Z.to_nat 350 <= 350)%nat) by (vm_compute; apply Nat.le_refl).
  split; [exact FullFacts.endless_full |].
  split; [exact H1 |]. split; [exact H2 |]. split; [exact H3 |]. split; [exact H4 |].
  exact (proj2 (collector_exact nat live_video Samples.endless api_key 350 start
                  (lit "video") 350 FullFacts.endless_full H1 H2 H3 H4)).
Defined.
